(** * Net Worth Tracker (app.js): data model, calculations, CSV codec, snapshots

    A shallow embedding of the core of [src/app.js].

    - A JavaScript Number is an IEEE 754 binary64 value; it is modelled by
      the Standard Library's [spec_float] at precision 53 and maximal
      exponent 1024, with its specified arithmetic ([SFadd], [SFsub], ...).
    - A JavaScript string is modelled by [string]; every character stands
      for one code unit in the range 0..255.
    - The three global arrays and the two editing ids are the fields of
      [State]; the handlers are state transformers that may complete
      abruptly with a JavaScript error.
    - The DOM, localStorage, prompt/confirm/alert and the file download are
      collaborators: what the code reads from them is an argument of the
      handler, what it writes to them leaves the state unchanged. Of the
      functions that render the page, what can end them abruptly is
      modelled: the grouping of the records by category in
      [displayAssets] and [displayLiabilities]. *)

From Stdlib Require Import ZArith NArith List String Ascii Bool Lia.
From Stdlib Require Import SpecFloat DecimalString DecimalPos.
Import ListNotations.

Local Open Scope string_scope.
Local Open Scope list_scope.

(** ** Strings *)

Module Str.

(** Code units that [String.prototype.trim] and the StrWhiteSpaceChar
    production of [parseFloat] remove: TAB, LF, VT, FF, CR, SP, NBSP. *)
Definition isWhiteSpace (c : ascii) : bool :=
  let n := nat_of_ascii c in
  (((9 <=? n) && (n <=? 13)) || (n =? 32) || (n =? 160))%nat.

Fixpoint trimStart (s : string) : string :=
  match s with
  | String c r => if isWhiteSpace c then trimStart r else s
  | EmptyString => EmptyString
  end.

(** [trimEnd] keeps a character when it is not white space or when
    something survives after it. *)
Fixpoint trimEnd (s : string) : string :=
  match s with
  | String c r =>
      match trimEnd r with
      | EmptyString => if isWhiteSpace c then EmptyString else String c EmptyString
      | r' => String c r'
      end
  | EmptyString => EmptyString
  end.

Definition trim (s : string) : string := trimEnd (trimStart s).

(** Truthiness of a string value: every string but the empty one. *)
Definition truthy (s : string) : bool :=
  match s with EmptyString => false | _ => true end.

(** [a || b] on strings. *)
Definition orElse (a b : string) : string := if truthy a then a else b.

(** [s.split(sep)] for a one-character separator. *)
Fixpoint split (sep : ascii) (s : string) : list string :=
  match s with
  | EmptyString => [EmptyString]
  | String c r =>
      if Ascii.eqb c sep then EmptyString :: split sep r
      else match split sep r with
           | h :: t => String c h :: t
           | [] => [String c EmptyString]
           end
  end.

Fixpoint contains (c : ascii) (s : string) : bool :=
  match s with
  | EmptyString => false
  | String d r => Ascii.eqb d c || contains c r
  end.

Fixpoint repeat0 (n : nat) : string :=
  match n with O => EmptyString | S k => String "0" (repeat0 k) end.

Definition isDigit (c : ascii) : bool :=
  let n := nat_of_ascii c in ((48 <=? n) && (n <=? 57))%nat.

(** Longest prefix of decimal digits, and what follows it. *)
Fixpoint spanDigits (s : string) : string * string :=
  match s with
  | String c r =>
      if isDigit c then let (d, rest) := spanDigits r in (String c d, rest)
      else (EmptyString, s)
  | EmptyString => (EmptyString, EmptyString)
  end.

(** Value of a string of decimal digits. *)
Fixpoint digitsValue (acc : N) (s : string) : N :=
  match s with
  | String c r => digitsValue (acc * 10 + (N_of_ascii c - 48))%N r
  | EmptyString => acc
  end.

Definition ofN (n : N) : string := NilZero.string_of_uint (N.to_uint n).

Fixpoint dropTrailingZeros (s : string) : string :=
  match s with
  | String c r =>
      match dropTrailingZeros r with
      | EmptyString => if Ascii.eqb c "0" then EmptyString else String c EmptyString
      | r' => String c r'
      end
  | EmptyString => EmptyString
  end.

End Str.

(** ** Numbers *)

Module Num.

Definition number := spec_float.

Definition prec : Z := 53.
Definition emax : Z := 1024.

Definition NaN : number := S754_nan.
Definition zero : number := S754_zero false.

Definition add : number -> number -> number := SFadd prec emax.
Definition sub : number -> number -> number := SFsub prec emax.
Definition mul : number -> number -> number := SFmul prec emax.
Definition div : number -> number -> number := SFdiv prec emax.

Definition isNaN (x : number) : bool :=
  match x with S754_nan => true | _ => false end.

Definition isFinite (x : number) : bool :=
  match x with S754_zero _ | S754_finite _ _ _ => true | _ => false end.

(** Truthiness of a Number: everything but NaN, +0 and -0. *)
Definition truthy (x : number) : bool :=
  match x with S754_nan | S754_zero _ => false | _ => true end.

(** [a || b] on numbers. *)
Definition orElse (a b : number) : number := if truthy a then a else b.

(** The Number nearest to the integer [z] (ties to even). *)
Definition ofZ (z : Z) : number := binary_normalize prec emax z 0 false.

(** The Number nearest to [(-1)^neg * p * 10^e] (ties to even): the
    integer [p * 10^e] rounded, or the quotient of [p] by [10^(-e)]. *)
Definition roundDecimal (neg : bool) (p : positive) (e : Z) : number :=
  match e with
  | Zneg k => SFdiv prec emax (S754_finite neg p 0)
                              (S754_finite false (Pos.pow 10 k) 0)
  | _ => binary_round prec emax neg (p * Z.to_pos (10 ^ e)) 0
  end.

(** [p * 10^e] with the trailing zeros of [p] moved into the exponent:
    the same value, written with the least mantissa. *)
Fixpoint stripZeros (fuel : nat) (p : positive) (e : Z) : positive * Z :=
  match fuel with
  | O => (p, e)
  | S fuel' =>
      match (Npos p mod 10)%N, (Npos p / 10)%N with
      | N0, Npos p' => stripZeros fuel' p' (e + 1)
      | _, _ => (p, e)
      end
  end.

Definition normalDecimal (p : positive) (e : Z) : positive * Z :=
  stripZeros (Pos.size_nat p) p e.

(** The Number nearest to [(-1)^neg * m * 10^e] (ties to even): the
    rounding of the mathematical value of a decimal literal. *)
Definition ofDecimal (neg : bool) (m : N) (e : Z) : number :=
  match m with
  | N0 => S754_zero neg
  | Npos p => let (p0, e0) := normalDecimal p e in roundDecimal neg p0 e0
  end.

(** A leading sign of a StrDecimalLiteral. *)
Definition sign (s : string) : bool * string :=
  match s with
  | String "-" r => (true, r)
  | String "+" r => (false, r)
  | _ => (false, s)
  end.

(** ExponentPart: [e] or [E], an optional sign, at least one digit;
    anything else is not part of the literal and counts as exponent 0. *)
Definition exponentPart (s : string) : Z :=
  match s with
  | String c r =>
      if Ascii.eqb c "e" || Ascii.eqb c "E" then
        let (neg, r1) := sign r in
        let (ds, _) := Str.spanDigits r1 in
        match ds with
        | EmptyString => 0%Z
        | _ => let v := Z.of_N (Str.digitsValue 0 ds) in
               if neg then (- v)%Z else v
        end
      else 0%Z
  | EmptyString => 0%Z
  end.

(** [parseFloat(string)]: leading white space is skipped, the longest
    prefix that is a StrDecimalLiteral is converted, NaN when there is
    none. *)
Definition parseFloat (input : string) : number :=
  let (neg, s1) := sign (Str.trimStart input) in
  if String.prefix "Infinity" s1 then S754_infinity neg
  else
    let (ip, s2) := Str.spanDigits s1 in
    let (fp, s3) :=
      match s2 with
      | String "." r => Str.spanDigits r
      | _ => (EmptyString, s2)
      end in
    match (ip ++ fp)%string with
    | EmptyString => NaN
    | ds => ofDecimal neg (Str.digitsValue 0 ds)
              (exponentPart s3 - Z.of_nat (String.length fp))
    end.

(** Exact decimal expansion of a positive finite value [m * 2^e]:
    the pair [(D, E)] with [m * 2^e = D * 10^E]. *)
Definition exactDecimal (m : positive) (e : Z) : N * Z :=
  match e with
  | Zneg k => (Npos (m * Pos.pow 5 k), e)
  | _ => ((Npos m * 2 ^ Z.to_N e)%N, 0%Z)
  end.

Definition sameNumber (x y : number) : bool :=
  match x, y with
  | S754_finite s m e, S754_finite s' m' e' =>
      Bool.eqb s s' && Pos.eqb m m' && Z.eqb e e'
  | S754_zero s, S754_zero s' => Bool.eqb s s'
  | S754_infinity s, S754_infinity s' => Bool.eqb s s'
  | S754_nan, S754_nan => true
  | _, _ => false
  end.

(** Number::toString, step 5: the least [k] for which some [k]-digit
    decimal [s * 10^q] rounds to [x], and among those the [s] closest to
    [x]. [D * 10^E] is the exact value of [x] and [len] its number of
    digits. The candidates with [k] digits are the two multiples of
    [10^(E + len - k)] around [x]. *)
Fixpoint shortestDigits (fuel : nat) (k : nat) (x : number)
         (D : N) (E : Z) (len : nat) : N * Z :=
  match fuel with
  | O => (D, E)
  | S fuel' =>
      if (len <=? k)%nat then (D, E)
      else
        let p := (10 ^ N.of_nat (len - k))%N in
        let q := (E + Z.of_nat (len - k))%Z in
        let lo := (D / p)%N in
        let hi := (lo + 1)%N in
        let okLo := sameNumber (ofDecimal false lo q) x in
        let okHi := sameNumber (ofDecimal false hi q) x in
        let dLo := (D - lo * p)%N in
        let dHi := (hi * p - D)%N in
        if okLo && okHi then
          if (dLo <? dHi)%N then (lo, q)
          else if (dHi <? dLo)%N then (hi, q)
          else if N.even lo then (lo, q) else (hi, q)
        else if okLo then (lo, q)
        else if okHi then (hi, q)
        else shortestDigits fuel' (S k) x D E len
  end.

Definition signedExponent (e : Z) : string :=
  ((if (e <? 0)%Z then "-" else "+") ++ Str.ofN (Z.abs_N e))%string.

(** Number::toString, steps 6 to 10, for the digits [ds] (no trailing
    zero, [k] of them) and the decimal point position [n]. *)
Definition layout (ds : string) (n : Z) : string :=
  let k := Z.of_nat (String.length ds) in
  if ((k <=? n) && (n <=? 21))%Z then
    (ds ++ Str.repeat0 (Z.to_nat (n - k)))%string
  else if ((0 <? n) && (n <=? 21))%Z then
    (String.substring 0 (Z.to_nat n) ds ++ "." ++
     String.substring (Z.to_nat n) (Z.to_nat (k - n)) ds)%string
  else if ((-6 <? n) && (n <=? 0))%Z then
    ("0." ++ Str.repeat0 (Z.to_nat (- n)) ++ ds)%string
  else
    match ds with
    | String d EmptyString => String d ("e" ++ signedExponent (n - 1))%string
    | String d r => String d ("." ++ r ++ "e" ++ signedExponent (n - 1))%string
    | EmptyString => EmptyString
    end.

Definition positiveToString (x : number) (m : positive) (e : Z) : string :=
  let (D, E) := exactDecimal m e in
  let len := String.length (Str.ofN D) in
  let (s, q) := shortestDigits 17 1 x D E len in
  let all := Str.ofN s in
  layout (Str.dropTrailingZeros all) (Z.of_nat (String.length all) + q).

(** Number::toString(x) in radix 10, what a template literal and
    [parseFloat] apply to a Number. *)
Definition toString (x : number) : string :=
  match x with
  | S754_nan => "NaN"
  | S754_zero _ => "0"
  | S754_infinity false => "Infinity"
  | S754_infinity true => "-Infinity"
  | S754_finite false m e => positiveToString x m e
  | S754_finite true m e =>
      ("-" ++ positiveToString (S754_finite false m e) m e)%string
  end.

(** [parseFloat] applied to a Number converts it to a string first. *)
Definition parseFloatNumber (x : number) : number := parseFloat (toString x).

(** The sum of a list of Numbers, added from left to right from 0. *)
Definition sum (xs : list number) : number := fold_left add xs zero.

(** [x < y] and [x === y] on Numbers. *)
Definition ltb : number -> number -> bool := SFltb.
Definition eqb : number -> number -> bool := SFeqb.

(** The values of [spec_float] that are Numbers: a finite one has the
    mantissa and the exponent of a binary64 value, normal or subnormal.
    ([spec_float] also has finite values that binary64 does not have.) *)
Definition isNumber (x : number) : bool := valid_binary prec emax x.

Definition finiteNumber (m : positive) (e : Z) : Prop :=
  bounded prec emax m e = true.

(** What [parseFloat] reads back from the decimal form of [x]: [x] itself,
    but for -0, whose decimal form is the one of 0. *)
Definition readBack (x : number) : number :=
  match x with S754_zero _ => zero | _ => x end.

(** A finite value whose exponent is not below the least one. *)
Definition aboveEmin (x : number) : Prop :=
  match x with
  | S754_finite _ _ e => (emin prec emax <= e)%Z
  | _ => True
  end.

(** What the running total of a sum that starts from 0 is: any value of
    that kind but -0. *)
Definition runningTotal (x : number) : Prop :=
  x <> S754_zero true /\ aboveEmin x.

(** What rounding makes of a value that is not zero. *)
Definition rounded (x : number) : Prop :=
  match x with
  | S754_zero _ => False
  | S754_finite _ _ e => (emin prec emax <= e)%Z
  | _ => True
  end.

(** A mantissa and an exponent that [binary_round_aux] can round: the
    exponent is not above the one of the format for that many digits. *)
Definition enoughBits (m e : Z) : Prop :=
  (0 <= m)%Z /\ (e <= fexp prec emax (Zdigits2 m + e))%Z.

(** A mantissa with the exponent of the format for its digits; for the
    mantissa 0 that is the least exponent. *)
Definition canonicalOrZero (m e : Z) : Prop :=
  (0 <= m)%Z /\ fexp prec emax (Zdigits2 m + e) = e.

(** A text at which a run of digits stops. *)
Definition stops (rest : string) : Prop :=
  match rest with
  | EmptyString => True
  | String c _ => Str.isDigit c = false
  end.

(** The text of a decimal literal: an optional minus sign, the digits
    [ip], a dot and the digits [fp] when [dot] holds, an exponent part. *)
Definition literal (neg : bool) (ip : string) (dot : bool) (fp expo : string)
  : string :=
  ((if neg then "-" else "") ++ ip
   ++ (if dot then "." ++ fp else "") ++ expo)%string.

End Num.

(** ** Records *)

Module Asset.
Record t := {
  id : string;
  name : string;
  category : string;
  purchaseDate : string;
  purchasePrice : Num.number;
  currentValue : Num.number;
  associatedDebtId : option string;   (* [None] is null *)
  notes : string;
  createdAt : string;
  updatedAt : string
}.
End Asset.

Module Liability.
Record t := {
  id : string;
  name : string;
  category : string;
  originalAmount : Num.number;
  currentBalance : Num.number;
  interestRate : Num.number;
  startDate : string;
  associatedAssetId : option string;  (* [None] is null *)
  notes : string;
  createdAt : string;
  updatedAt : string
}.
End Liability.

Module Snapshot.
Record t := {
  id : string;
  date : string;
  totalAssets : Num.number;
  totalLiabilities : Num.number;
  netWorth : Num.number;
  notes : string
}.
End Snapshot.

(** The values of the inputs of the asset form and of the liability form,
    named after their element ids. *)
Record AssetForm := {
  asset_name : string;
  asset_category : string;
  asset_purchase_date : string;
  asset_purchase_price : string;
  asset_current_value : string;
  asset_associated_debt : string;
  asset_notes : string
}.

Record LiabilityForm := {
  liability_name : string;
  liability_category : string;
  liability_original_amount : string;
  liability_current_balance : string;
  liability_interest_rate : string;
  liability_start_date : string;
  liability_associated_asset : string;
  liability_notes : string
}.

(** ** Program state *)

(** The module-level variables of app.js, and [queries]: how many times the
    program has asked the environment for an id or for the time. *)
Record State := {
  assets : list Asset.t;
  liabilities : list Liability.t;
  snapshots : list Snapshot.t;
  editingAssetId : option string;
  editingLiabilityId : option string;
  queries : nat
}.

Definition initialState : State :=
  {| assets := []; liabilities := []; snapshots := [];
     editingAssetId := None; editingLiabilityId := None; queries := 0 |}.

Definition set_assets (v : list Asset.t) (st : State) : State :=
  {| assets := v; liabilities := liabilities st; snapshots := snapshots st;
     editingAssetId := editingAssetId st;
     editingLiabilityId := editingLiabilityId st; queries := queries st |}.

Definition set_liabilities (v : list Liability.t) (st : State) : State :=
  {| assets := assets st; liabilities := v; snapshots := snapshots st;
     editingAssetId := editingAssetId st;
     editingLiabilityId := editingLiabilityId st; queries := queries st |}.

Definition set_snapshots (v : list Snapshot.t) (st : State) : State :=
  {| assets := assets st; liabilities := liabilities st; snapshots := v;
     editingAssetId := editingAssetId st;
     editingLiabilityId := editingLiabilityId st; queries := queries st |}.

Definition set_editingAssetId (v : option string) (st : State) : State :=
  {| assets := assets st; liabilities := liabilities st;
     snapshots := snapshots st; editingAssetId := v;
     editingLiabilityId := editingLiabilityId st; queries := queries st |}.

Definition set_editingLiabilityId (v : option string) (st : State) : State :=
  {| assets := assets st; liabilities := liabilities st;
     snapshots := snapshots st; editingAssetId := editingAssetId st;
     editingLiabilityId := v; queries := queries st |}.

Definition set_queries (v : nat) (st : State) : State :=
  {| assets := assets st; liabilities := liabilities st;
     snapshots := snapshots st; editingAssetId := editingAssetId st;
     editingLiabilityId := editingLiabilityId st; queries := v |}.

(** ** Handlers: state, and abrupt completion *)

Inductive JSError := TypeError | ReferenceError.

Inductive completion (A : Type) :=
| Normal (a : A)
| Throw (e : JSError).
Arguments Normal {A} a.
Arguments Throw {A} e.

(** A handler transforms the state and completes normally with a value or
    abruptly with an error; what it did to the state before throwing stays
    done. *)
Definition M (A : Type) : Type := State -> State * completion A.

Definition ret {A} (a : A) : M A := fun st => (st, Normal a).

Definition bind {A B} (m : M A) (k : A -> M B) : M B :=
  fun st =>
    match m st with
    | (st', Normal a) => k a st'
    | (st', Throw e) => (st', Throw e)
    end.

Definition throw {A} (e : JSError) : M A := fun st => (st, Throw e).
Definition gets {A} (f : State -> A) : M A := fun st => (st, Normal (f st)).
Definition modify (f : State -> State) : M unit := fun st => (f st, Normal tt).

Notation "x <- m ;; k" := (bind m (fun x => k))
  (at level 61, m at next level, right associativity).
Notation "m ;;; k" := (bind m (fun _ => k))
  (at level 61, right associativity).

Definition stateOf {A} (r : State * completion A) : State := fst r.
Definition outcomeOf {A} (r : State * completion A) : completion A := snd r.

(** ** Arrays *)

(** [arr.findIndex(p)]; [None] stands for -1. *)
Fixpoint findIndex {A} (p : A -> bool) (arr : list A) : option nat :=
  match arr with
  | [] => None
  | x :: r => if p x then Some 0
              else match findIndex p r with
                   | Some i => Some (S i)
                   | None => None
                   end
  end.

(** [arr[index] = v] for an index inside the array, the only ones that
    the program assigns to: [index] comes from [findIndex] on [arr]. *)
Fixpoint assign {A} (arr : list A) (index : nat) (v : A) : list A :=
  match arr, index with
  | [], _ => []
  | _ :: r, O => v :: r
  | x :: r, S i => x :: assign r i v
  end.

(** [arr.push(v)]. *)
Definition push {A} (arr : list A) (v : A) : list A := arr ++ [v].

(** Truthiness of a value that is a string or null. *)
Definition truthyId (o : option string) : bool :=
  match o with Some s => Str.truthy s | None => false end.

(** [x === o] for a string [x] and a value [o] that is a string or null. *)
Definition strictEq (x : string) (o : option string) : bool :=
  match o with Some s => String.eqb x s | None => false end.

(** [value || null]. *)
Definition orNull (value : string) : option string :=
  if Str.truthy value then Some value else None.

(** ** Calculations *)

Definition calculateTotalAssets (st : State) : Num.number :=
  fold_left
    (fun total asset =>
       Num.add total (Num.parseFloatNumber (Asset.currentValue asset)))
    (assets st) Num.zero.

Definition calculateTotalLiabilities (st : State) : Num.number :=
  fold_left
    (fun total liability =>
       Num.add total (Num.parseFloatNumber (Liability.currentBalance liability)))
    (liabilities st) Num.zero.

Definition calculateNetWorth (st : State) : Num.number :=
  Num.sub (calculateTotalAssets st) (calculateTotalLiabilities st).

Definition calculateAssetEquity (st : State) (asset : Asset.t) : Num.number :=
  if negb (truthyId (Asset.associatedDebtId asset)) then Asset.currentValue asset
  else
    match find (fun l => strictEq (Liability.id l) (Asset.associatedDebtId asset))
               (liabilities st) with
    | None => Asset.currentValue asset
    | Some debt =>
        Num.sub (Asset.currentValue asset) (Liability.currentBalance debt)
    end.

Definition calculatePayoffPercentage (liability : Liability.t) : Num.number :=
  let paid := Num.sub (Liability.originalAmount liability)
                      (Liability.currentBalance liability) in
  Num.mul (Num.div paid (Liability.originalAmount liability)) (Num.ofZ 100).

(** ** Calls of global functions *)

(** The functions that app.js declares. *)
Definition declaredFunctions : list string :=
  [ "loadData"; "saveData"; "initializeEventListeners"; "switchTab";
    "calculateTotalAssets"; "calculateTotalLiabilities"; "calculateNetWorth";
    "calculateAssetEquity"; "calculateRealEstateEquity";
    "calculateVehicleEquity"; "calculatePayoffPercentage";
    "updateAllDisplays"; "updateOverview"; "updateBreakdown";
    "displaySnapshots"; "displayAssets"; "displayLiabilities"; "updateStats";
    "formatCurrency"; "formatDate"; "generateId"; "openAssetModal";
    "openLiabilityModal"; "closeAllModals"; "updateAssetDebtOptions";
    "updateLiabilityAssetOptions"; "handleAssetSubmit";
    "handleLiabilitySubmit"; "editAsset"; "deleteAsset"; "editLiability";
    "deleteLiability"; "takeSnapshot"; "exportTemplate"; "exportData";
    "downloadCSV"; "processImport"; "parseCSV"; "parseCSVLine";
    "deleteAllData" ].

(** A call [f()] of a function that only writes to a collaborator (the
    page, localStorage): nothing happens to the state when [f] is declared,
    and the reference to an undeclared [f] throws a ReferenceError. *)
Definition callCollaborator (f : string) : M unit :=
  if existsb (String.eqb f) declaredFunctions then ret tt
  else throw ReferenceError.

Definition saveData : M unit := callCollaborator "saveData".
Definition updateDashboard : M unit := callCollaborator "updateDashboard".

(** *** The displays *)

(** The names that an object literal inherits: reading one of them on the
    empty object gives a function or an object, which is truthy. *)
Definition inheritedNames : list string :=
  [ "constructor"; "__proto__"; "hasOwnProperty"; "isPrototypeOf";
    "propertyIsEnumerable"; "toLocaleString"; "toString"; "valueOf";
    "__defineGetter__"; "__defineSetter__"; "__lookupGetter__";
    "__lookupSetter__" ].

Definition inherited (name : string) : bool :=
  existsb (String.eqb name) inheritedNames.

(** The forEach of [displayAssets] and of [displayLiabilities] over the
    categories of the records:
    [if (!grouped[c]) grouped[c] = []; grouped[c].push(record)]
    on the object literal [grouped]. Under an inherited name [grouped[c]]
    is a function or an object, which is truthy and has no [push]: the
    call throws a TypeError. Under any other name the record joins the
    array of its category. *)
Definition groupByCategory (categories : list string) : M unit :=
  if existsb inherited categories then throw TypeError else ret tt.

(** [displayAssets]: the early return for the empty array, the grouping,
    and the writing of the page, which is not modelled. *)
Definition displayAssets : M unit :=
  arr <- gets assets ;;
  match arr with
  | [] => ret tt
  | _ => groupByCategory (map Asset.category arr)
  end.

Definition displayLiabilities : M unit :=
  arr <- gets liabilities ;;
  match arr with
  | [] => ret tt
  | _ => groupByCategory (map Liability.category arr)
  end.

(** [updateOverview], [updateBreakdown] and [updateStats] only write the
    page. ([updateBreakdown] updates an inherited value where
    [displayAssets] calls its [push]: it does not throw.) *)
Definition updateOverview : M unit := callCollaborator "updateOverview".
Definition updateBreakdown : M unit := callCollaborator "updateBreakdown".
Definition updateStats : M unit := callCollaborator "updateStats".

Definition updateAllDisplays : M unit :=
  updateOverview ;;;
  updateBreakdown ;;;
  displayAssets ;;;
  displayLiabilities ;;;
  updateStats.

Definition closeAllModals : M unit :=
  modify (fun st => set_editingLiabilityId None (set_editingAssetId None st)).

Definition openAssetModal (assetId : option string) : M unit :=
  modify (set_editingAssetId assetId).

Definition openLiabilityModal (liabilityId : option string) : M unit :=
  modify (set_editingLiabilityId liabilityId).

Definition editAsset (id : string) : M unit := openAssetModal (Some id).
Definition editLiability (id : string) : M unit := openLiabilityModal (Some id).

(** ** The CSV tokenizer *)

Definition quote : ascii := "034"%char.
Definition comma : ascii := ","%char.
Definition newline : ascii := "010"%char.

(** The loop of [parseCSVLine] over the characters that remain. *)
Fixpoint parseCSVLine_loop (line : string) (result : list string)
         (current : string) (inQuotes : bool) : list string :=
  match line with
  | EmptyString => push result (Str.trim current)
  | String char rest =>
      if Ascii.eqb char quote then
        parseCSVLine_loop rest result current (negb inQuotes)
      else if Ascii.eqb char comma && negb inQuotes then
        parseCSVLine_loop rest (push result (Str.trim current)) EmptyString inQuotes
      else
        parseCSVLine_loop rest result (current ++ String char EmptyString)%string
                          inQuotes
  end.

Definition parseCSVLine (line : string) : list string :=
  parseCSVLine_loop line [] EmptyString false.

(** [fields[i]], read only where [fields.length >= 11] has been checked. *)
Definition field (fields : list string) (i : nat) : string :=
  nth i fields EmptyString.

Section Program.

(** The environment: the string that [generateId()] returns, and the
    string that [new Date().toISOString()] returns, when they are the
    [n]-th query of the program. [generateId] concatenates the clock and
    a random number in base 36: nothing else of the program enters. *)
Variable idAt : nat -> string.
Variable isoAt : nat -> string.

Definition generateId : M string :=
  fun st => (set_queries (S (queries st)) st, Normal (idAt (queries st))).

Definition newDateISO : M string :=
  fun st => (set_queries (S (queries st)) st, Normal (isoAt (queries st))).

(** *** Form submissions *)

(** The object literal of [handleAssetSubmit], once its [id], [createdAt]
    and [updatedAt] are evaluated. *)
Definition assetData (form : AssetForm) (id createdAt updatedAt : string)
  : Asset.t :=
  {| Asset.id := id;
     Asset.name := asset_name form;
     Asset.category := asset_category form;
     Asset.purchaseDate := asset_purchase_date form;
     Asset.purchasePrice := Num.parseFloat (asset_purchase_price form);
     Asset.currentValue := Num.parseFloat (asset_current_value form);
     Asset.associatedDebtId := orNull (asset_associated_debt form);
     Asset.notes := asset_notes form;
     Asset.createdAt := createdAt;
     Asset.updatedAt := updatedAt |}.

(** The object literal of [handleLiabilitySubmit]. *)
Definition liabilityData (form : LiabilityForm)
           (id createdAt updatedAt : string) : Liability.t :=
  {| Liability.id := id;
     Liability.name := liability_name form;
     Liability.category := liability_category form;
     Liability.originalAmount :=
       Num.parseFloat (liability_original_amount form);
     Liability.currentBalance :=
       Num.parseFloat (liability_current_balance form);
     Liability.interestRate :=
       Num.orElse (Num.parseFloat (liability_interest_rate form)) Num.zero;
     Liability.startDate := liability_start_date form;
     Liability.associatedAssetId := orNull (liability_associated_asset form);
     Liability.notes := liability_notes form;
     Liability.createdAt := createdAt;
     Liability.updatedAt := updatedAt |}.

(** [handleAssetSubmit]. Reading [createdAt] of what [find] returns throws
    a TypeError when [find] returns undefined. Where [findIndex] returns
    -1 the assignment [assets[-1] = assetData] sets a property of the
    array and none of its elements. *)
Definition handleAssetSubmit (form : AssetForm) : M unit :=
  editing <- gets editingAssetId ;;
  id <- (match editing with
         | Some e => if Str.truthy e then ret e else generateId
         | None => generateId
         end) ;;
  createdAt <-
    (if truthyId editing then
       arr <- gets assets ;;
       match find (fun a => strictEq (Asset.id a) editing) arr with
       | Some a => ret (Asset.createdAt a)
       | None => throw TypeError
       end
     else newDateISO) ;;
  updatedAt <- newDateISO ;;
  let assetData := assetData form id createdAt updatedAt in
  (if truthyId editing then
     arr <- gets assets ;;
     match findIndex (fun a => strictEq (Asset.id a) editing) arr with
     | Some index => modify (set_assets (assign arr index assetData))
     | None => ret tt
     end
   else
     modify (fun st => set_assets (push (assets st) assetData) st)) ;;;
  saveData ;;;
  updateAllDisplays ;;;
  closeAllModals.

Definition handleLiabilitySubmit (form : LiabilityForm) : M unit :=
  editing <- gets editingLiabilityId ;;
  id <- (match editing with
         | Some e => if Str.truthy e then ret e else generateId
         | None => generateId
         end) ;;
  createdAt <-
    (if truthyId editing then
       arr <- gets liabilities ;;
       match find (fun l => strictEq (Liability.id l) editing) arr with
       | Some l => ret (Liability.createdAt l)
       | None => throw TypeError
       end
     else newDateISO) ;;
  updatedAt <- newDateISO ;;
  let liabilityData := liabilityData form id createdAt updatedAt in
  (if truthyId editing then
     arr <- gets liabilities ;;
     match findIndex (fun l => strictEq (Liability.id l) editing) arr with
     | Some index => modify (set_liabilities (assign arr index liabilityData))
     | None => ret tt
     end
   else
     modify (fun st => set_liabilities (push (liabilities st) liabilityData) st)) ;;;
  saveData ;;;
  updateAllDisplays ;;;
  closeAllModals.

(** *** Deletions; [confirmed] is the answer of [confirm] *)

Definition deleteAsset (id : string) (confirmed : bool) : M unit :=
  if confirmed then
    modify (fun st =>
      set_assets (filter (fun a => negb (String.eqb (Asset.id a) id)) (assets st)) st) ;;;
    saveData ;;;
    updateAllDisplays
  else ret tt.

Definition deleteLiability (id : string) (confirmed : bool) : M unit :=
  if confirmed then
    modify (fun st =>
      set_liabilities
        (filter (fun l => negb (String.eqb (Liability.id l) id)) (liabilities st)) st) ;;;
    saveData ;;;
    updateAllDisplays
  else ret tt.

Definition deleteAllData (confirmed reallySure : bool) : M unit :=
  if confirmed then
    if reallySure then
      modify (fun st => set_snapshots [] (set_liabilities [] (set_assets [] st))) ;;;
      saveData ;;;
      updateAllDisplays
    else ret tt
  else ret tt.

(** *** Snapshots; [answer] is what [prompt] returns, [None] for null *)

Definition takeSnapshot (answer : option string) : M unit :=
  let notes := answer in
  id <- generateId ;;
  date <- newDateISO ;;
  totalAssets <- gets calculateTotalAssets ;;
  totalLiabilities <- gets calculateTotalLiabilities ;;
  netWorth <- gets calculateNetWorth ;;
  let snapshot :=
    {| Snapshot.id := id;
       Snapshot.date := date;
       Snapshot.totalAssets := totalAssets;
       Snapshot.totalLiabilities := totalLiabilities;
       Snapshot.netWorth := netWorth;
       Snapshot.notes := match notes with
                         | Some n => Str.orElse n EmptyString
                         | None => EmptyString
                         end |} in
  modify (fun st => set_snapshots (push (snapshots st) snapshot) st) ;;;
  saveData ;;;
  updateDashboard ;;;
  ret tt.

(** *** CSV export *)

Definition header : string :=
  "Type,Name,Category,Purchase Date,Purchase Price,Current Value,Original Amount,Current Balance,Interest Rate,Start Date,Notes".

Definition dq : string := String quote EmptyString.
Definition nl : string := String newline EmptyString.

(** The template literal of line 714. *)
Definition assetRow (asset : Asset.t) : string :=
  ("Asset," ++ dq ++ Asset.name asset ++ dq ++ ","
    ++ Asset.category asset ++ ","
    ++ Asset.purchaseDate asset ++ ","
    ++ Num.toString (Asset.purchasePrice asset) ++ ","
    ++ Num.toString (Asset.currentValue asset) ++ ",,,,,"
    ++ dq ++ Str.orElse (Asset.notes asset) EmptyString ++ dq ++ nl)%string.

(** The template literal of line 719. Its last placeholder is written
    with one quote character where line 714 has the empty string literal,
    which no JavaScript parser accepts; it is read here as line 714 has
    it. The number of commas is the one of line 719. *)
Definition liabilityRow (liability : Liability.t) : string :=
  ("Liability," ++ dq ++ Liability.name liability ++ dq ++ ","
    ++ Liability.category liability ++ ",,,"
    ++ Num.toString (Liability.originalAmount liability) ++ ","
    ++ Num.toString (Liability.currentBalance liability) ++ ","
    ++ Num.toString (Liability.interestRate liability) ++ ","
    ++ Liability.startDate liability ++ ","
    ++ dq ++ Str.orElse (Liability.notes liability) EmptyString ++ dq ++ nl)%string.

(** The text that [exportData] hands to [downloadCSV]. *)
Definition exportData (st : State) : string :=
  let csv := (header ++ nl)%string in
  let csv := fold_left (fun csv asset => (csv ++ assetRow asset)%string)
                       (assets st) csv in
  fold_left (fun csv liability => (csv ++ liabilityRow liability)%string)
            (liabilities st) csv.

(** *** CSV import *)

(** The two object literals of [parseCSV], once [generateId()] and the two
    dates are evaluated. *)
Definition importedAsset (fields : list string)
           (id createdAt updatedAt : string) : Asset.t :=
  {| Asset.id := id;
     Asset.name := field fields 1;
     Asset.category := field fields 2;
     Asset.purchaseDate := field fields 3;
     Asset.purchasePrice := Num.parseFloat (field fields 4);
     Asset.currentValue := Num.parseFloat (field fields 5);
     Asset.associatedDebtId := None;
     Asset.notes := Str.orElse (field fields 10) EmptyString;
     Asset.createdAt := createdAt;
     Asset.updatedAt := updatedAt |}.

Definition importedLiability (fields : list string)
           (id createdAt updatedAt : string) : Liability.t :=
  {| Liability.id := id;
     Liability.name := field fields 1;
     Liability.category := field fields 2;
     Liability.originalAmount := Num.parseFloat (field fields 6);
     Liability.currentBalance := Num.parseFloat (field fields 7);
     Liability.interestRate :=
       Num.orElse (Num.parseFloat (field fields 8)) Num.zero;
     Liability.startDate := field fields 9;
     Liability.associatedAssetId := None;
     Liability.notes := Str.orElse (field fields 10) EmptyString;
     Liability.createdAt := createdAt;
     Liability.updatedAt := updatedAt |}.

(** The body of the loop of [parseCSV] for the lines from index [i] on;
    [assetsAdded] and [liabilitiesAdded] are the two counters. *)
Fixpoint parseCSV_loop (lines : list string)
         (assetsAdded liabilitiesAdded : nat) : M (nat * nat) :=
  match lines with
  | [] => ret (assetsAdded, liabilitiesAdded)
  | line :: rest =>
      let fields := parseCSVLine line in
      if (List.length fields <? 11)%nat then
        parseCSV_loop rest assetsAdded liabilitiesAdded
      else
        let type := Str.trim (field fields 0) in
        if String.eqb type "Asset" then
          id <- generateId ;;
          createdAt <- newDateISO ;;
          updatedAt <- newDateISO ;;
          let asset := importedAsset fields id createdAt updatedAt in
          if Str.truthy (Asset.name asset)
             && Str.truthy (Asset.category asset)
             && Str.truthy (Asset.purchaseDate asset)
             && negb (Num.isNaN (Asset.purchasePrice asset))
             && negb (Num.isNaN (Asset.currentValue asset))
          then
            modify (fun st => set_assets (push (assets st) asset) st) ;;;
            parseCSV_loop rest (S assetsAdded) liabilitiesAdded
          else parseCSV_loop rest assetsAdded liabilitiesAdded
        else if String.eqb type "Liability" then
          id <- generateId ;;
          createdAt <- newDateISO ;;
          updatedAt <- newDateISO ;;
          let liability := importedLiability fields id createdAt updatedAt in
          if Str.truthy (Liability.name liability)
             && Str.truthy (Liability.category liability)
             && negb (Num.isNaN (Liability.originalAmount liability))
             && negb (Num.isNaN (Liability.currentBalance liability))
             && Str.truthy (Liability.startDate liability)
          then
            modify (fun st => set_liabilities (push (liabilities st) liability) st) ;;;
            parseCSV_loop rest assetsAdded (S liabilitiesAdded)
          else parseCSV_loop rest assetsAdded liabilitiesAdded
        else parseCSV_loop rest assetsAdded liabilitiesAdded
  end.

(** The lines that [parseCSV] keeps: those that are not blank. *)
Definition csvLines (csvText : string) : list string :=
  filter (fun line => Str.truthy (Str.trim line)) (Str.split newline csvText).

(** [parseCSV]: the loop starts at index 1, after the header row. *)
Definition parseCSV (csvText : string) : M (nat * nat) :=
  parseCSV_loop (tl (csvLines csvText)) 0 0.

(** [reader.onload] of [processImport]: an error of the import is caught
    and shown. *)
Definition processImport (csv : string) : M unit :=
  fun st =>
    match (result <- parseCSV csv ;; saveData ;;; updateAllDisplays) st with
    | (st', _) => (st', Normal tt)
    end.

(** *** The user's actions *)

(** What the user does once the page is loaded; [CloseAllModals] is also
    what the timer of [processImport] does two seconds after an import. *)
Inductive Action :=
| SubmitAsset (form : AssetForm)
| SubmitLiability (form : LiabilityForm)
| OpenAssetModal (assetId : option string)
| OpenLiabilityModal (liabilityId : option string)
| CloseAllModals
| DeleteAsset (id : string) (confirmed : bool)
| DeleteLiability (id : string) (confirmed : bool)
| TakeSnapshot (answer : option string)
| ExportData
| ExportTemplate
| ProcessImport (csv : string)
| DeleteAllData (confirmed reallySure : bool).

Definition perform (a : Action) : M unit :=
  match a with
  | SubmitAsset form => handleAssetSubmit form
  | SubmitLiability form => handleLiabilitySubmit form
  | OpenAssetModal assetId => openAssetModal assetId
  | OpenLiabilityModal liabilityId => openLiabilityModal liabilityId
  | CloseAllModals => closeAllModals
  | DeleteAsset id confirmed => deleteAsset id confirmed
  | DeleteLiability id confirmed => deleteLiability id confirmed
  | TakeSnapshot answer => takeSnapshot answer
  | ExportData => callCollaborator "exportData"
  | ExportTemplate => callCollaborator "exportTemplate"
  | ProcessImport csv => processImport csv
  | DeleteAllData confirmed reallySure => deleteAllData confirmed reallySure
  end.

(** The state after a sequence of actions; an error that a handler does
    not catch ends that handler only. *)
Definition run (actions : list Action) (st : State) : State :=
  fold_left (fun st a => stateOf (perform a st)) actions st.

Definition deletesAll (a : Action) : bool :=
  match a with
  | DeleteAllData true true => true
  | _ => false
  end.

End Program.

(** A category of a stored record is an inherited name: the condition
    under which [updateAllDisplays] throws. *)
Definition displaysThrow (st : State) : bool :=
  existsb inherited (map Asset.category (assets st))
  || existsb inherited (map Liability.category (liabilities st)).

(** The state after the write of a submission: the arrays as the handler
    has left them, [q] queries made, and the record being edited still
    selected. *)
Definition stored (newAssets : list Asset.t)
           (newLiabilities : list Liability.t) (q : nat) (st : State) : State :=
  {| assets := newAssets; liabilities := newLiabilities;
     snapshots := snapshots st; editingAssetId := editingAssetId st;
     editingLiabilityId := editingLiabilityId st; queries := q |}.

(** How a submission ends from the state [st'] after its write: with the
    TypeError of the displays, [st'] being left as it is, or normally once
    [closeAllModals] has reset the two editing ids. *)
Definition refreshed (st' : State) : State * completion unit :=
  if displaysThrow st' then (st', Throw TypeError)
  else (set_editingLiabilityId None (set_editingAssetId None st'), Normal tt).

(** The record [a] holds the values of the asset form: the texts as they
    are, the two prices as [parseFloat] reads them, the link or null. *)
Definition carriesAssetForm (form : AssetForm) (a : Asset.t) : Prop :=
  Asset.name a = asset_name form
  /\ Asset.category a = asset_category form
  /\ Asset.purchaseDate a = asset_purchase_date form
  /\ Asset.purchasePrice a = Num.parseFloat (asset_purchase_price form)
  /\ Asset.currentValue a = Num.parseFloat (asset_current_value form)
  /\ Asset.associatedDebtId a = orNull (asset_associated_debt form)
  /\ Asset.notes a = asset_notes form.

(** The record [l] holds the values of the liability form; an interest
    rate that is not a number, or 0, is stored as 0. *)
Definition carriesLiabilityForm (form : LiabilityForm) (l : Liability.t)
  : Prop :=
  Liability.name l = liability_name form
  /\ Liability.category l = liability_category form
  /\ Liability.originalAmount l
     = Num.parseFloat (liability_original_amount form)
  /\ Liability.currentBalance l
     = Num.parseFloat (liability_current_balance form)
  /\ Liability.interestRate l
     = Num.orElse (Num.parseFloat (liability_interest_rate form)) Num.zero
  /\ Liability.startDate l = liability_start_date form
  /\ Liability.associatedAssetId l = orNull (liability_associated_asset form)
  /\ Liability.notes l = liability_notes form.

(** The rows of a CSV text: the tokenized lines after the header row. *)
Definition dataRows (csvText : string) : list (list string) :=
  map parseCSVLine (tl (csvLines csvText)).

(** The rows that the import turns into an asset: at least 11 fields, the
    type Asset, a name, a category and a purchase date that are not empty,
    a purchase price and a current value that [parseFloat] does not map to
    NaN. *)
Definition acceptedAsset (fields : list string) : bool :=
  (11 <=? List.length fields)%nat
  && String.eqb (Str.trim (field fields 0)) "Asset"
  && (Str.truthy (field fields 1)
      && Str.truthy (field fields 2)
      && Str.truthy (field fields 3)
      && negb (Num.isNaN (Num.parseFloat (field fields 4)))
      && negb (Num.isNaN (Num.parseFloat (field fields 5)))).

(** The rows that the import turns into a liability: at least 11 fields,
    the type Liability, a name, a category and a start date that are not
    empty, an original amount and a current balance that [parseFloat] does
    not map to NaN. *)
Definition acceptedLiability (fields : list string) : bool :=
  (11 <=? List.length fields)%nat
  && String.eqb (Str.trim (field fields 0)) "Liability"
  && (Str.truthy (field fields 1)
      && Str.truthy (field fields 2)
      && negb (Num.isNaN (Num.parseFloat (field fields 6)))
      && negb (Num.isNaN (Num.parseFloat (field fields 7)))
      && Str.truthy (field fields 9)).

(** The state after an import that has added [newAssets] and
    [newLiabilities] and has made [q] queries. *)
Definition imported (newAssets : list Asset.t)
           (newLiabilities : list Liability.t) (q : nat) (st : State) : State :=
  {| assets := assets st ++ newAssets;
     liabilities := liabilities st ++ newLiabilities;
     snapshots := snapshots st;
     editingAssetId := editingAssetId st;
     editingLiabilityId := editingLiabilityId st;
     queries := q |}.

(** [records] are the records made of [rows], one for one and in order,
    each with an id and two dates that the environment gave in a row. *)
Definition madeOf {R} (idAt isoAt : nat -> string)
           (make : list string -> string -> string -> string -> R)
           (records : list R) (rows : list (list string)) : Prop :=
  Forall2 (fun record row =>
             exists k,
               record = make row (idAt k) (isoAt (S k)) (isoAt (S (S k))))
          records rows.

(** *** What the CSV format can carry *)

Fixpoint allChars (p : ascii -> bool) (s : string) : bool :=
  match s with
  | EmptyString => true
  | String c r => p c && allChars p r
  end.

(** A text that can stand between two quotes of a row: no quote and no
    line break in it. *)
Definition quotable (s : string) : bool :=
  negb (Str.contains quote s) && negb (Str.contains newline s).

(** A text that can stand bare in a row: no comma either. *)
Definition plainText (s : string) : bool :=
  quotable s && negb (Str.contains comma s).

(** A text without white space at its ends. *)
Definition trimmedText (s : string) : bool := String.eqb (Str.trim s) s.

(** A Number that the import accepts: any but NaN. *)
Definition exportableNumber (x : Num.number) : bool := negb (Num.isNaN x).

(** An asset whose row carries it: the name, the category and the purchase
    date are not empty and have no white space at their ends, no quote and
    no line break, the category and the date no comma; the two prices are
    not NaN; the notes have no line break. *)
Definition exportableAsset (a : Asset.t) : bool :=
  Str.truthy (Asset.name a) && quotable (Asset.name a)
  && trimmedText (Asset.name a)
  && Str.truthy (Asset.category a) && plainText (Asset.category a)
  && trimmedText (Asset.category a)
  && Str.truthy (Asset.purchaseDate a) && plainText (Asset.purchaseDate a)
  && trimmedText (Asset.purchaseDate a)
  && exportableNumber (Asset.purchasePrice a)
  && exportableNumber (Asset.currentValue a)
  && negb (Str.contains newline (Asset.notes a)).

(** A liability whose row is one line: no line break in its texts. *)
Definition oneLineLiability (l : Liability.t) : bool :=
  negb (Str.contains newline (Liability.name l))
  && negb (Str.contains newline (Liability.category l))
  && negb (Str.contains newline (Liability.startDate l))
  && negb (Str.contains newline (Liability.notes l)).

(** The rows of [exportData] without the line break that ends them. *)
Definition assetLine (asset : Asset.t) : string :=
  ("Asset," ++ dq ++ Asset.name asset ++ dq ++ ","
    ++ Asset.category asset ++ ","
    ++ Asset.purchaseDate asset ++ ","
    ++ Num.toString (Asset.purchasePrice asset) ++ ","
    ++ Num.toString (Asset.currentValue asset) ++ ",,,,,"
    ++ dq ++ Str.orElse (Asset.notes asset) EmptyString ++ dq)%string.

Definition liabilityLine (liability : Liability.t) : string :=
  ("Liability," ++ dq ++ Liability.name liability ++ dq ++ ","
    ++ Liability.category liability ++ ",,,"
    ++ Num.toString (Liability.originalAmount liability) ++ ","
    ++ Num.toString (Liability.currentBalance liability) ++ ","
    ++ Num.toString (Liability.interestRate liability) ++ ","
    ++ Liability.startDate liability ++ ","
    ++ dq ++ Str.orElse (Liability.notes liability) EmptyString ++ dq)%string.

(** The text made of [lines], each followed by a line break. *)
Definition unlines (lines : list string) : string :=
  fold_right (fun line rest => (line ++ nl ++ rest)%string) EmptyString lines.

(** The characters of what [Num.toString] returns. *)
Definition numberChar (c : ascii) : bool :=
  Str.isDigit c || Str.contains c ".e+-NaInfity".

(** ** The rest of the calculations and of the displays *)

(** [Math.abs], [x >= y] and [x !== y] on Numbers. *)
Definition Math_abs : Num.number -> Num.number := SFabs.
Definition geb (x y : Num.number) : bool := SFleb y x.
Definition strictNe (x y : Num.number) : bool := negb (Num.eqb x y).

(** The equity of the assets of one category: the filter and the reduce
    of [calculateRealEstateEquity] and of [calculateVehicleEquity]. *)
Definition categoryEquity (category : string) (st : State) : Num.number :=
  fold_left
    (fun total asset => Num.add total (calculateAssetEquity st asset))
    (filter (fun a => String.eqb (Asset.category a) category) (assets st))
    Num.zero.

Definition calculateRealEstateEquity (st : State) : Num.number :=
  categoryEquity "Real Estate" st.

Definition calculateVehicleEquity (st : State) : Num.number :=
  categoryEquity "Vehicle" st.

(** [arr[arr.length - 1]] where [arr.length > 0] has been checked. *)
Fixpoint lastOf {A} (arr : list A) : option A :=
  match arr with
  | [] => None
  | [x] => Some x
  | _ :: r => lastOf r
  end.

(** What [updateOverview] writes into the net-worth-change element: no
    text, or an arrow (up when [change >= 0]), the absolute change and the
    percentage; the two numbers are the arguments of [formatCurrency] and
    of [toFixed]. *)
Inductive ChangeLine :=
| NoChangeLine
| ChangeText (up : bool) (amount percentage : Num.number).

Definition updateOverview_change (st : State) : ChangeLine :=
  let netWorth := calculateNetWorth st in
  match lastOf (snapshots st) with
  | None => NoChangeLine
  | Some lastSnapshot =>
      let change := Num.sub netWorth (Snapshot.netWorth lastSnapshot) in
      let percentage :=
        if strictNe (Snapshot.netWorth lastSnapshot) Num.zero then
          Num.mul (Num.div change (Math_abs (Snapshot.netWorth lastSnapshot)))
                  (Num.ofZ 100)
        else Num.zero in
      if strictNe change Num.zero then
        ChangeText (geb change Num.zero) (Math_abs change) percentage
      else NoChangeLine
  end.

(** The snapshots that [displaySnapshots] renders, in the order of the
    page: [snapshots.slice(-5).reverse()], nothing for the empty history. *)
Definition displaySnapshots (st : State) : list Snapshot.t :=
  rev (skipn (List.length (snapshots st) - 5) (snapshots st)).

(** The condition under which [displayLiabilities] writes the paid-off
    line of a liability: [payoffPercent > 0]. *)
Definition payoffShown (liability : Liability.t) : bool :=
  Num.ltb Num.zero (calculatePayoffPercentage liability).

(** *** Breakdown by category *)

Record Group := { count : nat; total : Num.number }.

(** The own properties of the object that the loop fills, first added
    first; only what is stored under a key is used below, not the order
    of the keys. *)
Definition Groups := list (string * Group).

Definition lookup (category : string) (groups : Groups) : option Group :=
  match find (fun kv => String.eqb (fst kv) category) groups with
  | Some kv => Some (snd kv)
  | None => None
  end.

(** [groups[category].count++; groups[category].total += value] on an own
    property, created with count 0 and total 0 before when there is none. *)
Fixpoint bump (category : string) (value : Num.number) (groups : Groups)
  : Groups :=
  match groups with
  | [] => [(category, {| count := 1; total := Num.add Num.zero value |})]
  | (c, g) :: r =>
      if String.eqb c category then
        (c, {| count := S (count g); total := Num.add (total g) value |}) :: r
      else (c, g) :: bump category value r
  end.

(** One turn of the forEach of [updateBreakdown]. Under an inherited name
    the test [!groups[category]] is false and the two updates land on the
    inherited value: the own properties stay as they are. *)
Definition groupStep {A} (category : A -> string) (value : A -> Num.number)
           (groups : Groups) (record : A) : Groups :=
  if inherited (category record) then groups
  else bump (category record) (value record) groups.

Definition assetsByCategory (st : State) : Groups :=
  fold_left (groupStep Asset.category Asset.currentValue) (assets st) [].

Definition liabilitiesByCategory (st : State) : Groups :=
  fold_left (groupStep Liability.category Liability.currentBalance)
            (liabilities st) [].

(** *** The options of the two link selectors *)

(** [updateAssetDebtOptions]: the liabilities offered as the debt of an
    asset of the selected category; [None] when the selector is hidden. *)
Definition updateAssetDebtOptions (category : string) (st : State)
  : option (list Liability.t) :=
  if existsb (String.eqb category) ["Real Estate"; "Vehicle"; "Business Interest"]
  then
    Some (if String.eqb category "Real Estate" then
            filter (fun l => String.eqb (Liability.category l) "Mortgage")
                   (liabilities st)
          else if String.eqb category "Vehicle" then
            filter (fun l => String.eqb (Liability.category l) "Auto Loan")
                   (liabilities st)
          else if String.eqb category "Business Interest" then
            filter (fun l => String.eqb (Liability.category l) "Business Loan")
                   (liabilities st)
          else [])
  else None.

(** [updateLiabilityAssetOptions]: the assets offered as the asset of a
    liability of the selected category. *)
Definition updateLiabilityAssetOptions (category : string) (st : State)
  : option (list Asset.t) :=
  if existsb (String.eqb category) ["Mortgage"; "Auto Loan"; "Business Loan"]
  then
    Some (if String.eqb category "Mortgage" then
            filter (fun a => String.eqb (Asset.category a) "Real Estate")
                   (assets st)
          else if String.eqb category "Auto Loan" then
            filter (fun a => String.eqb (Asset.category a) "Vehicle")
                   (assets st)
          else if String.eqb category "Business Loan" then
            filter (fun a => String.eqb (Asset.category a) "Business Interest")
                   (assets st)
          else [])
  else None.

(** [l] is among the options offered. *)
Definition offered {A} (x : A) (options : option (list A)) : Prop :=
  match options with Some xs => In x xs | None => False end.

(** *** Ids *)

(** The ids of each array are pairwise different. *)
Definition uniqueIds (st : State) : Prop :=
  NoDup (map Asset.id (assets st))
  /\ NoDup (map Liability.id (liabilities st))
  /\ NoDup (map Snapshot.id (snapshots st)).

(** No id that [generateId] is still to return is the id of a record. *)
Definition idsFresh (idAt : nat -> string) (st : State) : Prop :=
  forall k, queries st <= k ->
    ~ In (idAt k) (map Asset.id (assets st))
    /\ ~ In (idAt k) (map Liability.id (liabilities st))
    /\ ~ In (idAt k) (map Snapshot.id (snapshots st)).

(** The ids [new] of an array after a step that takes the number of
    queries from [q] to [q']: pairwise different, and each an id of before
    or an id that [generateId] returned during the step. *)
Definition idsEvolve (idAt : nat -> string) (q q' : nat)
           (old new : list string) : Prop :=
  NoDup new
  /\ forall x, In x new -> In x old \/ exists k, q <= k < q' /\ x = idAt k.

(** A link is null or an id that is not empty. *)
Definition linkOk (link : option string) : Prop := link <> Some EmptyString.

(** The links of the records are null or not empty, and no interest rate
    is NaN. *)
Definition wellMade (st : State) : Prop :=
  Forall (fun a => linkOk (Asset.associatedDebtId a)) (assets st)
  /\ Forall (fun l => linkOk (Liability.associatedAssetId l)
                      /\ Num.isNaN (Liability.interestRate l) = false)
            (liabilities st).

(** The numbers of the records are Numbers. *)
Definition numbersStored (st : State) : Prop :=
  Forall (fun a => Num.isNumber (Asset.purchasePrice a) = true
                   /\ Num.isNumber (Asset.currentValue a) = true)
         (assets st)
  /\ Forall (fun l => Num.isNumber (Liability.originalAmount l) = true
                      /\ Num.isNumber (Liability.currentBalance l) = true
                      /\ Num.isNumber (Liability.interestRate l) = true)
            (liabilities st).

(** *** More of what the CSV format can carry *)

(** An asset whose row is one line. *)
Definition oneLineAsset (a : Asset.t) : bool :=
  negb (Str.contains newline (Asset.name a))
  && negb (Str.contains newline (Asset.category a))
  && negb (Str.contains newline (Asset.purchaseDate a))
  && negb (Str.contains newline (Asset.notes a)).

(** A liability whose texts the row keeps apart: no quote and no line
    break in them, no comma in the category and in the start date. *)
Definition plainLiability (l : Liability.t) : bool :=
  quotable (Liability.name l) && plainText (Liability.category l)
  && plainText (Liability.startDate l) && quotable (Liability.notes l).

(** [s] between two quotes. *)
Definition quoted (s : string) : string := (dq ++ s ++ dq)%string.

(** The number of commas of a line. *)
Fixpoint commas (line : string) : nat :=
  match line with
  | EmptyString => 0
  | String c r => if Ascii.eqb c comma then S (commas r) else commas r
  end.

(** A handler keeps the history when it leaves [snapshots] as it is,
    whether it completes normally or not. *)
Definition keepsSnapshots {A} (m : M A) : Prop :=
  forall st, snapshots (stateOf (m st)) = snapshots st.

(** ** Sample data *)

Module Sample.

Definition idAt (n : nat) : string := ("id" ++ Str.ofN (N.of_nat n))%string.
Definition isoAt (n : nat) : string :=
  ("2024-01-01T00:00:00." ++ Str.ofN (N.of_nat n) ++ "Z")%string.

Definition home : Asset.t :=
  {| Asset.id := "a1"; Asset.name := "Home"; Asset.category := "Real Estate";
     Asset.purchaseDate := "2020-01-01";
     Asset.purchasePrice := Num.ofZ 300000;
     Asset.currentValue := Num.ofZ 350000;
     Asset.associatedDebtId := Some "l1"; Asset.notes := EmptyString;
     Asset.createdAt := "t0"; Asset.updatedAt := "t0" |}.

Definition mortgage : Liability.t :=
  {| Liability.id := "l1"; Liability.name := "Home Mortgage";
     Liability.category := "Mortgage";
     Liability.originalAmount := Num.ofZ 250000;
     Liability.currentBalance := Num.ofZ 240000;
     Liability.interestRate := Num.parseFloat "3.5";
     Liability.startDate := "2020-01-01";
     Liability.associatedAssetId := Some "a1"; Liability.notes := "30-year fixed";
     Liability.createdAt := "t1"; Liability.updatedAt := "t1" |}.

Definition store : State :=
  set_liabilities [mortgage] (set_assets [home] initialState).

(** A loan of 1000 of which 400 remain, and a loan of 0. *)
Definition loan (originalAmount currentBalance : Z) : Liability.t :=
  {| Liability.id := "l2"; Liability.name := "Loan";
     Liability.category := "Personal Loan";
     Liability.originalAmount := Num.ofZ originalAmount;
     Liability.currentBalance := Num.ofZ currentBalance;
     Liability.interestRate := Num.zero;
     Liability.startDate := "2021-06-15";
     Liability.associatedAssetId := None; Liability.notes := EmptyString;
     Liability.createdAt := "t2"; Liability.updatedAt := "t2" |}.

Definition homeForm : AssetForm :=
  {| asset_name := "Home"; asset_category := "Real Estate";
     asset_purchase_date := "2020-01-01"; asset_purchase_price := "300000";
     asset_current_value := "360000"; asset_associated_debt := "l1";
     asset_notes := "revalued" |}.

Definition mortgageForm : LiabilityForm :=
  {| liability_name := "Home Mortgage"; liability_category := "Mortgage";
     liability_original_amount := "250000";
     liability_current_balance := "235000"; liability_interest_rate := "3.5";
     liability_start_date := "2020-01-01"; liability_associated_asset := "a1";
     liability_notes := "30-year fixed" |}.


(** The text of [exportTemplate], with a row of five fields, a row whose
    price is not a number and a row of an unknown type added. *)
Definition templateCSV : string :=
  (header ++ nl
   ++ "Asset,Example Home,Real Estate,2020-01-01,300000,350000,,,,,My primary residence" ++ nl
   ++ "Asset,Example Car,Vehicle,2021-06-15,25000,18000,,,,,2021 Honda Accord" ++ nl
   ++ "Asset,Savings Account,Bank Account,2019-01-01,0,15000,,,,,Emergency fund" ++ nl
   ++ "Liability,Home Mortgage,Mortgage,,,,250000,240000,3.5,2020-01-01,30-year fixed" ++ nl
   ++ "Liability,Car Loan,Auto Loan,,,,25000,12000,4.5,2021-06-15,60-month term" ++ nl
   ++ "Asset,Short,Cash,2020-01-01,1" ++ nl
   ++ "Asset,Priceless,Other,2020-01-01,n/a,5,,,,," ++ nl
   ++ "Note,Ignored,Other,2020-01-01,1,5,,,,,")%string.

(** A row whose two prices are not finite. *)
Definition infiniteCSV : string :=
  (header ++ nl ++ "Asset,Boat,Other,2020-01-01,Infinity,1e999,,,,,")%string.

(** An asset without link and without notes, and the store that holds
    only it. *)
Definition asset (name category purchaseDate : string)
           (purchasePrice currentValue : Num.number) : Asset.t :=
  {| Asset.id := "a5"; Asset.name := name; Asset.category := category;
     Asset.purchaseDate := purchaseDate;
     Asset.purchasePrice := purchasePrice;
     Asset.currentValue := currentValue;
     Asset.associatedDebtId := None; Asset.notes := EmptyString;
     Asset.createdAt := "t5"; Asset.updatedAt := "t5" |}.

Definition only (a : Asset.t) : State := set_assets [a] initialState.

(** A name with the word big between two quotes. *)
Definition cabinName : string :=
  ("the " ++ dq ++ "big" ++ dq ++ " cabin")%string.

(** An asset with notes, and a liability with notes. *)
Definition noted (name notes : string) : Asset.t :=
  {| Asset.id := "a4"; Asset.name := name; Asset.category := "Other";
     Asset.purchaseDate := "2020-01-01";
     Asset.purchasePrice := Num.ofZ 10; Asset.currentValue := Num.ofZ 50;
     Asset.associatedDebtId := Some "l1"; Asset.notes := notes;
     Asset.createdAt := "t4"; Asset.updatedAt := "t4" |}.

Definition remarked (notes : string) : Liability.t :=
  {| Liability.id := "l4"; Liability.name := "Debt";
     Liability.category := "Other";
     Liability.originalAmount := Num.ofZ 10;
     Liability.currentBalance := Num.ofZ 5;
     Liability.interestRate := Num.zero;
     Liability.startDate := "2020-01-01";
     Liability.associatedAssetId := None; Liability.notes := notes;
     Liability.createdAt := "t4"; Liability.updatedAt := "t4" |}.

(** Notes that end a line and go on with the text of a row. *)
Definition ghostNotes : string :=
  ("see below" ++ nl ++ "Asset,Ghost,Other,2020-01-01,1,2,,,,,")%string.

(** Notes with a quote and commas in them. *)
Definition quotedNotes : string :=
  ("5" ++ dq ++ " disk, boxed, unused")%string.

(** A store to export: prices with a fraction, very large, very small
    and of -0; notes with a quote and commas; a liability. *)
Definition exported : State :=
  set_liabilities [mortgage]
    (set_assets
       [ asset "Savings" "Bank Account" "2019-01-01"
               (Num.parseFloat "0.1") (Num.parseFloat "15000.75");
         asset "Bonds" "Investment" "2018-03-04"
               (Num.parseFloat "1e21") (Num.parseFloat "5e-324");
         {| Asset.id := "a4"; Asset.name := "Disk"; Asset.category := "Other";
            Asset.purchaseDate := "2020-01-01";
            Asset.purchasePrice := S754_zero true;
            Asset.currentValue := Num.parseFloat "123456789012345680000";
            Asset.associatedDebtId := Some "l1"; Asset.notes := quotedNotes;
            Asset.createdAt := "t4"; Asset.updatedAt := "t4" |} ]
       initialState).

(** The export of a store, imported into the empty store. *)
Definition roundTrip (st : State) : State * completion (nat * nat) :=
  parseCSV idAt isoAt (exportData st) initialState.

(** Assets worth 0.1, 0.2 and 350000.75; liabilities of 240000.5 and
    of -0. *)
Definition priced (id : string) (currentValue : string) : Asset.t :=
  {| Asset.id := id; Asset.name := "Item"; Asset.category := "Other";
     Asset.purchaseDate := "2020-01-01";
     Asset.purchasePrice := Num.zero;
     Asset.currentValue := Num.parseFloat currentValue;
     Asset.associatedDebtId := None; Asset.notes := EmptyString;
     Asset.createdAt := "t4"; Asset.updatedAt := "t4" |}.

Definition owed (id : string) (currentBalance : string) : Liability.t :=
  {| Liability.id := id; Liability.name := "Debt";
     Liability.category := "Other";
     Liability.originalAmount := Num.parseFloat "250000";
     Liability.currentBalance := Num.parseFloat currentBalance;
     Liability.interestRate := Num.zero;
     Liability.startDate := "2020-01-01";
     Liability.associatedAssetId := None; Liability.notes := EmptyString;
     Liability.createdAt := "t4"; Liability.updatedAt := "t4" |}.

(** A liability with the amounts as typed. *)
Definition borrowed (originalAmount currentBalance : string) : Liability.t :=
  {| Liability.id := "l9"; Liability.name := "Debt";
     Liability.category := "Other";
     Liability.originalAmount := Num.parseFloat originalAmount;
     Liability.currentBalance := Num.parseFloat currentBalance;
     Liability.interestRate := Num.zero;
     Liability.startDate := "2020-01-01";
     Liability.associatedAssetId := None; Liability.notes := EmptyString;
     Liability.createdAt := "t9"; Liability.updatedAt := "t9" |}.

Definition ledger : State :=
  set_liabilities [owed "l7" "240000.5"; owed "l8" "-0"]
    (set_assets [priced "a7" "0.1"; priced "a8" "0.2"; priced "a9" "350000.75"]
       initialState).





(** A car worth less than the loan on it. *)
Definition car : Asset.t :=
  {| Asset.id := "a2"; Asset.name := "Car"; Asset.category := "Vehicle";
     Asset.purchaseDate := "2021-06-15";
     Asset.purchasePrice := Num.ofZ 25000;
     Asset.currentValue := Num.ofZ 300;
     Asset.associatedDebtId := Some "l2"; Asset.notes := EmptyString;
     Asset.createdAt := "t3"; Asset.updatedAt := "t3" |}.




End Sample.

(** * Properties *)

(** ** The displays *)

Lemma displayAssets_result (st : State) :
  displayAssets st
  = (st, if existsb inherited (map Asset.category (assets st))
         then Throw TypeError else Normal tt).
Proof.
  unfold displayAssets, bind, gets, groupByCategory.
  destruct (assets st) as [|a r]; [reflexivity|].
  now destruct (existsb inherited (map Asset.category (a :: r))).
Qed.

Lemma displayLiabilities_result (st : State) :
  displayLiabilities st
  = (st, if existsb inherited (map Liability.category (liabilities st))
         then Throw TypeError else Normal tt).
Proof.
  unfold displayLiabilities, bind, gets, groupByCategory.
  destruct (liabilities st) as [|l r]; [reflexivity|].
  now destruct (existsb inherited (map Liability.category (l :: r))).
Qed.

Lemma updateAllDisplays_result (st : State) :
  updateAllDisplays st
  = (st, if displaysThrow st then Throw TypeError else Normal tt).
Proof.
  unfold updateAllDisplays, displaysThrow, bind.
  cbn -[displayAssets displayLiabilities].
  rewrite displayAssets_result.
  destruct (existsb inherited (map Asset.category (assets st)));
    [reflexivity|].
  rewrite displayLiabilities_result.
  now destruct (existsb inherited (map Liability.category (liabilities st))).
Qed.

Lemma refreshed_assets (st' : State) :
  assets (stateOf (refreshed st')) = assets st'.
Proof. unfold refreshed. now destruct (displaysThrow st'). Qed.

Lemma refreshed_liabilities (st' : State) :
  liabilities (stateOf (refreshed st')) = liabilities st'.
Proof. unfold refreshed. now destruct (displaysThrow st'). Qed.

Lemma refreshed_snapshots (st' : State) :
  snapshots (stateOf (refreshed st')) = snapshots st'.
Proof. unfold refreshed. now destruct (displaysThrow st'). Qed.

Lemma refreshed_queries (st' : State) :
  queries (stateOf (refreshed st')) = queries st'.
Proof. unfold refreshed. now destruct (displaysThrow st'). Qed.


Lemma deleteAsset_result (id : string) (st : State) :
  deleteAsset id true st
  = (set_assets (filter (fun a => negb (String.eqb (Asset.id a) id)) (assets st))
                st,
     if displaysThrow
          (set_assets
             (filter (fun a => negb (String.eqb (Asset.id a) id)) (assets st)) st)
     then Throw TypeError else Normal tt).
Proof.
  unfold deleteAsset, bind, modify. cbn -[updateAllDisplays].
  now rewrite updateAllDisplays_result.
Qed.

Lemma deleteLiability_result (id : string) (st : State) :
  deleteLiability id true st
  = (set_liabilities
       (filter (fun l => negb (String.eqb (Liability.id l) id)) (liabilities st))
       st,
     if displaysThrow
          (set_liabilities
             (filter (fun l => negb (String.eqb (Liability.id l) id))
                     (liabilities st)) st)
     then Throw TypeError else Normal tt).
Proof.
  unfold deleteLiability, bind, modify. cbn -[updateAllDisplays].
  now rewrite updateAllDisplays_result.
Qed.

(** The end of the two submission handlers. *)
Lemma submit_end (st' : State) :
  (let (st'', c) := updateAllDisplays st' in
   match c with
   | Normal _ => closeAllModals st''
   | Throw e => (st'', Throw e)
   end) = refreshed st'.
Proof.
  rewrite updateAllDisplays_result. unfold refreshed.
  now destruct (displaysThrow st').
Qed.

(** ** Strings and the tokenizer *)

Lemma contains_trimStart (c : ascii) (s : string) :
  Str.contains c s = false -> Str.contains c (Str.trimStart s) = false.
Proof.
  induction s as [|d r IH]; simpl; intro H; [reflexivity|].
  apply orb_false_iff in H as [Hd Hr].
  destruct (Str.isWhiteSpace d); [auto|].
  simpl. now rewrite Hd, Hr.
Qed.

Lemma contains_trimEnd (c : ascii) (s : string) :
  Str.contains c s = false -> Str.contains c (Str.trimEnd s) = false.
Proof.
  induction s as [|d r IH]; simpl; intro H; [reflexivity|].
  apply orb_false_iff in H as [Hd Hr].
  specialize (IH Hr).
  destruct (Str.trimEnd r) as [|d' r'].
  - destruct (Str.isWhiteSpace d); simpl; [reflexivity|now rewrite Hd].
  - change (Str.contains c (String d (String d' r')) = false).
    simpl in *. now rewrite Hd, IH.
Qed.

Lemma contains_trim (c : ascii) (s : string) :
  Str.contains c s = false -> Str.contains c (Str.trim s) = false.
Proof.
  intro H. unfold Str.trim. now apply contains_trimEnd, contains_trimStart.
Qed.

Lemma contains_snoc (c d : ascii) (s : string) :
  Str.contains c (s ++ String d EmptyString)%string
  = Str.contains c s || Ascii.eqb d c.
Proof.
  induction s as [|x r IH]; simpl.
  - now rewrite orb_false_r.
  - now rewrite IH, orb_assoc.
Qed.

Lemma parseCSVLine_loop_length (line : string) :
  forall result current inQuotes,
    S (List.length result)
    <= List.length (parseCSVLine_loop line result current inQuotes).
Proof.
  induction line as [|char rest IH]; intros result current inQuotes; simpl.
  - unfold push. rewrite length_app. simpl. lia.
  - destruct (Ascii.eqb char quote); [apply IH|].
    destruct (Ascii.eqb char comma && negb inQuotes); [|apply IH].
    specialize (IH (push result (Str.trim current)) EmptyString inQuotes).
    unfold push in *. rewrite length_app in IH. simpl in IH. lia.
Qed.

Lemma parseCSVLine_loop_no_quote (line : string) :
  forall result current inQuotes,
    Forall (fun f => Str.contains quote f = false) result ->
    Str.contains quote current = false ->
    Forall (fun f => Str.contains quote f = false)
           (parseCSVLine_loop line result current inQuotes).
Proof.
  induction line as [|char rest IH]; intros result current inQuotes Hres Hcur;
    simpl.
  - unfold push. apply Forall_app. split; [assumption|].
    constructor; [now apply contains_trim|constructor].
  - destruct (Ascii.eqb char quote) eqn:Hq; [now apply IH|].
    destruct (Ascii.eqb char comma && negb inQuotes).
    + apply IH; [|reflexivity].
      unfold push. apply Forall_app. split; [assumption|].
      constructor; [now apply contains_trim|constructor].
    + apply IH; [assumption|].
      rewrite contains_snoc, Hcur, Hq. reflexivity.
Qed.

(** C10. [parseCSVLine] returns, for every line, a list of at least one
    field, and no field of it contains a double-quote character: a quote
    only toggles the inside-quotes state. A doubled quote inside a quoted
    field is therefore not an escape: both quotes disappear. *)
Theorem parseCSVLine_fields_have_no_quote (line : string) :
  1 <= List.length (parseCSVLine line)
  /\ Forall (fun f => Str.contains quote f = false) (parseCSVLine line)
  /\ parseCSVLine (dq ++ "say " ++ dq ++ dq ++ "hi" ++ dq ++ dq ++ dq)%string
     = ["say hi"].
Proof.
  split; [|split].
  - apply (parseCSVLine_loop_length line [] EmptyString false).
  - apply parseCSVLine_loop_no_quote; [constructor|reflexivity].
  - reflexivity.
Qed.

(** ** Numbers and their decimal form *)

Section DecimalForm.

Local Open Scope string_scope.

(** ** Binary digits *)

Lemma digits2_bounds (p : positive) :
  (2 ^ (Zpos (digits2_pos p) - 1) <= Zpos p < 2 ^ Zpos (digits2_pos p))%Z.
Proof.
  induction p as [p IH|p IH|]; cbn [digits2_pos].
  - rewrite Pos2Z.inj_succ, (Pos2Z.inj_xI p).
    replace (Z.succ (Zpos (digits2_pos p)) - 1)%Z
      with (Z.succ (Zpos (digits2_pos p) - 1)) by lia.
    rewrite !Z.pow_succ_r by lia. lia.
  - rewrite Pos2Z.inj_succ, (Pos2Z.inj_xO p).
    replace (Z.succ (Zpos (digits2_pos p)) - 1)%Z
      with (Z.succ (Zpos (digits2_pos p) - 1)) by lia.
    rewrite !Z.pow_succ_r by lia. lia.
  - simpl. lia.
Qed.

Lemma digits2_unique (p : positive) (d : Z) :
  (2 ^ (d - 1) <= Zpos p < 2 ^ d)%Z -> Zpos (digits2_pos p) = d.
Proof.
  intros [Hlo Hhi].
  destruct (digits2_bounds p) as [Blo Bhi].
  assert (0 < d)%Z.
  { destruct (Z.lt_ge_cases 0 d) as [|Hd]; [assumption|].
    assert (2 ^ d <= 2 ^ 0)%Z by (apply Z.pow_le_mono_r; lia).
    destruct d; simpl in *; lia. }
  assert (d - 1 < Zpos (digits2_pos p))%Z.
  { apply (Z.pow_lt_mono_r_iff 2); lia. }
  assert (Zpos (digits2_pos p) - 1 < d)%Z.
  { apply (Z.pow_lt_mono_r_iff 2); lia. }
  lia.
Qed.

Lemma digits2_shift (p q : positive) (j : Z) :
  (0 <= j)%Z -> Zpos q = (Zpos p * 2 ^ j)%Z ->
  Zpos (digits2_pos q) = (Zpos (digits2_pos p) + j)%Z.
Proof.
  intros Hj Hq. apply digits2_unique. rewrite Hq.
  destruct (digits2_bounds p) as [Blo Bhi].
  replace (Zpos (digits2_pos p) + j - 1)%Z
    with ((Zpos (digits2_pos p) - 1) + j)%Z by lia.
  assert (0 < 2 ^ j)%Z by (apply Z.pow_pos_nonneg; lia).
  assert (0 <= Zpos (digits2_pos p) - 1)%Z by lia.
  rewrite !Z.pow_add_r by lia. nia.
Qed.

(** ** Shifts to the right *)

Lemma iter_pos_nat {A} (f : A -> A) (p : positive) :
  forall x, iter_pos f p x = Nat.iter (Pos.to_nat p) f x.
Proof.
  assert (Hadd : forall n m (x : A),
             Nat.iter (n + m) f x = Nat.iter n f (Nat.iter m f x)).
  { intros n m x. induction n as [|n IHn]; simpl; [reflexivity|now rewrite IHn]. }
  induction p as [p IH|p IH|]; intro x; cbn [iter_pos].
  - rewrite !IH, Pos2Nat.inj_xI.
    replace (S (2 * Pos.to_nat p)) with (Pos.to_nat p + (Pos.to_nat p + 1))%nat by lia.
    rewrite !Hadd. reflexivity.
  - rewrite !IH, Pos2Nat.inj_xO.
    replace (2 * Pos.to_nat p)%nat with (Pos.to_nat p + Pos.to_nat p)%nat by lia.
    rewrite Hadd. reflexivity.
  - reflexivity.
Qed.

(** Shifting [m * 2^n] by [n] bits loses nothing. *)
Lemma shr_exact_nat (n : nat) :
  forall (m : positive) (M : Z),
    M = (Zpos m * 2 ^ Z.of_nat n)%Z ->
    Nat.iter n shr_1 {| shr_m := M; shr_r := false; shr_s := false |}
    = {| shr_m := Zpos m; shr_r := false; shr_s := false |}.
Proof.
  induction n as [|n IH]; intros m M HM.
  - subst M. change (Z.of_nat 0) with 0%Z.
    rewrite Z.pow_0_r, Z.mul_1_r. reflexivity.
  - rewrite Nat.iter_succ_r.
    rewrite Nat2Z.inj_succ, Z.pow_succ_r in HM by lia.
    assert (0 < 2 ^ Z.of_nat n)%Z by (apply Z.pow_pos_nonneg; lia).
    destruct M as [|q|q]; [lia| |lia].
    destruct q as [q|q|]; [lia| |lia].
    cbn [shr_1 orb]. apply IH. lia.
Qed.

Lemma shr_exact (m : positive) (e j : Z) :
  (0 <= j)%Z ->
  shr {| shr_m := Zpos m * 2 ^ j; shr_r := false; shr_s := false |} e j
  = ({| shr_m := Zpos m; shr_r := false; shr_s := false |}, (e + j)%Z).
Proof.
  intro Hj. destruct j as [|p|p]; [| |lia].
  - cbn [shr]. now rewrite Z.pow_0_r, Z.mul_1_r, Z.add_0_r.
  - cbn [shr]. rewrite iter_pos_nat.
    rewrite (shr_exact_nat (Pos.to_nat p) m); [reflexivity|].
    now rewrite positive_nat_Z.
Qed.

(** ** Rounding what is representable *)

Lemma finiteNumber_canonical (m : positive) (e : Z) :
  Num.finiteNumber m e ->
  fexp Num.prec Num.emax (Zpos (digits2_pos m) + e) = e /\ (e <= Num.emax - Num.prec)%Z.
Proof.
  unfold Num.finiteNumber, bounded, canonical_mantissa.
  intro H. apply andb_true_iff in H as [H1 H2].
  apply Z.eqb_eq in H1. apply Z.leb_le in H2. now split.
Qed.

(** [m * 2^e], given with [j] more bits, rounds to itself. *)
Lemma round_exact (s : bool) (m : positive) (e j : Z) :
  Num.finiteNumber m e -> (0 <= j)%Z ->
  binary_round_aux Num.prec Num.emax s (Zpos m * 2 ^ j) (e - j) loc_Exact
  = S754_finite s m e.
Proof.
  intros Hv Hj. destruct (finiteNumber_canonical m e Hv) as [Hc Hb].
  assert (Hpos : (0 < Zpos m * 2 ^ j)%Z).
  { apply Z.mul_pos_pos; [lia|apply Z.pow_pos_nonneg; lia]. }
  destruct (Zpos m * 2 ^ j)%Z as [|q|q] eqn:Hq; [lia| |lia].
  assert (Hd : Zpos (digits2_pos q) = (Zpos (digits2_pos m) + j)%Z)
    by now apply digits2_shift.
  unfold binary_round_aux, shr_fexp.
  cbn [Zdigits2 shr_record_of_loc].
  rewrite Hd.
  replace (Zpos (digits2_pos m) + j + (e - j))%Z
    with (Zpos (digits2_pos m) + e)%Z by lia.
  rewrite Hc.
  replace (e - (e - j))%Z with j by lia.
  rewrite <- Hq, shr_exact by assumption.
  cbn [shr_m loc_of_shr_record round_nearest_even Zdigits2 shr_record_of_loc].
  replace (e - j + j)%Z with e by lia.
  rewrite Hc, Z.sub_diag. cbn [shr shr_m].
  apply Z.leb_le in Hb. now rewrite Hb.
Qed.

(** An integer that is a Number rounds to that Number. *)
Lemma binary_round_exact (s : bool) (N m : positive) (e : Z) :
  Num.finiteNumber m e ->
  (Zpos N * 2 ^ Z.max 0 (- e) = Zpos m * 2 ^ Z.max 0 e)%Z ->
  binary_round Num.prec Num.emax s N 0 = S754_finite s m e.
Proof.
  intros Hv HN. destruct (finiteNumber_canonical m e Hv) as [Hc Hb].
  unfold binary_round, shl_align.
  destruct (Z.lt_ge_cases e 0) as [He|He].
  - rewrite Z.max_r in HN by lia. rewrite Z.max_l in HN by lia.
    rewrite Z.pow_0_r, Z.mul_1_r in HN.
    assert (Hd : Zpos (digits2_pos m) = (Zpos (digits2_pos N) + - e)%Z)
      by (apply digits2_shift; [lia|now symmetry]).
    replace (Zpos (digits2_pos N) + 0)%Z with (Zpos (digits2_pos m) + e)%Z by lia.
    rewrite Hc, Z.sub_0_r.
    destruct e as [|p|p]; [lia|lia|].
    assert (Hm : Pos.iter xO N p = m).
    { apply Pos2Z.inj. rewrite <- HN.
      change (- Zneg p)%Z with (Zpos p).
      rewrite <- Z.shiftl_mul_pow2 by lia.
      clear. revert N. induction p using Pos.peano_ind; intro N.
      - reflexivity.
      - rewrite Pos.iter_succ, Pos2Z.inj_xO, IHp.
        rewrite <- Pos.add_1_r, Pos2Z.inj_add.
        rewrite <- Z.shiftl_shiftl by lia.
        now rewrite (Z.shiftl_mul_pow2 _ 1), Z.pow_1_r, Z.mul_comm by lia. }
    rewrite Hm.
    replace (Zpos m) with (Zpos m * 2 ^ 0)%Z by (simpl; lia).
    replace (Zneg p) with (Zneg p - 0)%Z by lia.
    now apply round_exact.
  - rewrite Z.max_l in HN by lia. rewrite Z.max_r in HN by lia.
    rewrite Z.pow_0_r, Z.mul_1_r in HN.
    assert (Hd : Zpos (digits2_pos N) = (Zpos (digits2_pos m) + e)%Z)
      by (apply digits2_shift; [lia|assumption]).
    rewrite Z.add_0_r, Hd, Hc, Z.sub_0_r.
    replace (match e with Zneg d => (Pos.iter xO N d, e) | _ => (N, 0%Z) end)
      with (N, 0%Z) by (destruct e; [reflexivity|reflexivity|lia]).
    rewrite HN. replace 0%Z with (e - e)%Z by lia.
    now apply round_exact.
Qed.

(** A quotient of two integers that is a Number is what their division
    returns. *)
Lemma SFdiv_exact (s : bool) (a b m : positive) (e : Z) :
  Num.finiteNumber m e ->
  (Zpos a * 2 ^ Z.max 0 (- e) = Zpos m * 2 ^ Z.max 0 e * Zpos b)%Z ->
  SFdiv Num.prec Num.emax (S754_finite s a 0) (S754_finite false b 0)
  = S754_finite s m e.
Proof.
  intros Hv Hab. destruct (finiteNumber_canonical m e Hv) as [Hc Hb].
  cbn [SFdiv]. unfold SFdiv_core_binary. cbn [Zdigits2].
  rewrite !Z.add_0_r, Z.sub_diag.
  set (d1 := Zpos (digits2_pos a)). set (d2 := Zpos (digits2_pos b)).
  set (e' := Z.min (fexp Num.prec Num.emax (d1 - d2)) 0).
  assert (He' : (e' <= 0)%Z) by (unfold e'; lia).
  assert (Hle : (e' <= e)%Z).
  { destruct (Z.lt_ge_cases e 0) as [He|He]; [|lia].
    rewrite Z.max_r in Hab by lia. rewrite Z.max_l in Hab by lia.
    rewrite Z.pow_0_r, Z.mul_1_r in Hab.
    assert (d1 - d2 <= Zpos (digits2_pos m) + e)%Z.
    { destruct (digits2_bounds a) as [Alo _].
      destruct (digits2_bounds b) as [_ Bhi].
      destruct (digits2_bounds m) as [_ Mhi].
      fold d1 in Alo. fold d2 in Bhi.
      assert (0 < 2 ^ (- e))%Z by (apply Z.pow_pos_nonneg; lia).
      assert (H1 : (2 ^ (d1 - 1 + - e) <= Zpos a * 2 ^ (- e))%Z).
      { rewrite Z.pow_add_r by (unfold d1; lia). nia. }
      assert (H2 : (Zpos m * Zpos b < 2 ^ (Zpos (digits2_pos m) + d2))%Z).
      { rewrite Z.pow_add_r by (unfold d2; lia). nia. }
      assert (d1 - 1 + - e < Zpos (digits2_pos m) + d2)%Z.
      { apply (Z.pow_lt_mono_r_iff 2); [lia|unfold d2; lia|lia]. }
      lia. }
    assert (fexp Num.prec Num.emax (d1 - d2) <= fexp Num.prec Num.emax (Zpos (digits2_pos m) + e))%Z.
    { unfold fexp. lia. }
    unfold e'. lia. }
  assert (Hdiv : (match (0 - e')%Z with
                  | Zpos _ => Z.shiftl (Zpos a) (0 - e')
                  | Z0 => Zpos a
                  | Zneg _ => 0
                  end = Zpos m * 2 ^ (e - e') * Zpos b)%Z).
  { assert (Hsh : (match (0 - e')%Z with
                   | Zpos _ => Z.shiftl (Zpos a) (0 - e')
                   | Z0 => Zpos a
                   | Zneg _ => 0
                   end = Zpos a * 2 ^ (- e'))%Z).
    { destruct (0 - e')%Z as [|p|p] eqn:Hs; [| |lia].
      - replace (- e')%Z with 0%Z by lia. simpl. lia.
      - rewrite Z.shiftl_mul_pow2 by lia. now replace (- e')%Z with (Zpos p) by lia. }
    rewrite Hsh.
    destruct (Z.lt_ge_cases e 0) as [He|He].
    + rewrite Z.max_r in Hab by lia. rewrite Z.max_l in Hab by lia.
      rewrite Z.pow_0_r, Z.mul_1_r in Hab.
      replace (- e')%Z with (- e + (e - e'))%Z by lia.
      rewrite Z.pow_add_r by lia. rewrite Z.mul_assoc, Hab. ring.
    + rewrite Z.max_l in Hab by lia. rewrite Z.max_r in Hab by lia.
      rewrite Z.pow_0_r, Z.mul_1_r in Hab.
      rewrite Hab. replace (e - e')%Z with (e + - e')%Z by lia.
      rewrite Z.pow_add_r by lia. ring. }
  rewrite Hdiv.
  pose proof (Z.div_eucl_eq (Zpos m * 2 ^ (e - e') * Zpos b) (Zpos b)) as Heq.
  pose proof (Z.mod_mul (Zpos m * 2 ^ (e - e')) (Zpos b)) as Hmod.
  pose proof (Z.div_mul (Zpos m * 2 ^ (e - e')) (Zpos b)) as Hquo.
  unfold Z.modulo, Z.div in Hmod, Hquo.
  destruct (Z.div_eucl (Zpos m * 2 ^ (e - e') * Zpos b) (Zpos b)) as [q r].
  rewrite Hmod, Hquo by lia.
  assert (Hloc : new_location (Zpos b) 0 = loc_Exact).
  { unfold new_location, new_location_even, new_location_odd.
    destruct (Z.even (Zpos b)); reflexivity. }
  rewrite Hloc, xorb_false_r.
  replace e' with (e - (e - e'))%Z at 2 by lia.
  apply round_exact; [assumption|lia].
Qed.

(** ** Decimals *)

Lemma pow10_pos (i : Z) : (0 <= i)%Z -> (0 < 10 ^ i)%Z.
Proof. intro H. apply Z.pow_pos_nonneg; lia. Qed.

Lemma stripZeros_value (fuel : nat) :
  forall p e p0 e0,
    Num.stripZeros fuel p e = (p0, e0) ->
    exists i, (0 <= i)%Z /\ Zpos p = (Zpos p0 * 10 ^ i)%Z /\ e0 = (e + i)%Z.
Proof.
  induction fuel as [|fuel IH]; intros p e p0 e0 H; cbn [Num.stripZeros] in H.
  - inversion H; subst. exists 0%Z. rewrite Z.pow_0_r. lia.
  - destruct (N.pos p mod 10)%N eqn:Hmod.
    + destruct (N.pos p / 10)%N as [|p'] eqn:Hdiv.
      * inversion H; subst. exists 0%Z. rewrite Z.pow_0_r. lia.
      * destruct (IH _ _ _ _ H) as (i & Hi & Hp & He).
        exists (i + 1)%Z. split; [lia|]. split; [|lia].
        pose proof (N.div_mod (N.pos p) 10) as Hdm.
        rewrite Hmod, Hdiv in Hdm.
        assert (Hz : Zpos p = (10 * Zpos p')%Z) by lia.
        rewrite Hz, Hp, Z.pow_add_r, Z.pow_1_r by lia. ring.
    + inversion H; subst. exists 0%Z. rewrite Z.pow_0_r. lia.
Qed.

Lemma size_nat_pos (p : positive) : (1 <= Pos.size_nat p)%nat.
Proof. destruct p; simpl; lia. Qed.

Lemma size_nat_tenth (p : positive) :
  (S (Pos.size_nat p) <= Pos.size_nat (10 * p))%nat.
Proof.
  change (S (Pos.size_nat p)) with (Pos.size_nat p~0).
  destruct (Pos.eq_dec p~0 (10 * p)) as [E|E]; [lia|].
  apply Pos.size_nat_monotone. lia.
Qed.

Lemma stripZeros_enough (f1 : nat) :
  forall f2 p e,
    (Pos.size_nat p <= f1)%nat -> (Pos.size_nat p <= f2)%nat ->
    Num.stripZeros f1 p e = Num.stripZeros f2 p e.
Proof.
  induction f1 as [|f1 IH]; intros f2 p e H1 H2.
  - pose proof (size_nat_pos p). lia.
  - destruct f2 as [|f2]; [pose proof (size_nat_pos p); lia|].
    cbn [Num.stripZeros].
    destruct (N.pos p mod 10)%N eqn:Hmod; [|reflexivity].
    destruct (N.pos p / 10)%N as [|p'] eqn:Hdiv; [reflexivity|].
    pose proof (N.div_mod (N.pos p) 10) as Hdm.
    rewrite Hmod, Hdiv in Hdm.
    assert (Hp : p = (10 * p')%positive) by lia.
    pose proof (size_nat_tenth p'). rewrite <- Hp in *.
    apply IH; lia.
Qed.

Lemma normalDecimal_tenfold (p : positive) (e : Z) :
  Num.normalDecimal (10 * p) (e - 1) = Num.normalDecimal p e.
Proof.
  unfold Num.normalDecimal.
  pose proof (size_nat_tenth p) as Hs.
  destruct (Pos.size_nat (10 * p)) as [|f] eqn:Hf; [lia|].
  cbn [Num.stripZeros].
  assert (Hmod : (N.pos (10 * p) mod 10 = 0)%N).
  { change (N.pos (10 * p)) with (10 * N.pos p)%N.
    rewrite N.mul_comm. now apply N.Div0.mod_mul. }
  assert (Hdiv : (N.pos (10 * p) / 10 = N.pos p)%N).
  { change (N.pos (10 * p)) with (10 * N.pos p)%N.
    rewrite N.mul_comm. now apply N.div_mul. }
  rewrite Hmod, Hdiv.
  replace (e - 1 + 1)%Z with e by lia.
  apply stripZeros_enough; lia.
Qed.

(** The value [p * 10^e] keeps its normal form when zeros move between
    the mantissa and the exponent. *)
Lemma normalDecimal_shift (i : nat) :
  forall (p q : positive) (e : Z),
    Zpos q = (Zpos p * 10 ^ Z.of_nat i)%Z ->
    Num.normalDecimal q (e - Z.of_nat i) = Num.normalDecimal p e.
Proof.
  induction i as [|i IH]; intros p q e Hq.
  - change (Z.of_nat 0) with 0%Z in *.
    rewrite Z.pow_0_r, Z.mul_1_r in Hq. apply Pos2Z.inj in Hq. subst q.
    now rewrite Z.sub_0_r.
  - rewrite Nat2Z.inj_succ, Z.pow_succ_r in Hq by lia.
    assert (Hpos : (0 < 10 ^ Z.of_nat i)%Z) by (apply pow10_pos; lia).
    assert (Hq' : exists q', Zpos q' = (Zpos p * 10 ^ Z.of_nat i)%Z).
    { destruct (Zpos p * 10 ^ Z.of_nat i)%Z as [|q'|q'] eqn:E; [lia| |lia].
      now exists q'. }
    destruct Hq' as [q' Hq'].
    assert (q = (10 * q')%positive) by lia. subst q.
    rewrite Nat2Z.inj_succ.
    replace (e - Z.succ (Z.of_nat i))%Z with (e - Z.of_nat i - 1)%Z by lia.
    rewrite normalDecimal_tenfold. now apply IH.
Qed.

Lemma ofDecimal_shift (neg : bool) (m : N) (i : nat) (e : Z) :
  Num.ofDecimal neg (m * 10 ^ N.of_nat i) (e - Z.of_nat i) = Num.ofDecimal neg m e.
Proof.
  destruct m as [|p]; [reflexivity|].
  assert (Hpos : (0 < 10 ^ Z.of_nat i)%Z) by (apply pow10_pos; lia).
  destruct (N.pos p * 10 ^ N.of_nat i)%N as [|q] eqn:Hq.
  - apply (f_equal Z.of_N) in Hq.
    rewrite N2Z.inj_mul, N2Z.inj_pow, nat_N_Z in Hq. cbn [Z.of_N] in Hq. lia.
  - cbn [Num.ofDecimal]. rewrite (normalDecimal_shift i p q); [reflexivity|].
    apply (f_equal Z.of_N) in Hq.
    rewrite N2Z.inj_mul, N2Z.inj_pow, nat_N_Z in Hq. cbn [Z.of_N] in Hq. lia.
Qed.

(** The sign of a decimal is the sign of its Number. *)
Lemma binary_round_aux_sign (s : bool) (m e : Z) (l : location) :
  binary_round_aux Num.prec Num.emax true m e l
  = SFopp (binary_round_aux Num.prec Num.emax false m e l).
Proof.
  unfold binary_round_aux.
  destruct (shr_fexp Num.prec Num.emax m e l) as [mrs e1].
  destruct (shr_fexp Num.prec Num.emax _ e1 loc_Exact) as [mrs' e2].
  destruct (shr_m mrs'); try reflexivity.
  destruct (e2 <=? Num.emax - Num.prec)%Z; reflexivity.
Qed.

Lemma ofDecimal_sign (m : N) (e : Z) :
  Num.ofDecimal true m e = SFopp (Num.ofDecimal false m e).
Proof.
  destruct m as [|p]; [reflexivity|].
  cbn [Num.ofDecimal]. destruct (Num.normalDecimal p e) as [p0 e0].
  unfold Num.roundDecimal. destruct e0 as [|k|k].
  - unfold binary_round. destruct (shl_align _ _ _). apply binary_round_aux_sign; exact true.
  - unfold binary_round. destruct (shl_align _ _ _). apply binary_round_aux_sign; exact true.
  - cbn [SFdiv]. destruct (SFdiv_core_binary _ _ _ _ _ _) as [[mz ez] lz].
    cbn [xorb]. apply binary_round_aux_sign; exact true.
Qed.

(** A decimal whose value is a Number rounds to that Number. *)
Lemma roundDecimal_exact (s : bool) (D m : positive) (E e : Z) :
  Num.finiteNumber m e ->
  (Zpos D * 10 ^ Z.max 0 E * 2 ^ Z.max 0 (- e)
   = Zpos m * 2 ^ Z.max 0 e * 10 ^ Z.max 0 (- E))%Z ->
  Num.roundDecimal s D E = S754_finite s m e.
Proof.
  intros Hv H. unfold Num.roundDecimal.
  assert (Hnonneg : (0 <= E)%Z ->
            binary_round Num.prec Num.emax s (D * Z.to_pos (10 ^ E)) 0
            = S754_finite s m e).
  { intro HE. apply binary_round_exact; [assumption|].
    rewrite Z.max_r in H by lia. rewrite (Z.max_l 0 (- E)) in H by lia.
    rewrite Z.pow_0_r, Z.mul_1_r in H.
    rewrite Pos2Z.inj_mul, Z2Pos.id by now apply pow10_pos.
    exact H. }
  destruct E as [|k|k]; [apply Hnonneg; lia|apply Hnonneg; lia|].
  apply SFdiv_exact; [assumption|].
  rewrite (Z.max_l 0 (Zneg k)) in H by lia.
  rewrite (Z.max_r 0 (- Zneg k)) in H by lia.
  rewrite Z.pow_0_r, Z.mul_1_r in H.
  rewrite Pos2Z.inj_pow. exact H.
Qed.

Lemma ofDecimal_exact (s : bool) (D m : positive) (E e : Z) :
  Num.finiteNumber m e ->
  (Zpos D * 10 ^ Z.max 0 E * 2 ^ Z.max 0 (- e)
   = Zpos m * 2 ^ Z.max 0 e * 10 ^ Z.max 0 (- E))%Z ->
  Num.ofDecimal s (Npos D) E = S754_finite s m e.
Proof.
  intros Hv H. cbn [Num.ofDecimal]. unfold Num.normalDecimal.
  destruct (Num.stripZeros (Pos.size_nat D) D E) as [D0 E0] eqn:Hn.
  destruct (stripZeros_value _ _ _ _ _ Hn) as (i & Hi & HD & HE).
  apply roundDecimal_exact; [assumption|].
  rewrite HD in H. subst E0.
  set (A := (2 ^ Z.max 0 (- e))%Z) in *.
  set (B := (Zpos m * 2 ^ Z.max 0 e)%Z) in *.
  assert (Hi10 : (0 < 10 ^ i)%Z) by now apply pow10_pos.
  destruct (Z.lt_ge_cases E 0) as [HE|HE].
  - rewrite (Z.max_l 0 E), (Z.max_r 0 (- E)) in H by lia.
    rewrite Z.pow_0_r, Z.mul_1_r in H.
    destruct (Z.lt_ge_cases (E + i) 0) as [HEi|HEi].
    + rewrite (Z.max_l 0 (E + i)), (Z.max_r 0 (- (E + i))) by lia.
      rewrite Z.pow_0_r, Z.mul_1_r.
      replace (- E)%Z with (- (E + i) + i)%Z in H by lia.
      rewrite Z.pow_add_r in H by lia.
      apply (Z.mul_cancel_r _ _ (10 ^ i)); [lia|]. lia.
    + rewrite (Z.max_r 0 (E + i)), (Z.max_l 0 (- (E + i))) by lia.
      rewrite Z.pow_0_r, Z.mul_1_r.
      assert (0 < 10 ^ (- E))%Z by (apply pow10_pos; lia).
      apply (Z.mul_cancel_r _ _ (10 ^ (- E))); [lia|].
      replace i with (E + i + - E)%Z in H at 1 by lia.
      rewrite Z.pow_add_r in H by lia. lia.
  - rewrite (Z.max_r 0 E), (Z.max_l 0 (- E)) in H by lia.
    rewrite Z.pow_0_r, Z.mul_1_r in H.
    rewrite (Z.max_r 0 (E + i)), (Z.max_l 0 (- (E + i))) by lia.
    rewrite Z.pow_0_r, Z.mul_1_r.
    rewrite Z.pow_add_r by lia. lia.
Qed.

(** The exact decimal expansion of a Number rounds to it. *)
Lemma exactDecimal_exact (m : positive) (e : Z) :
  Num.finiteNumber m e ->
  Num.ofDecimal false (fst (Num.exactDecimal m e)) (snd (Num.exactDecimal m e))
  = S754_finite false m e.
Proof.
  intro Hv. unfold Num.exactDecimal. destruct e as [|k|k].
  - cbn [fst snd]. change (2 ^ Z.to_N 0)%N with 1%N. rewrite N.mul_1_r.
    apply ofDecimal_exact; [assumption|]. simpl. lia.
  - cbn [fst snd].
    destruct (N.pos m * 2 ^ Z.to_N (Zpos k))%N as [|D] eqn:HD.
    + apply (f_equal Z.of_N) in HD.
      rewrite N2Z.inj_mul, N2Z.inj_pow, Z2N.id in HD by lia.
      assert (0 < 2 ^ Zpos k)%Z by (apply Z.pow_pos_nonneg; lia).
      cbn [Z.of_N] in HD. lia.
    + apply ofDecimal_exact; [assumption|].
      apply (f_equal Z.of_N) in HD.
      rewrite N2Z.inj_mul, N2Z.inj_pow, Z2N.id in HD by lia.
      rewrite (Z.max_l 0 0), (Z.max_l 0 (- Zpos k)), (Z.max_r 0 (Zpos k)) by lia.
      change (- 0)%Z with 0%Z. rewrite (Z.max_l 0 0) by lia.
      rewrite !Z.pow_0_r, !Z.mul_1_r.
      cbn [Z.of_N] in HD. lia.
  - cbn [fst snd]. apply ofDecimal_exact; [assumption|].
    rewrite (Z.max_l 0 (Zneg k)), (Z.max_r 0 (- Zneg k)) by lia.
    rewrite !Z.pow_0_r, !Z.mul_1_r.
    change (- Zneg k)%Z with (Zpos k).
    rewrite Pos2Z.inj_mul, Pos2Z.inj_pow.
    change 10%Z with (5 * 2)%Z. rewrite Z.pow_mul_l.
    change (Zpos 5) with 5%Z. ring.
Qed.

Lemma sameNumber_eq (x y : Num.number) : Num.sameNumber x y = true -> x = y.
Proof.
  destruct x as [s|s| |s m e], y as [s'|s'| |s' m' e']; simpl; try discriminate;
    try reflexivity.
  - intro H. apply eqb_prop in H. now subst.
  - intro H. apply eqb_prop in H. now subst.
  - intro H. apply andb_true_iff in H as [H He].
    apply andb_true_iff in H as [Hs Hm].
    apply eqb_prop in Hs. apply Pos.eqb_eq in Hm. apply Z.eqb_eq in He.
    now subst.
Qed.

(** The digits that [shortestDigits] returns are digits of [x]. *)
Lemma shortestDigits_sound (fuel : nat) :
  forall k x D E len,
    Num.ofDecimal false D E = x ->
    Num.ofDecimal false (fst (Num.shortestDigits fuel k x D E len))
                    (snd (Num.shortestDigits fuel k x D E len)) = x.
Proof.
  induction fuel as [|fuel IH]; intros k x D E len HD; cbn [Num.shortestDigits].
  - exact HD.
  - destruct (len <=? k)%nat; [exact HD|].
    cbv zeta.
    set (q := (E + Z.of_nat (len - k))%Z).
    set (lo := (D / 10 ^ N.of_nat (len - k))%N).
    destruct (Num.sameNumber (Num.ofDecimal false lo q) x) eqn:Hlo;
      destruct (Num.sameNumber (Num.ofDecimal false (lo + 1) q) x) eqn:Hhi;
      cbn [andb].
    + apply sameNumber_eq in Hlo, Hhi.
      destruct (_ <? _)%N; [exact Hlo|].
      destruct (_ <? _)%N; [exact Hhi|].
      destruct (N.even lo); assumption.
    + now apply sameNumber_eq in Hlo.
    + now apply sameNumber_eq in Hhi.
    + now apply IH.
Qed.

(** ** Strings of digits *)

Lemma append_assoc (a b c : string) : ((a ++ b) ++ c = a ++ (b ++ c))%string.
Proof. induction a as [|x a IH]; simpl; [reflexivity|now rewrite IH]. Qed.

Lemma append_empty_r (a : string) : (a ++ EmptyString)%string = a.
Proof. induction a as [|x a IH]; simpl; [reflexivity|now rewrite IH]. Qed.

Lemma length_append (a b : string) :
  String.length (a ++ b) = (String.length a + String.length b)%nat.
Proof. induction a as [|x a IH]; simpl; [reflexivity|now rewrite IH]. Qed.

Lemma allChars_app (p : ascii -> bool) (a b : string) :
  allChars p (a ++ b) = allChars p a && allChars p b.
Proof.
  induction a as [|x a IH]; simpl; [reflexivity|].
  now rewrite IH, andb_assoc.
Qed.

Lemma length_repeat0 (n : nat) : String.length (Str.repeat0 n) = n.
Proof. induction n as [|n IH]; simpl; [reflexivity|now rewrite IH]. Qed.

Lemma allChars_repeat0 (n : nat) : allChars Str.isDigit (Str.repeat0 n) = true.
Proof. induction n as [|n IH]; simpl; [reflexivity|exact IH]. Qed.

Lemma digitsValue_app (a b : string) :
  forall acc,
    Str.digitsValue acc (a ++ b) = Str.digitsValue (Str.digitsValue acc a) b.
Proof. induction a as [|x a IH]; intro acc; simpl; [reflexivity|apply IH]. Qed.

Lemma digitsValue_repeat0 (n : nat) :
  forall acc, Str.digitsValue acc (Str.repeat0 n) = (acc * 10 ^ N.of_nat n)%N.
Proof.
  induction n as [|n IH]; intro acc.
  - simpl. now rewrite N.mul_1_r.
  - cbn [Str.repeat0 Str.digitsValue]. rewrite IH.
    change (N_of_ascii "0" - 48)%N with 0%N.
    rewrite Nat2N.inj_succ, N.pow_succ_r', N.add_0_r. ring.
Qed.

Lemma digitsValue_leading0 (n : nat) (s : string) :
  Str.digitsValue 0 (Str.repeat0 n ++ s) = Str.digitsValue 0 s.
Proof. now rewrite digitsValue_app, digitsValue_repeat0. Qed.

(** *** The decimal form of a natural number *)

Lemma allChars_string_of_uint (d : Decimal.uint) :
  allChars Str.isDigit (NilEmpty.string_of_uint d) = true.
Proof. induction d; simpl; [reflexivity|assumption..]. Qed.

Ltac digit_value :=
  match goal with
  | |- context [(N_of_ascii ?c - 48)%N] =>
      let v := eval vm_compute in (N_of_ascii c - 48)%N in
      change (N_of_ascii c - 48)%N with v
  end; lia.

Lemma digitsValue_of_uint_acc (d : Decimal.uint) :
  forall acc,
    Str.digitsValue (Npos acc) (NilEmpty.string_of_uint d)
    = Npos (Pos.of_uint_acc d acc).
Proof.
  induction d; intro acc; cbn [NilEmpty.string_of_uint Str.digitsValue Pos.of_uint_acc];
    [reflexivity|..];
    match goal with
    | |- Str.digitsValue ?a _ = N.pos (Pos.of_uint_acc _ ?b) =>
        replace a with (Npos b) by digit_value
    end; apply IHd.
Qed.

Lemma digitsValue_of_uint (d : Decimal.uint) :
  Str.digitsValue 0 (NilEmpty.string_of_uint d) = Pos.of_uint d.
Proof.
  induction d; cbn [NilEmpty.string_of_uint Str.digitsValue Pos.of_uint];
    [reflexivity|exact IHd|..];
    match goal with
    | |- Str.digitsValue ?a _ = N.pos (Pos.of_uint_acc _ ?b) =>
        replace a with (Npos b) by digit_value
    end; apply digitsValue_of_uint_acc.
Qed.

Lemma ofN_pos (p : positive) :
  Str.ofN (Npos p) = NilEmpty.string_of_uint (Pos.to_uint p).
Proof.
  unfold Str.ofN, NilZero.string_of_uint. cbn [N.to_uint].
  pose proof (DecimalPos.Unsigned.to_uint_nonnil p) as H.
  destruct (Pos.to_uint p); [congruence|reflexivity..].
Qed.

Lemma allChars_ofN (n : N) : allChars Str.isDigit (Str.ofN n) = true.
Proof.
  destruct n as [|p]; [reflexivity|].
  rewrite ofN_pos. apply allChars_string_of_uint.
Qed.

Lemma ofN_value (n : N) : Str.digitsValue 0 (Str.ofN n) = n.
Proof.
  destruct n as [|p]; [reflexivity|].
  rewrite ofN_pos, digitsValue_of_uint. apply DecimalPos.Unsigned.of_to.
Qed.

Lemma ofN_nonempty (n : N) : Str.ofN n <> EmptyString.
Proof.
  destruct n as [|p]; [discriminate|].
  rewrite ofN_pos.
  pose proof (DecimalPos.Unsigned.to_uint_nonnil p) as H.
  destruct (Pos.to_uint p); [congruence|discriminate..].
Qed.

(** *** Trailing zeros *)

Lemma dropTrailingZeros_zeros (s : string) :
  exists j, s = (Str.dropTrailingZeros s ++ Str.repeat0 j)%string.
Proof.
  induction s as [|c r [j IH]].
  - now exists 0%nat.
  - cbn [Str.dropTrailingZeros].
    destruct (Str.dropTrailingZeros r) as [|c' r'] eqn:Hr.
    + destruct (Ascii.eqb c "0") eqn:Hc.
      * apply Ascii.eqb_eq in Hc. subst c. exists (S j).
        simpl in *. now rewrite <- IH.
      * exists j. simpl in *. now rewrite <- IH.
    + exists j. cbn [append] in *. now rewrite <- IH.
Qed.

(** *** The scanner of [parseFloat] *)

Lemma spanDigits_app (ds rest : string) :
  allChars Str.isDigit ds = true -> Num.stops rest ->
  Str.spanDigits (ds ++ rest) = (ds, rest).
Proof.
  intros Hds Hrest. induction ds as [|c r IH].
  - destruct rest as [|c r]; [reflexivity|].
    simpl in *. now rewrite Hrest.
  - simpl in Hds. apply andb_true_iff in Hds as [Hc Hr].
    cbn [append Str.spanDigits]. now rewrite Hc, IH.
Qed.

Lemma spanDigits_all (ds : string) :
  allChars Str.isDigit ds = true -> Str.spanDigits ds = (ds, EmptyString).
Proof.
  intro H. rewrite <- (append_empty_r ds) at 1.
  now apply spanDigits_app.
Qed.

Lemma digit_starts_literal (c : ascii) (r : string) :
  Str.isDigit c = true ->
  Str.trimStart (String c r) = String c r
  /\ Num.sign (String c r) = (false, String c r)
  /\ String.prefix "Infinity" (String c r) = false.
Proof.
  destruct c as [[] [] [] [] [] [] [] []]; intro H; try discriminate H;
    repeat split.
Qed.

Lemma exponentPart_signedExponent (x : Z) :
  Num.exponentPart ("e" ++ Num.signedExponent x) = x.
Proof.
  unfold Num.signedExponent.
  assert (H : forall neg : bool,
             Num.exponentPart ("e" ++ (if neg then "-" else "+") ++ Str.ofN (Z.abs_N x))
             = if neg then (- Z.of_N (Z.abs_N x))%Z else Z.of_N (Z.abs_N x)).
  { intro neg.
    assert (Hs : Num.sign ((if neg then "-" else "+") ++ Str.ofN (Z.abs_N x))
                 = (neg, Str.ofN (Z.abs_N x))) by now destruct neg.
    cbn [append Num.exponentPart]. cbn [Ascii.eqb Bool.eqb orb].
    change (String (if neg then "-"%char else "+"%char) (Str.ofN (Z.abs_N x)))
      with ((if neg then "-" else "+") ++ Str.ofN (Z.abs_N x))%string || idtac.
    destruct neg; cbn [append Num.sign];
      rewrite (spanDigits_all _ (allChars_ofN _));
      pose proof (ofN_nonempty (Z.abs_N x)) as Hne;
      rewrite <- (ofN_value (Z.abs_N x)) at 2 || idtac;
      destruct (Str.ofN (Z.abs_N x)) eqn:E; try congruence;
      rewrite <- E, ofN_value; reflexivity. }
  rewrite H, N2Z.inj_abs_N.
  destruct (x <? 0)%Z eqn:Hx; [apply Z.ltb_lt in Hx|apply Z.ltb_ge in Hx]; lia.
Qed.

Lemma parseFloat_literal (neg : bool) (c : ascii) (ip' : string) (dot : bool)
      (fp expo : string) (x : Z) :
  allChars Str.isDigit (String c ip') = true ->
  allChars Str.isDigit fp = true ->
  (dot = false -> fp = EmptyString) ->
  (expo = EmptyString /\ x = 0%Z) \/ expo = ("e" ++ Num.signedExponent x)%string ->
  Num.parseFloat (Num.literal neg (String c ip') dot fp expo)
  = Num.ofDecimal neg (Str.digitsValue 0 (String c ip' ++ fp))
              (x - Z.of_nat (String.length fp)).
Proof.
  intros Hip Hfp Hdot Hexpo.
  assert (Hc : Str.isDigit c = true).
  { simpl in Hip. now apply andb_true_iff in Hip as [Hc _]. }
  set (body := (String c ip' ++ (if dot then "." ++ fp else "") ++ expo)%string).
  assert (Hstart : Str.trimStart (Num.literal neg (String c ip') dot fp expo)
                   = Num.literal neg (String c ip') dot fp expo
                   /\ Num.sign (Num.literal neg (String c ip') dot fp expo) = (neg, body)).
  { unfold Num.literal. fold body. destruct neg.
    - split; reflexivity.
    - unfold body. cbn [append].
      destruct (digit_starts_literal c
                  (ip' ++ (if dot then "." ++ fp else "") ++ expo) Hc)
        as (H1 & H2 & _).
      now split. }
  destruct Hstart as [Htrim Hsign].
  assert (Hinf : String.prefix "Infinity" body = false).
  { unfold body. cbn [append].
    now destruct (digit_starts_literal c
                    (ip' ++ (if dot then "." ++ fp else "") ++ expo) Hc)
      as (_ & _ & H3). }
  assert (Hstop : Num.stops expo).
  { destruct Hexpo as [[-> _]| ->]; [exact I|reflexivity]. }
  assert (Hexp : Num.exponentPart expo = x).
  { destruct Hexpo as [[-> ->]| ->]; [reflexivity|].
    apply exponentPart_signedExponent. }
  unfold Num.parseFloat. rewrite Htrim, Hsign, Hinf.
  unfold body.
  rewrite spanDigits_app; [|assumption|destruct dot; [reflexivity|exact Hstop]].
  destruct dot.
  - cbn [append]. rewrite spanDigits_app by assumption.
    cbn [append]. rewrite Hexp. reflexivity.
  - rewrite (Hdot eq_refl). cbn [append].
    assert (Hnodot : match expo with
                     | String "." r => Str.spanDigits r
                     | _ => (EmptyString, expo)
                     end = (EmptyString, expo)).
    { destruct Hexpo as [[-> _]| ->]; reflexivity. }
    rewrite Hnodot, append_empty_r, Hexp. cbn [append]. reflexivity.
Qed.

(** ** What [parseFloat] reads in the layouts of [toString] *)

Lemma substring_all (s : string) : String.substring 0 (String.length s) s = s.
Proof. induction s as [|c r IH]; simpl; [reflexivity|now rewrite IH]. Qed.

Lemma substring_split (n : nat) :
  forall ds,
    (n <= String.length ds)%nat ->
    (String.substring 0 n ds ++ String.substring n (String.length ds - n) ds)%string
    = ds
    /\ String.length (String.substring 0 n ds) = n.
Proof.
  induction n as [|n IH]; intros ds Hn.
  - rewrite Nat.sub_0_r, substring_all. destruct ds; split; reflexivity.
  - destruct ds as [|c r]; [simpl in Hn; lia|].
    simpl in Hn. destruct (IH r) as [H1 H2]; [lia|].
    cbn [String.substring String.length Nat.sub append].
    now rewrite H1, H2.
Qed.

Lemma parseFloat_layout (neg : bool) (ds : string) (n : Z) :
  ds <> EmptyString -> allChars Str.isDigit ds = true ->
  Num.parseFloat ((if neg then "-" else "") ++ Num.layout ds n)
  = Num.ofDecimal neg (Str.digitsValue 0 ds) (n - Z.of_nat (String.length ds)).
Proof.
  intros Hne Hds. destruct ds as [|c r]; [congruence|].
  set (ds := String c r) in *. set (k := Z.of_nat (String.length ds)).
  unfold Num.layout. fold k.
  destruct ((k <=? n)%Z && (n <=? 21)%Z) eqn:H1.
  { apply andb_true_iff in H1 as [Hkn _]. apply Z.leb_le in Hkn.
    set (i := Z.to_nat (n - k)).
    replace ((if neg then "-" else "") ++ ds ++ Str.repeat0 i)%string
      with (Num.literal neg (String c (r ++ Str.repeat0 i)) false EmptyString EmptyString)
      by (unfold Num.literal, ds; cbn [append]; now rewrite !append_empty_r).
    rewrite (parseFloat_literal neg c (r ++ Str.repeat0 i) false "" "" 0);
      [|change (String c (r ++ Str.repeat0 i)) with (ds ++ Str.repeat0 i)%string;
        now rewrite allChars_app, Hds, allChars_repeat0
       |reflexivity|reflexivity|now left].
    rewrite append_empty_r.
    change (String c (r ++ Str.repeat0 i)) with (ds ++ Str.repeat0 i)%string.
    rewrite digitsValue_app, digitsValue_repeat0.
    rewrite <- (ofDecimal_shift neg (Str.digitsValue 0 ds) i (n - k)).
    f_equal. unfold i. cbn [String.length]. lia. }
  destruct ((0 <? n)%Z && (n <=? 21)%Z) eqn:H2.
  { apply andb_true_iff in H2 as [H0n Hn21]. apply Z.ltb_lt in H0n.
    rewrite Hn21, andb_true_r in H1. apply Z.leb_gt in H1.
    destruct (substring_split (Z.to_nat n) ds) as [Hsplit Hlen]; [unfold k in H1; lia|].
    replace (Z.to_nat (k - n)) with (String.length ds - Z.to_nat n)%nat
      by (unfold k; lia).
    set (a := String.substring 0 (Z.to_nat n) ds) in *.
    set (b := String.substring (Z.to_nat n) (String.length ds - Z.to_nat n) ds) in *.
    assert (Hab : allChars Str.isDigit a = true /\ allChars Str.isDigit b = true).
    { rewrite <- Hsplit, allChars_app in Hds. now apply andb_true_iff in Hds. }
    destruct Hab as [Ha Hb].
    destruct a as [|ca ra]; [simpl in Hlen; lia|].
    replace ((if neg then "-" else "") ++ String ca ra ++ "." ++ b)%string
      with (Num.literal neg (String ca ra) true b EmptyString)
      by (unfold Num.literal; now rewrite append_empty_r).
    rewrite (parseFloat_literal neg ca ra true b "" 0);
      [|assumption|assumption|discriminate|now left].
    rewrite Hsplit. f_equal.
    assert (String.length ds = (String.length (String ca ra) + String.length b)%nat)
      by now rewrite <- length_append, Hsplit.
    unfold k. lia. }
  destruct ((-6 <? n)%Z && (n <=? 0)%Z) eqn:H3.
  { apply andb_true_iff in H3 as [_ Hn0]. apply Z.leb_le in Hn0.
    set (j := Z.to_nat (- n)).
    replace ((if neg then "-" else "") ++ "0." ++ Str.repeat0 j ++ ds)%string
      with (Num.literal neg "0" true (Str.repeat0 j ++ ds) EmptyString)
      by (unfold Num.literal; cbn [append]; now rewrite append_empty_r).
    rewrite (parseFloat_literal neg "0" "" true (Str.repeat0 j ++ ds) "" 0);
      [|reflexivity|now rewrite allChars_app, allChars_repeat0|discriminate|now left].
    change ("0" ++ Str.repeat0 j ++ ds)%string with (Str.repeat0 (S j) ++ ds)%string.
    rewrite digitsValue_leading0. f_equal.
    rewrite length_append, length_repeat0. unfold j, k. lia. }
  unfold ds. destruct r as [|c' r'].
  - replace ((if neg then "-" else "") ++ String c ("e" ++ Num.signedExponent (n - 1)))%string
      with (Num.literal neg (String c "") false EmptyString ("e" ++ Num.signedExponent (n - 1)))
      by reflexivity.
    rewrite (parseFloat_literal neg c "" false "" _ (n - 1));
      [|assumption|reflexivity|reflexivity|now right].
    rewrite append_empty_r. f_equal. unfold k, ds. cbn [String.length]. lia.
  - set (r := String c' r') in *.
    replace ((if neg then "-" else "")
             ++ String c ("." ++ r ++ "e" ++ Num.signedExponent (n - 1)))%string
      with (Num.literal neg (String c "") true r ("e" ++ Num.signedExponent (n - 1)))
      by (unfold Num.literal; cbn [append]; now rewrite ?append_assoc).
    simpl in Hds. apply andb_true_iff in Hds as [Hc Hr].
    rewrite (parseFloat_literal neg c "" true r _ (n - 1));
      [|simpl; now rewrite Hc|assumption|discriminate|now right].
    cbn [append]. f_equal. unfold k, ds. fold r. cbn [String.length]. lia.
Qed.

(** ** The round trip *)

Lemma parseFloat_positiveToString (neg : bool) (m : positive) (e : Z) :
  Num.finiteNumber m e ->
  Num.parseFloat ((if neg then "-" else "")
              ++ Num.positiveToString (S754_finite false m e) m e)
  = S754_finite neg m e.
Proof.
  intro Hv. unfold Num.positiveToString.
  pose proof (exactDecimal_exact m e Hv) as Hexact.
  destruct (Num.exactDecimal m e) as [D E]. cbn [fst snd] in Hexact.
  pose proof (shortestDigits_sound 17 1 (S754_finite false m e) D E
                (String.length (Str.ofN D)) Hexact) as Hsound.
  destruct (Num.shortestDigits 17 1 (S754_finite false m e) D E
              (String.length (Str.ofN D))) as [s q].
  cbn [fst snd] in Hsound.
  destruct (dropTrailingZeros_zeros (Str.ofN s)) as [j Hj].
  set (ds := Str.dropTrailingZeros (Str.ofN s)) in *.
  assert (Hval : s = (Str.digitsValue 0 ds * 10 ^ N.of_nat j)%N).
  { rewrite <- (ofN_value s) at 1. now rewrite Hj, digitsValue_app, digitsValue_repeat0. }
  assert (Hdigits : allChars Str.isDigit ds = true).
  { pose proof (allChars_ofN s) as H. rewrite Hj, allChars_app in H.
    now apply andb_true_iff in H. }
  assert (Hne : ds <> EmptyString).
  { intro H. rewrite H in Hval. simpl in Hval. subst s. discriminate Hsound. }
  rewrite parseFloat_layout by assumption.
  assert (Hlen : String.length (Str.ofN s) = (String.length ds + j)%nat).
  { rewrite Hj at 1. now rewrite length_append, length_repeat0. }
  rewrite Hlen.
  replace (Z.of_nat (String.length ds + j) + q - Z.of_nat (String.length ds))%Z
    with (q + Z.of_nat j)%Z by lia.
  rewrite <- (ofDecimal_shift neg (Str.digitsValue 0 ds) j (q + Z.of_nat j)).
  rewrite <- Hval. replace (q + Z.of_nat j - Z.of_nat j)%Z with q by lia.
  destruct neg; [|exact Hsound].
  now rewrite ofDecimal_sign, Hsound.
Qed.

(** [parseFloat] reads every Number back from its decimal form, but for
    the sign of the zero: the decimal form of -0 is the one of 0. *)
Theorem parseFloatNumber_isNumber (x : Num.number) :
  Num.isNumber x = true ->
  Num.parseFloatNumber x = Num.readBack x.
Proof.
  intro Hv. unfold Num.parseFloatNumber.
  destruct x as [s|s| |s m e]; [reflexivity|now destruct s|reflexivity|].
  destruct s; cbn [Num.toString].
  - apply (parseFloat_positiveToString true m e Hv).
  - apply (parseFloat_positiveToString false m e Hv).
Qed.

(** ** Sums *)

Lemma shr_1_half (mrs : shr_record) :
  (0 <= shr_m mrs)%Z -> shr_m (shr_1 mrs) = (shr_m mrs / 2)%Z.
Proof.
  intro H. rewrite <- Z.div2_div.
  destruct mrs as [m r s]. cbn [shr_m] in *.
  destruct m as [|p|p]; [reflexivity| |lia].
  destruct p; reflexivity.
Qed.

Lemma shr_iter_m (n : nat) (mrs : shr_record) :
  (0 <= shr_m mrs)%Z ->
  shr_m (Nat.iter n shr_1 mrs) = (shr_m mrs / 2 ^ Z.of_nat n)%Z.
Proof.
  intro H. induction n as [|n IH].
  - simpl. now rewrite Z.div_1_r.
  - rewrite Nat.iter_succ, shr_1_half.
    + rewrite IH, Nat2Z.inj_succ, Z.pow_succ_r by lia.
      rewrite Z.div_div by (try apply Z.pow_pos_nonneg; lia).
      now rewrite Z.mul_comm.
    + rewrite IH. apply Z.div_pos; [assumption|apply Z.pow_pos_nonneg; lia].
Qed.

Lemma shr_record_of_loc_m (m : Z) (l : location) :
  shr_m (shr_record_of_loc m l) = m.
Proof. destruct l as [|[]]; reflexivity. Qed.

Lemma shr_fexp_keeps (m e : Z) (l : location) :
  (1 <= m)%Z -> (emin Num.prec Num.emax <= e)%Z ->
  (1 <= shr_m (fst (shr_fexp Num.prec Num.emax m e l)))%Z
  /\ (emin Num.prec Num.emax <= snd (shr_fexp Num.prec Num.emax m e l))%Z.
Proof.
  intros Hm He. destruct m as [|p|p]; [lia| |lia].
  unfold shr_fexp, shr. cbn [Zdigits2].
  destruct (digits2_bounds p) as [Hlo _].
  set (d := Zpos (digits2_pos p)) in *.
  destruct (fexp Num.prec Num.emax (d + e) - e)%Z as [|q|q] eqn:Hn; cbn [fst snd];
    rewrite ?shr_record_of_loc_m; try (split; lia).
  split.
  - rewrite iter_pos_nat, shr_iter_m, shr_record_of_loc_m, positive_nat_Z
      by (rewrite shr_record_of_loc_m; lia).
    assert (Hq : (Zpos q <= d - 1)%Z).
    { unfold fexp, emin, Num.prec, Num.emax in *. lia. }
    assert (2 ^ Zpos q <= 2 ^ (d - 1))%Z by (apply Z.pow_le_mono_r; lia).
    assert (0 < 2 ^ Zpos q)%Z by (apply Z.pow_pos_nonneg; lia).
    apply Z.div_le_lower_bound; lia.
  - unfold fexp, emin, Num.prec, Num.emax in *. lia.
Qed.

Lemma round_nearest_even_ge (m : Z) (l : location) :
  (m <= round_nearest_even m l)%Z.
Proof.
  destruct l as [|[]]; cbn [round_nearest_even]; try lia.
  destruct (Z.even m); lia.
Qed.

Lemma binary_round_aux_rounded (s : bool) (m e : Z) (l : location) :
  (1 <= m)%Z -> (emin Num.prec Num.emax <= e)%Z ->
  Num.rounded (binary_round_aux Num.prec Num.emax s m e l).
Proof.
  intros Hm He. unfold binary_round_aux.
  destruct (shr_fexp_keeps m e l Hm He) as [H1 H2].
  destruct (shr_fexp Num.prec Num.emax m e l) as [mrs e1]. cbn [fst snd] in H1, H2.
  pose proof (round_nearest_even_ge (shr_m mrs) (loc_of_shr_record mrs)) as Hr.
  set (m2 := round_nearest_even (shr_m mrs) (loc_of_shr_record mrs)) in *.
  destruct (shr_fexp_keeps m2 e1 loc_Exact) as [H3 H4]; [lia|assumption|].
  destruct (shr_fexp Num.prec Num.emax m2 e1 loc_Exact) as [mrs' e2].
  cbn [fst snd] in H3, H4.
  destruct (shr_m mrs') as [|q|q]; [lia| |lia].
  destruct (e2 <=? Num.emax - Num.prec)%Z; [exact H4|exact I].
Qed.

Lemma binary_round_rounded (s : bool) (m : positive) (e : Z) :
  (emin Num.prec Num.emax <= e)%Z -> Num.rounded (binary_round Num.prec Num.emax s m e).
Proof.
  intro He. unfold binary_round, shl_align.
  destruct (fexp Num.prec Num.emax (Zpos (digits2_pos m) + e) - e)%Z eqn:Hn;
    apply binary_round_aux_rounded; try lia.
  unfold fexp, emin, Num.prec, Num.emax in *. lia.
Qed.

Lemma rounded_total (x : Num.number) : Num.rounded x -> Num.runningTotal x.
Proof. destruct x; simpl; intro H; split; try discriminate; tauto. Qed.

Lemma isNumber_aboveEmin (x : Num.number) : Num.isNumber x = true -> Num.aboveEmin x.
Proof.
  destruct x as [| | |s m e]; try exact (fun _ => I).
  intro H. destruct (finiteNumber_canonical m e H) as [Hc _].
  simpl. rewrite <- Hc. unfold fexp. lia.
Qed.

(** A running runningTotal stays one when a value is added to it. *)
Lemma add_total (acc x : Num.number) :
  Num.runningTotal acc -> Num.aboveEmin x -> Num.runningTotal (Num.add acc x).
Proof.
  intros [Hacc Hea] Hex. unfold Num.add.
  destruct acc as [[]|sa| |sa ma ea]; [congruence|..];
    destruct x as [sx|sx| |sx mx ex]; cbn [SFadd];
    try (repeat match goal with b : bool |- _ => destruct b end;
         (split; [discriminate|first [exact I|assumption]])).
  cbn [Num.aboveEmin] in Hea, Hex.
  set (ez := Z.min ea ex).
  destruct (cond_Zopp sa (Zpos (fst (shl_align ma ea ez)))
            + cond_Zopp sx (Zpos (fst (shl_align mx ex ez))))%Z;
    cbn [binary_normalize].
  - split; [discriminate|exact I].
  - apply rounded_total, binary_round_rounded. unfold ez. lia.
  - apply rounded_total, binary_round_rounded. unfold ez. lia.
Qed.

(** Adding what [parseFloat] makes of a Number is adding that Number. *)
Lemma add_parseFloatNumber (acc x : Num.number) :
  acc <> S754_zero true -> Num.isNumber x = true ->
  Num.add acc (Num.parseFloatNumber x) = Num.add acc x.
Proof.
  intros Hacc Hx. rewrite parseFloatNumber_isNumber by assumption.
  destruct x as [s| | |]; try reflexivity.
  destruct s; [|reflexivity].
  destruct acc as [[]| | |]; try reflexivity. congruence.
Qed.

Lemma sum_parseFloatNumber (xs : list Num.number) :
  forall acc,
    Num.runningTotal acc -> Forall (fun x => Num.isNumber x = true) xs ->
    fold_left Num.add (map Num.parseFloatNumber xs) acc = fold_left Num.add xs acc.
Proof.
  induction xs as [|x r IH]; intros acc Hacc Hxs; [reflexivity|].
  inversion Hxs as [|? ? Hx Hr]; subst. cbn [map fold_left].
  rewrite add_parseFloatNumber by (try apply Hacc; assumption).
  apply IH; [|assumption].
  apply add_total; [assumption|now apply isNumber_aboveEmin].
Qed.



(** ** What rounding returns is a Number *)

Lemma fexp_facts (x : Z) :
  (emin Num.prec Num.emax <= fexp Num.prec Num.emax x)%Z
  /\ (fexp Num.prec Num.emax x <= fexp Num.prec Num.emax (x + 1)
      <= fexp Num.prec Num.emax x + 1)%Z
  /\ (x - 53 <= fexp Num.prec Num.emax x)%Z
  /\ (fexp Num.prec Num.emax x = emin Num.prec Num.emax
      \/ fexp Num.prec Num.emax x = x - 53)%Z.
Proof. unfold fexp, emin, Num.prec, Num.emax. lia. Qed.

Lemma fexp_monotone (x y : Z) :
  (x <= y)%Z -> (fexp Num.prec Num.emax x <= fexp Num.prec Num.emax y)%Z.
Proof. unfold fexp. lia. Qed.

Lemma Zdigits2_nonneg (m : Z) : (0 <= Zdigits2 m)%Z.
Proof. destruct m; simpl; lia. Qed.

Lemma Zdigits2_bounds (m : Z) :
  (1 <= m)%Z -> (2 ^ (Zdigits2 m - 1) <= m < 2 ^ Zdigits2 m)%Z.
Proof.
  intro H. destruct m as [|p|p]; [lia| |lia]. apply digits2_bounds.
Qed.

Lemma Zdigits2_unique (m d : Z) :
  (2 ^ (d - 1) <= m < 2 ^ d)%Z -> (1 <= m)%Z -> Zdigits2 m = d.
Proof.
  intros H Hm. destruct m as [|p|p]; [lia| |lia]. now apply digits2_unique.
Qed.

Lemma Zdigits2_lt (m : Z) : (0 <= m)%Z -> (m < 2 ^ Zdigits2 m)%Z.
Proof.
  intro H. destruct (Z.eq_dec m 0) as [->|Hm]; [reflexivity|].
  apply Zdigits2_bounds. lia.
Qed.

(** The digits of a mantissa shifted to the right. *)
Lemma Zdigits2_shr (m n : Z) :
  (0 <= m)%Z -> (0 <= n)%Z ->
  Zdigits2 (m / 2 ^ n) = Z.max (Zdigits2 m - n) 0.
Proof.
  intros Hm Hn.
  assert (Hpow : (0 < 2 ^ n)%Z) by (apply Z.pow_pos_nonneg; lia).
  destruct (Z.eq_dec m 0) as [->|Hm0].
  { rewrite Z.div_0_l by lia. simpl. lia. }
  destruct (Zdigits2_bounds m) as [Hlo Hhi]; [lia|].
  set (d := Zdigits2 m) in *.
  destruct (Z.lt_ge_cases n d) as [Hnd|Hnd].
  - rewrite Z.max_l by lia. apply Zdigits2_unique.
    + split.
      * apply Z.div_le_lower_bound; [lia|].
        rewrite Z.mul_comm, <- Z.pow_add_r by lia.
        now replace (d - n - 1 + n)%Z with (d - 1)%Z by lia.
      * apply Z.div_lt_upper_bound; [lia|].
        rewrite <- Z.pow_add_r by lia.
        now replace (n + (d - n))%Z with d by lia.
    + apply Z.div_le_lower_bound; [lia|].
      assert (2 ^ n <= 2 ^ (d - 1))%Z by (apply Z.pow_le_mono_r; lia). lia.
  - rewrite Z.max_r by lia.
    assert (2 ^ d <= 2 ^ n)%Z by (apply Z.pow_le_mono_r; lia).
    rewrite Z.div_small by lia. reflexivity.
Qed.

(** The digits of the mantissa next to [m]. *)
Lemma Zdigits2_succ (m : Z) :
  (0 <= m)%Z ->
  Zdigits2 (m + 1) = Zdigits2 m
  \/ (Zdigits2 (m + 1) = Zdigits2 m + 1 /\ m + 1 = 2 ^ Zdigits2 m)%Z.
Proof.
  intro Hm. destruct (Z.eq_dec m 0) as [->|Hm0]; [right; split; reflexivity|].
  destruct (Zdigits2_bounds m) as [Hlo Hhi]; [lia|].
  set (d := Zdigits2 m) in *.
  assert (Hd : (1 <= d)%Z).
  { destruct m as [|p|p]; [lia| |lia]. unfold d. simpl. lia. }
  destruct (Z.eq_dec (m + 1) (2 ^ d)) as [E|E].
  - right. split; [|exact E]. apply Zdigits2_unique; [|lia].
    replace (d + 1 - 1)%Z with d by lia. rewrite Z.pow_add_r by lia. lia.
  - left. apply Zdigits2_unique; lia.
Qed.

(** What [shr] leaves of the mantissa, and the exponent it returns. *)
Lemma shr_result (mrs : shr_record) (e n : Z) :
  (0 <= shr_m mrs)%Z ->
  shr_m (fst (shr mrs e n)) = (shr_m mrs / 2 ^ Z.max n 0)%Z
  /\ snd (shr mrs e n) = (e + Z.max n 0)%Z.
Proof.
  intro H. destruct n as [|p|p]; cbn [shr fst snd].
  - rewrite Z.max_l by lia. now rewrite Z.pow_0_r, Z.div_1_r, Z.add_0_r.
  - rewrite Z.max_l by lia.
    now rewrite iter_pos_nat, shr_iter_m, positive_nat_Z.
  - rewrite Z.max_r by lia. now rewrite Z.pow_0_r, Z.div_1_r, Z.add_0_r.
Qed.

Lemma shr_fexp_canonical (m e : Z) (l : location) :
  Num.enoughBits m e ->
  Num.canonicalOrZero (shr_m (fst (shr_fexp Num.prec Num.emax m e l)))
                      (snd (shr_fexp Num.prec Num.emax m e l)).
Proof.
  intros [Hm He]. unfold shr_fexp.
  destruct (shr_result (shr_record_of_loc m l) e
              (fexp Num.prec Num.emax (Zdigits2 m + e) - e))
    as [H1 H2]; [now rewrite shr_record_of_loc_m|].
  rewrite H1, H2, shr_record_of_loc_m.
  set (f := fexp Num.prec Num.emax (Zdigits2 m + e)) in *.
  rewrite Z.max_l by lia.
  replace (e + (f - e))%Z with f by lia.
  split.
  - apply Z.div_pos; [assumption|apply Z.pow_pos_nonneg; lia].
  - rewrite Zdigits2_shr by lia.
    pose proof (Zdigits2_nonneg m) as Hd.
    destruct (Z.le_gt_cases (f - e) (Zdigits2 m)) as [Hle|Hgt].
    + rewrite Z.max_l by lia.
      replace (Zdigits2 m - (f - e) + f)%Z with (Zdigits2 m + e)%Z by lia.
      reflexivity.
    + rewrite Z.max_r by lia.
      unfold f in *. unfold fexp, emin, Num.prec, Num.emax in *. lia.
Qed.

Lemma round_nearest_even_cases (m : Z) (l : location) :
  round_nearest_even m l = m \/ round_nearest_even m l = (m + 1)%Z.
Proof.
  destruct l as [|[]]; cbn [round_nearest_even]; auto.
  destruct (Z.even m); auto.
Qed.

(** The second shift of [binary_round_aux]: nothing, or one bit when the
    rounding has carried into one more digit. *)
Lemma shr_fexp_rounded (m1 m2 e1 : Z) :
  Num.canonicalOrZero m1 e1 -> m2 = m1 \/ m2 = (m1 + 1)%Z ->
  Num.canonicalOrZero
    (shr_m (fst (shr_fexp Num.prec Num.emax m2 e1 loc_Exact)))
    (snd (shr_fexp Num.prec Num.emax m2 e1 loc_Exact))
  \/ shr_m (fst (shr_fexp Num.prec Num.emax m2 e1 loc_Exact)) = 0%Z.
Proof.
  intros [Hm1 Hc] Hm2. left.
  assert (H0 : (0 <= m2)%Z) by lia.
  unfold shr_fexp.
  destruct (shr_result (shr_record_of_loc m2 loc_Exact) e1
              (fexp Num.prec Num.emax (Zdigits2 m2 + e1) - e1))
    as [H1 H2]; [exact H0|].
  rewrite H1, H2. cbn [shr_record_of_loc shr_m].
  assert (Hsame : Zdigits2 m2 = Zdigits2 m1 ->
            Num.canonicalOrZero
              (m2 / 2 ^ Z.max (fexp Num.prec Num.emax (Zdigits2 m2 + e1) - e1) 0)
              (e1 + Z.max (fexp Num.prec Num.emax (Zdigits2 m2 + e1) - e1) 0)).
  { intro E. rewrite E, Hc, Z.sub_diag, Z.max_r by lia.
    rewrite Z.pow_0_r, Z.div_1_r, Z.add_0_r. split; [exact H0|].
    now rewrite E. }
  destruct Hm2 as [->| ->]; [now apply Hsame|].
  destruct (Zdigits2_succ m1 Hm1) as [E|[E Hpow]]; [now apply Hsame|].
  rewrite E.
  destruct (fexp_facts (Zdigits2 m1 + e1)) as (Hmin & Hstep & _ & Hform).
  rewrite Hc in Hstep, Hform, Hmin.
  replace (Zdigits2 m1 + 1 + e1)%Z with (Zdigits2 m1 + e1 + 1)%Z by lia.
  set (f' := fexp Num.prec Num.emax (Zdigits2 m1 + e1 + 1)) in *.
  assert (Hd1 : (0 <= Zdigits2 m1)%Z) by apply Zdigits2_nonneg.
  assert (Hf : (f' = e1 \/ f' = e1 + 1)%Z) by lia.
  destruct Hf as [Hf|Hf].
  - rewrite Hf, Z.sub_diag, Z.max_r by lia.
    rewrite Z.pow_0_r, Z.div_1_r, Z.add_0_r. split; [lia|].
    rewrite E. replace (Zdigits2 m1 + 1 + e1)%Z with (Zdigits2 m1 + e1 + 1)%Z by lia.
    exact Hf.
  - replace (f' - e1)%Z with 1%Z by lia. rewrite Z.max_l by lia.
    split; [apply Z.div_pos; lia|].
    rewrite Zdigits2_shr by lia. rewrite E.
    assert (Hpos : (1 <= Zdigits2 m1)%Z).
    { destruct (Z.eq_dec (Zdigits2 m1) 0) as [Z0|]; [|lia].
      exfalso. rewrite Z0 in *. unfold f' in Hf.
      unfold fexp, emin, Num.prec, Num.emax in *. lia. }
    rewrite Z.max_l by lia.
    replace (Zdigits2 m1 + 1 - 1 + (e1 + 1))%Z with (Zdigits2 m1 + e1 + 1)%Z by lia.
    exact Hf.
Qed.

Lemma binary_round_aux_isNumber (s : bool) (m e : Z) (l : location) :
  Num.enoughBits m e ->
  Num.isNumber (binary_round_aux Num.prec Num.emax s m e l) = true.
Proof.
  intro Hpre. unfold binary_round_aux.
  pose proof (shr_fexp_canonical m e l Hpre) as H1.
  destruct (shr_fexp Num.prec Num.emax m e l) as [mrs e1].
  cbn [fst snd] in H1.
  pose proof (shr_fexp_rounded (shr_m mrs)
                (round_nearest_even (shr_m mrs) (loc_of_shr_record mrs)) e1 H1
                (round_nearest_even_cases _ _)) as H2.
  destruct (shr_fexp Num.prec Num.emax
              (round_nearest_even (shr_m mrs) (loc_of_shr_record mrs)) e1
              loc_Exact) as [mrs' e2].
  cbn [fst snd] in H2.
  destruct (shr_m mrs') as [|p|p] eqn:Hm; [reflexivity| |reflexivity].
  destruct H2 as [[_ Hc]|H2]; [|discriminate].
  destruct (e2 <=? Num.emax - Num.prec)%Z eqn:Hb; [|reflexivity].
  unfold Num.isNumber. cbn [valid_binary]. unfold bounded, canonical_mantissa.
  cbn [Zdigits2] in Hc. rewrite Hc, Z.eqb_refl, Hb. reflexivity.
Qed.

Lemma iter_xO_pow2 (m k : positive) :
  Zpos (Pos.iter xO m k) = (Zpos m * 2 ^ Zpos k)%Z.
Proof.
  rewrite <- Z.shiftl_mul_pow2 by lia.
  revert m. induction k using Pos.peano_ind; intro m.
  - reflexivity.
  - rewrite Pos.iter_succ, Pos2Z.inj_xO, IHk.
    rewrite <- Pos.add_1_r, Pos2Z.inj_add.
    rewrite <- Z.shiftl_shiftl by lia.
    now rewrite (Z.shiftl_mul_pow2 _ 1), Z.pow_1_r, Z.mul_comm by lia.
Qed.

Lemma binary_round_isNumber (s : bool) (m : positive) (e : Z) :
  Num.isNumber (binary_round Num.prec Num.emax s m e) = true.
Proof.
  unfold binary_round, shl_align.
  destruct (fexp Num.prec Num.emax (Zpos (digits2_pos m) + e) - e)%Z
    as [|k|k] eqn:Hk; apply binary_round_aux_isNumber; split; try lia;
    cbn [Zdigits2]; try lia.
  rewrite (digits2_shift m (Pos.iter xO m k) (Zpos k));
    [|lia|apply iter_xO_pow2].
  replace (Zpos (digits2_pos m) + Zpos k
           + fexp Num.prec Num.emax (Zpos (digits2_pos m) + e))%Z
    with (Zpos (digits2_pos m) + e)%Z by lia.
  lia.
Qed.

(** The quotient of two integers is a Number. *)
Lemma SFdiv_isNumber (s : bool) (a b : positive) :
  Num.isNumber (SFdiv Num.prec Num.emax (S754_finite s a 0)
                      (S754_finite false b 0)) = true.
Proof.
  cbn [SFdiv]. unfold SFdiv_core_binary. cbn [Zdigits2].
  rewrite !Z.add_0_r, Z.sub_diag.
  set (d1 := Zpos (digits2_pos a)). set (d2 := Zpos (digits2_pos b)).
  set (e' := Z.min (fexp Num.prec Num.emax (d1 - d2)) 0).
  assert (He' : (e' <= 0)%Z) by (unfold e'; lia).
  assert (Hsh : (match (0 - e')%Z with
                 | Zpos _ => Z.shiftl (Zpos a) (0 - e')
                 | Z0 => Zpos a
                 | Zneg _ => 0
                 end = Zpos a * 2 ^ (- e'))%Z).
  { destruct (0 - e')%Z as [|p|p] eqn:Hs; [| |lia].
    - replace (- e')%Z with 0%Z by lia. simpl. lia.
    - rewrite Z.shiftl_mul_pow2 by lia. now replace (- e')%Z with (Zpos p) by lia. }
  rewrite Hsh.
  assert (Hpow : (0 < 2 ^ (- e'))%Z) by (apply Z.pow_pos_nonneg; lia).
  pose proof (Z.div_eucl_eq (Zpos a * 2 ^ (- e')) (Zpos b)) as Heq.
  pose proof (Z.mod_pos_bound (Zpos a * 2 ^ (- e')) (Zpos b)) as Hmod.
  pose proof (Z.div_pos (Zpos a * 2 ^ (- e')) (Zpos b)) as Hquo.
  unfold Z.modulo, Z.div in Hmod, Hquo.
  destruct (Z.div_eucl (Zpos a * 2 ^ (- e')) (Zpos b)) as [q r].
  specialize (Heq ltac:(lia)). specialize (Hmod ltac:(lia)).
  specialize (Hquo ltac:(lia) ltac:(lia)).
  apply binary_round_aux_isNumber. split; [exact Hquo|].
  assert (Hdigits : (d1 - e' - d2 <= Zdigits2 q)%Z).
  { destruct (digits2_bounds a) as [Alo _].
    destruct (digits2_bounds b) as [_ Bhi].
    fold d1 in Alo. fold d2 in Bhi.
    pose proof (Zdigits2_lt q Hquo) as Hq.
    pose proof (Zdigits2_nonneg q) as Hq0.
    assert (H1 : (2 ^ (d1 - 1 + - e') <= Zpos a * 2 ^ (- e'))%Z).
    { rewrite Z.pow_add_r by (unfold d1; lia). nia. }
    assert (H2 : (Zpos a * 2 ^ (- e') < 2 ^ (Zdigits2 q + d2))%Z).
    { rewrite Z.pow_add_r by (unfold d2; lia). nia. }
    assert (d1 - 1 + - e' < Zdigits2 q + d2)%Z.
    { apply (Z.pow_lt_mono_r_iff 2); [lia|unfold d2; lia|lia]. }
    lia. }
  assert (Hmono : (fexp Num.prec Num.emax (d1 - d2)
                   <= fexp Num.prec Num.emax (Zdigits2 q + e'))%Z)
    by (apply fexp_monotone; lia).
  unfold e' in *. lia.
Qed.

Lemma ofDecimal_isNumber (neg : bool) (m : N) (e : Z) :
  Num.isNumber (Num.ofDecimal neg m e) = true.
Proof.
  destruct m as [|p]; [reflexivity|].
  cbn [Num.ofDecimal]. destruct (Num.normalDecimal p e) as [p0 e0].
  unfold Num.roundDecimal.
  destruct e0; [apply binary_round_isNumber..|apply SFdiv_isNumber].
Qed.

(** What [parseFloat] returns is a Number, whatever the text. *)
Theorem parseFloat_isNumber (input : string) :
  Num.isNumber (Num.parseFloat input) = true.
Proof.
  unfold Num.parseFloat.
  destruct (Num.sign (Str.trimStart input)) as [neg s1].
  destruct (String.prefix "Infinity" s1); [reflexivity|].
  destruct (Str.spanDigits s1) as [ip s2].
  destruct (match s2 with
            | String "." r => Str.spanDigits r
            | _ => (EmptyString, s2)
            end) as [fp s3].
  destruct (ip ++ fp)%string; [reflexivity|apply ofDecimal_isNumber].
Qed.

End DecimalForm.

(** ** Calculations *)

Lemma fold_add_map {A} (g : A -> Num.number) (xs : list A) :
  forall acc,
    fold_left (fun total x => Num.add total (g x)) xs acc
    = fold_left Num.add (map g xs) acc.
Proof.
  induction xs as [|x r IH]; intro acc; simpl; [reflexivity|apply IH].
Qed.

(** [parseFloat] maps NaN, the two infinities and 0 to themselves, and -0
    to 0. *)
Lemma parseFloatNumber_special :
  Num.parseFloatNumber Num.NaN = Num.NaN
  /\ Num.parseFloatNumber (S754_infinity false) = S754_infinity false
  /\ Num.parseFloatNumber (S754_infinity true) = S754_infinity true
  /\ Num.parseFloatNumber Num.zero = Num.zero
  /\ Num.parseFloatNumber (S754_zero true) = Num.zero.
Proof. repeat split. Qed.

(** The reduce of the two totals: adding what [parseFloat] makes of each
    Number, from 0, is adding the Numbers. *)
Lemma total_is_sum {A} (value : A -> Num.number) (xs : list A) :
  Forall (fun x => Num.isNumber (value x) = true) xs ->
  fold_left (fun total x => Num.add total (Num.parseFloatNumber (value x)))
            xs Num.zero
  = Num.sum (map value xs).
Proof.
  intro H. unfold Num.sum.
  rewrite (fold_add_map (fun x => Num.parseFloatNumber (value x))).
  rewrite <- (map_map value Num.parseFloatNumber).
  apply sum_parseFloatNumber.
  - split; [discriminate|exact I].
  - now apply Forall_map.
Qed.

Lemma find_absent {A} (p : A -> bool) (xs : list A) :
  (forall x, In x xs -> p x = false) -> find p xs = None.
Proof.
  induction xs as [|x r IH]; intro H; simpl; [reflexivity|].
  rewrite (H x (or_introl eq_refl)). apply IH.
  intros y Hy. apply H. now right.
Qed.

Lemma find_first {A} (p : A -> bool) (before after : list A) (x : A) :
  (forall y, In y before -> p y = false) -> p x = true ->
  find p (before ++ x :: after) = Some x.
Proof.
  induction before as [|y r IH]; intros Hb Hx; simpl.
  - now rewrite Hx.
  - rewrite (Hb y (or_introl eq_refl)). apply IH; [|assumption].
    intros z Hz. apply Hb. now right.
Qed.

Lemma strictEq_false (x d : string) : x <> d -> strictEq x (Some d) = false.
Proof. intro H. simpl. now apply String.eqb_neq. Qed.

Lemma truthy_nonempty (s : string) : s <> EmptyString -> Str.truthy s = true.
Proof. destruct s; [congruence|reflexivity]. Qed.

(** C2. [calculateAssetEquity(a)] is [a.currentValue] when
    [a.associatedDebtId] is null or empty, and when no liability of the
    store has that id, which is the case once the linked liability has
    been deleted; it is [a.currentValue - l.currentBalance] when [l] is the
    liability of the store with that id (the first one, should there be
    several; the ids that [generateId] makes are not empty). The result
    can be negative. *)
Theorem calculateAssetEquity_cases (st : State) (a : Asset.t) :
  (truthyId (Asset.associatedDebtId a) = false ->
   calculateAssetEquity st a = Asset.currentValue a)
  /\ (forall d, Asset.associatedDebtId a = Some d ->
        (forall l, In l (liabilities st) -> Liability.id l <> d) ->
        calculateAssetEquity st a = Asset.currentValue a)
  /\ (forall d before l after,
        Asset.associatedDebtId a = Some d -> d <> EmptyString ->
        liabilities st = before ++ l :: after ->
        Liability.id l = d ->
        (forall l', In l' before -> Liability.id l' <> d) ->
        calculateAssetEquity st a
        = Num.sub (Asset.currentValue a) (Liability.currentBalance l))
  /\ (forall d, Asset.associatedDebtId a = Some d ->
        calculateAssetEquity (stateOf (deleteLiability d true st)) a
        = Asset.currentValue a)
  /\ Num.ltb (calculateAssetEquity
                (set_liabilities [Sample.loan 1000 400] initialState)
                Sample.car) Num.zero = true.
Proof.
  unfold calculateAssetEquity.
  split; [|split; [|split; [|split]]].
  - intros ->. reflexivity.
  - intros d Hd Hnone. rewrite Hd.
    destruct (negb (truthyId (Some d))); [reflexivity|].
    rewrite find_absent; [reflexivity|].
    intros l Hl. apply strictEq_false. now apply Hnone.
  - intros d before l after Hd Hne Hst Hid Hfirst. rewrite Hd, Hst.
    simpl truthyId. rewrite (truthy_nonempty d Hne). simpl negb. cbv iota.
    rewrite (find_first _ before after l); [reflexivity| |].
    + intros l' Hl'. apply strictEq_false. now apply Hfirst.
    + simpl. subst d. apply String.eqb_refl.
  - intros d Hd. rewrite Hd.
    destruct (negb (truthyId (Some d))); [reflexivity|].
    rewrite find_absent; [reflexivity|].
    intros l Hl. rewrite deleteLiability_result in Hl. simpl in Hl.
    apply filter_In in Hl as [_ Hl].
    simpl. now apply negb_true_iff in Hl.
  - vm_compute. reflexivity.
Qed.

Lemma calculateAssetEquity_sample :
  calculateAssetEquity Sample.store Sample.home = Num.ofZ 110000
  /\ calculateAssetEquity (stateOf (deleteLiability "l1" true Sample.store))
                          Sample.home = Num.ofZ 350000
  /\ calculateAssetEquity (set_liabilities [] Sample.store) Sample.home
     = Num.ofZ 350000
  /\ calculateAssetEquity Sample.store
       {| Asset.id := "a3"; Asset.name := "Cash"; Asset.category := "Cash";
          Asset.purchaseDate := "2019-01-01"; Asset.purchasePrice := Num.zero;
          Asset.currentValue := Num.ofZ 15000; Asset.associatedDebtId := None;
          Asset.notes := EmptyString; Asset.createdAt := "t4";
          Asset.updatedAt := "t4" |} = Num.ofZ 15000.
Proof.
  split; [|split; [|split]].
  - destruct (calculateAssetEquity_cases Sample.store Sample.home)
      as (_ & _ & H & _).
    rewrite (H "l1" [] Sample.mortgage []);
      [vm_compute; reflexivity|reflexivity|discriminate|reflexivity
      |reflexivity|intros l' []].
  - destruct (calculateAssetEquity_cases Sample.store Sample.home)
      as (_ & _ & _ & H & _).
    rewrite (H "l1"); [vm_compute; reflexivity|reflexivity].
  - destruct (calculateAssetEquity_cases (set_liabilities [] Sample.store)
                                         Sample.home) as (_ & H & _).
    rewrite (H "l1"); [vm_compute; reflexivity|reflexivity|intros l []].
  - match goal with |- calculateAssetEquity _ ?a = _ =>
      destruct (calculateAssetEquity_cases Sample.store a) as (H & _) end.
    rewrite H; reflexivity.
Defined.

Lemma ofZ_100 : exists m e, Num.ofZ 100 = S754_finite false m e.
Proof. vm_compute. eauto. Qed.

(** C8. [calculatePayoffPercentage] is
    [(originalAmount - currentBalance) / originalAmount * 100] in binary64
    arithmetic, 60 for an original amount of 1000 and a balance of 400.
    For an original amount of 0 it does not fail and does not return 0:
    the result is never finite; it is NaN for a balance of 0 and -Infinity
    for a balance of 400. *)
Theorem calculatePayoffPercentage_formula (l : Liability.t) :
  calculatePayoffPercentage l
  = Num.mul (Num.div (Num.sub (Liability.originalAmount l)
                              (Liability.currentBalance l))
                     (Liability.originalAmount l)) (Num.ofZ 100)
  /\ calculatePayoffPercentage (Sample.loan 1000 400) = Num.ofZ 60
  /\ ((exists s, Liability.originalAmount l = S754_zero s) ->
      Num.isFinite (calculatePayoffPercentage l) = false)
  /\ calculatePayoffPercentage (Sample.loan 0 0) = Num.NaN
  /\ calculatePayoffPercentage (Sample.loan 0 400) = S754_infinity true.
Proof.
  split; [reflexivity|].
  split; [vm_compute; reflexivity|].
  split; [|split; vm_compute; reflexivity].
  intros [s Hs]. unfold calculatePayoffPercentage. rewrite Hs.
  destruct ofZ_100 as (m & e & ->).
  destruct (Liability.currentBalance l) as [[|]|[|]| |[|] mb eb], s;
    reflexivity.
Qed.

Lemma calculatePayoffPercentage_sample :
  Num.isFinite (calculatePayoffPercentage (Sample.loan 0 400)) = false.
Proof.
  apply (calculatePayoffPercentage_formula (Sample.loan 0 400)).
  exists false. reflexivity.
Defined.

Lemma calculatePayoffPercentage_of_zero_is_not_zero :
  calculatePayoffPercentage (Sample.loan 0 0) <> Num.zero
  /\ Num.eqb (calculatePayoffPercentage (Sample.loan 0 0)) Num.zero = false.
Proof. split; [vm_compute; discriminate|vm_compute; reflexivity]. Qed.

(** ** Form submissions *)

Lemma find_split {A} (p : A -> bool) (xs : list A) (x : A) :
  find p xs = Some x ->
  exists before after,
    xs = before ++ x :: after /\ p x = true
    /\ (forall y, In y before -> p y = false).
Proof.
  induction xs as [|y r IH]; simpl; [discriminate|].
  destruct (p y) eqn:Hy.
  - intros [= ->]. exists [], r. repeat split; [assumption|intros z []].
  - intro H. destruct (IH H) as (before & after & -> & Hx & Hb).
    exists (y :: before), after. repeat split; [assumption|].
    intros z [<-|Hz]; [assumption|now apply Hb].
Qed.

Lemma findIndex_first {A} (p : A -> bool) (before after : list A) (x : A) :
  (forall y, In y before -> p y = false) -> p x = true ->
  findIndex p (before ++ x :: after) = Some (List.length before).
Proof.
  induction before as [|y r IH]; intros Hb Hx; simpl.
  - now rewrite Hx.
  - rewrite (Hb y (or_introl eq_refl)), IH; [reflexivity| |assumption].
    intros z Hz. apply Hb. now right.
Qed.

Lemma assign_middle {A} (before after : list A) (x v : A) :
  assign (before ++ x :: after) (List.length before) v = before ++ v :: after.
Proof.
  induction before as [|y r IH]; simpl; [reflexivity|now rewrite IH].
Qed.

Section Submissions.

Variable idAt : nat -> string.
Variable isoAt : nat -> string.

Lemma handleAssetSubmit_replaces (form : AssetForm) (st : State)
      (e : string) (before after : list Asset.t) (old : Asset.t) :
  editingAssetId st = Some e -> e <> EmptyString ->
  assets st = before ++ old :: after ->
  Asset.id old = e ->
  (forall a, In a before -> Asset.id a <> e) ->
  handleAssetSubmit idAt isoAt form st
  = refreshed
      (stored
         (before ++ assetData form e (Asset.createdAt old) (isoAt (queries st))
                 :: after)
         (liabilities st) (S (queries st)) st).
Proof.
  intros Hedit Hne Hassets Hid Hfirst.
  assert (Hfind : find (fun a => strictEq (Asset.id a) (Some e)) (assets st)
                  = Some old).
  { rewrite Hassets. apply find_first.
    - intros a Ha. apply strictEq_false. now apply Hfirst.
    - simpl. rewrite Hid. apply String.eqb_refl. }
  assert (Hindex : findIndex (fun a => strictEq (Asset.id a) (Some e))
                             (assets st) = Some (List.length before)).
  { rewrite Hassets. apply findIndex_first.
    - intros a Ha. apply strictEq_false. now apply Hfirst.
    - simpl. rewrite Hid. apply String.eqb_refl. }
  cbn -[find] in Hfind. cbn -[findIndex] in Hindex.
  unfold handleAssetSubmit, bind, gets.
  rewrite Hedit. cbn -[find findIndex assign updateAllDisplays].
  rewrite !(truthy_nonempty e Hne). cbn -[find findIndex assign updateAllDisplays].
  rewrite Hfind. cbn -[find findIndex assign updateAllDisplays].
  rewrite Hindex. cbn -[assign updateAllDisplays].
  rewrite Hassets, assign_middle. exact (submit_end _).
Qed.

Lemma handleLiabilitySubmit_replaces (form : LiabilityForm) (st : State)
      (e : string) (before after : list Liability.t) (old : Liability.t) :
  editingLiabilityId st = Some e -> e <> EmptyString ->
  liabilities st = before ++ old :: after ->
  Liability.id old = e ->
  (forall l, In l before -> Liability.id l <> e) ->
  handleLiabilitySubmit idAt isoAt form st
  = refreshed
      (stored
         (assets st)
         (before ++ liabilityData form e (Liability.createdAt old)
                                  (isoAt (queries st)) :: after)
         (S (queries st)) st).
Proof.
  intros Hedit Hne Hliabilities Hid Hfirst.
  assert (Hfind : find (fun l => strictEq (Liability.id l) (Some e))
                       (liabilities st) = Some old).
  { rewrite Hliabilities. apply find_first.
    - intros l Hl. apply strictEq_false. now apply Hfirst.
    - simpl. rewrite Hid. apply String.eqb_refl. }
  assert (Hindex : findIndex (fun l => strictEq (Liability.id l) (Some e))
                             (liabilities st) = Some (List.length before)).
  { rewrite Hliabilities. apply findIndex_first.
    - intros l Hl. apply strictEq_false. now apply Hfirst.
    - simpl. rewrite Hid. apply String.eqb_refl. }
  cbn -[find] in Hfind. cbn -[findIndex] in Hindex.
  unfold handleLiabilitySubmit, bind, gets.
  rewrite Hedit. cbn -[find findIndex assign updateAllDisplays].
  rewrite !(truthy_nonempty e Hne). cbn -[find findIndex assign updateAllDisplays].
  rewrite Hfind. cbn -[find findIndex assign updateAllDisplays].
  rewrite Hindex. cbn -[assign updateAllDisplays].
  rewrite Hliabilities, assign_middle. exact (submit_end _).
Qed.

Lemma handleAssetSubmit_appends (form : AssetForm) (st : State) :
  truthyId (editingAssetId st) = false ->
  handleAssetSubmit idAt isoAt form st
  = refreshed
      (stored
         (assets st ++ [assetData form (idAt (queries st))
                                  (isoAt (S (queries st)))
                                  (isoAt (S (S (queries st))))])
         (liabilities st) (S (S (S (queries st)))) st).
Proof.
  intro H. unfold handleAssetSubmit, bind, gets.
  destruct (editingAssetId st) as [[|c e]|] eqn:Hedit; try discriminate H;
    cbn -[updateAllDisplays]; exact (submit_end _).
Qed.

Lemma handleLiabilitySubmit_appends (form : LiabilityForm) (st : State) :
  truthyId (editingLiabilityId st) = false ->
  handleLiabilitySubmit idAt isoAt form st
  = refreshed
      (stored
         (assets st)
         (liabilities st ++ [liabilityData form (idAt (queries st))
                                           (isoAt (S (queries st)))
                                           (isoAt (S (S (queries st))))])
         (S (S (S (queries st)))) st).
Proof.
  intro H. unfold handleLiabilitySubmit, bind, gets.
  destruct (editingLiabilityId st) as [[|c e]|] eqn:Hedit; try discriminate H;
    cbn -[updateAllDisplays]; exact (submit_end _).
Qed.

Lemma handleAssetSubmit_stale (form : AssetForm) (st : State) (e : string) :
  editingAssetId st = Some e -> e <> EmptyString ->
  (forall a, In a (assets st) -> Asset.id a <> e) ->
  handleAssetSubmit idAt isoAt form st = (st, Throw TypeError).
Proof.
  intros Hedit Hne Hnone.
  assert (Hfind : find (fun a => strictEq (Asset.id a) (Some e)) (assets st)
                  = None).
  { apply find_absent. intros a Ha. apply strictEq_false. now apply Hnone. }
  cbn -[find] in Hfind.
  unfold handleAssetSubmit, bind, gets.
  rewrite Hedit. cbn -[find findIndex assign updateAllDisplays].
  rewrite !(truthy_nonempty e Hne). cbn -[find findIndex assign updateAllDisplays].
  rewrite Hfind. reflexivity.
Qed.

Lemma carriesAssetForm_assetData (form : AssetForm)
      (id createdAt updatedAt : string) :
  carriesAssetForm form (assetData form id createdAt updatedAt).
Proof. repeat split. Qed.

Lemma carriesLiabilityForm_liabilityData (form : LiabilityForm)
      (id createdAt updatedAt : string) :
  carriesLiabilityForm form (liabilityData form id createdAt updatedAt).
Proof. repeat split. Qed.



End Submissions.

(** ** The snapshot history *)

Lemma keeps_ret {A} (a : A) : keepsSnapshots (ret a).
Proof. intro st. reflexivity. Qed.

Lemma keeps_throw {A} (e : JSError) : keepsSnapshots (@throw A e).
Proof. intro st. reflexivity. Qed.

Lemma keeps_gets {A} (f : State -> A) : keepsSnapshots (gets f).
Proof. intro st. reflexivity. Qed.

Lemma keeps_modify (f : State -> State) :
  (forall st, snapshots (f st) = snapshots st) -> keepsSnapshots (modify f).
Proof. intros H st. apply H. Qed.

Lemma keeps_bind {A B} (m : M A) (k : A -> M B) :
  keepsSnapshots m -> (forall a, keepsSnapshots (k a)) ->
  keepsSnapshots (bind m k).
Proof.
  intros Hm Hk st. unfold bind. specialize (Hm st).
  destruct (m st) as [st' [a|e]]; simpl in *.
  - now rewrite Hk.
  - assumption.
Qed.

Lemma keeps_callCollaborator (f : string) : keepsSnapshots (callCollaborator f).
Proof.
  unfold callCollaborator.
  destruct (existsb (String.eqb f) declaredFunctions);
    [apply keeps_ret|apply keeps_throw].
Qed.

Lemma keeps_generateId (idAt : nat -> string) : keepsSnapshots (generateId idAt).
Proof. intro st. reflexivity. Qed.

Lemma keeps_newDateISO (isoAt : nat -> string) :
  keepsSnapshots (newDateISO isoAt).
Proof. intro st. reflexivity. Qed.

Lemma keeps_updateAllDisplays : keepsSnapshots updateAllDisplays.
Proof. intro st. now rewrite updateAllDisplays_result. Qed.

Create HintDb keeps.
#[local] Hint Resolve keeps_ret keeps_throw keeps_gets keeps_callCollaborator
  keeps_generateId keeps_newDateISO keeps_updateAllDisplays : keeps.

Ltac keeps_step :=
  match goal with
  | |- keepsSnapshots (bind _ _) => apply keeps_bind; [|intro]
  | |- keepsSnapshots (modify _) => apply keeps_modify; intro; reflexivity
  | |- keepsSnapshots (if ?b then _ else _) => destruct b
  | |- keepsSnapshots (match ?x with _ => _ end) => destruct x
  | |- keepsSnapshots _ => solve [auto with keeps]
  end.

Section History.

Variable idAt : nat -> string.
Variable isoAt : nat -> string.

Lemma keeps_handleAssetSubmit (form : AssetForm) :
  keepsSnapshots (handleAssetSubmit idAt isoAt form).
Proof.
  unfold handleAssetSubmit, saveData, closeAllModals.
  repeat keeps_step.
Qed.

Lemma keeps_handleLiabilitySubmit (form : LiabilityForm) :
  keepsSnapshots (handleLiabilitySubmit idAt isoAt form).
Proof.
  unfold handleLiabilitySubmit, saveData, closeAllModals.
  repeat keeps_step.
Qed.

Lemma keeps_parseCSV_loop (lines : list string) :
  forall assetsAdded liabilitiesAdded,
    keepsSnapshots (parseCSV_loop idAt isoAt lines assetsAdded liabilitiesAdded).
Proof.
  induction lines as [|line rest IH]; intros assetsAdded liabilitiesAdded;
    simpl; [apply keeps_ret|].
  repeat first [apply IH | keeps_step].
Qed.

Lemma keeps_processImport (csv : string) :
  keepsSnapshots (processImport idAt isoAt csv).
Proof.
  intro st. unfold processImport.
  assert (H : keepsSnapshots
                (result <- parseCSV idAt isoAt csv ;;
                 saveData ;;; updateAllDisplays)).
  { unfold parseCSV, saveData.
    repeat first [apply keeps_parseCSV_loop | keeps_step]. }
  specialize (H st).
  destruct ((result <- parseCSV idAt isoAt csv ;;
             saveData ;;; updateAllDisplays) st) as [st' c].
  exact H.
Qed.

Lemma perform_keeps (a : Action) :
  deletesAll a = false -> (forall answer, a <> TakeSnapshot answer) ->
  keepsSnapshots (perform idAt isoAt a).
Proof.
  intros Hdel Htake.
  destruct a as [form|form|x|x|  |x c|x c|answer| | |csv|c r]; simpl.
  - apply keeps_handleAssetSubmit.
  - apply keeps_handleLiabilitySubmit.
  - unfold openAssetModal. keeps_step.
  - unfold openLiabilityModal. keeps_step.
  - unfold closeAllModals. keeps_step.
  - unfold deleteAsset, saveData. repeat keeps_step.
  - unfold deleteLiability, saveData. repeat keeps_step.
  - now destruct (Htake answer).
  - auto with keeps.
  - auto with keeps.
  - apply keeps_processImport.
  - destruct c, r; try discriminate Hdel; apply keeps_ret.
Qed.

(** The snapshot that [takeSnapshot] builds in state [st]. *)
Lemma takeSnapshot_result (answer : option string) (st : State) :
  takeSnapshot idAt isoAt answer st
  = (set_snapshots
       (snapshots st
        ++ [{| Snapshot.id := idAt (queries st);
               Snapshot.date := isoAt (S (queries st));
               Snapshot.totalAssets := calculateTotalAssets st;
               Snapshot.totalLiabilities := calculateTotalLiabilities st;
               Snapshot.netWorth := calculateNetWorth st;
               Snapshot.notes := match answer with
                                 | Some n => Str.orElse n EmptyString
                                 | None => EmptyString
                                 end |}])
       (set_queries (S (S (queries st))) st),
     Throw ReferenceError).
Proof. reflexivity. Qed.

Lemma perform_extends (a : Action) (st : State) :
  deletesAll a = false ->
  exists later,
    snapshots (stateOf (perform idAt isoAt a st)) = snapshots st ++ later.
Proof.
  intro Hdel.
  destruct a as [form|form|x|x|  |x c|x c|answer| | |csv|c r];
    try (exists []; rewrite app_nil_r;
         apply perform_keeps; [assumption|discriminate]).
  cbn [perform]. rewrite takeSnapshot_result. eexists. reflexivity.
Qed.

Lemma run_extends (actions : list Action) :
  forall st,
    existsb deletesAll actions = false ->
    exists later, snapshots (run idAt isoAt actions st) = snapshots st ++ later.
Proof.
  induction actions as [|a r IH]; intros st H; simpl.
  - exists []. now rewrite app_nil_r.
  - simpl in H. apply orb_false_iff in H as [Ha Hr].
    destruct (perform_extends a st Ha) as [l1 H1].
    destruct (IH (stateOf (perform idAt isoAt a st)) Hr) as [l2 H2].
    exists (l1 ++ l2). unfold run in *. rewrite H2, H1.
    now rewrite app_assoc.
Qed.

(** C4. [takeSnapshot] appends to the history one snapshot whose id and
    date are the ones the environment gives at that moment and whose
    [totalAssets], [totalLiabilities] and [netWorth] are computed on the
    state at that moment. Every other action than the confirmed deletion
    of all data leaves the history as it is, whatever it does to the
    assets and the liabilities; so after any sequence of actions without
    that deletion the history of before is a prefix of the history, and
    every snapshot of it is still at its index, unchanged. *)
Theorem snapshots_are_frozen (st : State) :
  (forall answer,
      snapshots (stateOf (takeSnapshot idAt isoAt answer st))
      = snapshots st
        ++ [{| Snapshot.id := idAt (queries st);
               Snapshot.date := isoAt (S (queries st));
               Snapshot.totalAssets := calculateTotalAssets st;
               Snapshot.totalLiabilities := calculateTotalLiabilities st;
               Snapshot.netWorth := calculateNetWorth st;
               Snapshot.notes := match answer with
                                 | Some n => Str.orElse n EmptyString
                                 | None => EmptyString
                                 end |}])
  /\ (forall a,
         deletesAll a = false -> (forall answer, a <> TakeSnapshot answer) ->
         snapshots (stateOf (perform idAt isoAt a st)) = snapshots st)
  /\ (forall actions,
         existsb deletesAll actions = false ->
         exists later,
           snapshots (run idAt isoAt actions st) = snapshots st ++ later)
  /\ (forall actions i s,
         existsb deletesAll actions = false ->
         nth_error (snapshots st) i = Some s ->
         nth_error (snapshots (run idAt isoAt actions st)) i = Some s).
Proof.
  split; [|split; [|split]].
  - intro answer. now rewrite takeSnapshot_result.
  - intros a Hdel Htake. now apply perform_keeps.
  - intros actions H. now apply run_extends.
  - intros actions i s H Hi.
    destruct (run_extends actions st H) as [later ->].
    rewrite nth_error_app1; [assumption|].
    apply nth_error_Some. congruence.
Qed.

(** C9. [takeSnapshot] does not complete normally in any state: after it
    has appended the snapshot and saved, it calls [updateDashboard], which
    app.js does not declare, and the call throws a ReferenceError. The
    snapshot is in the history all the same. *)
Theorem takeSnapshot_throws (answer : option string) (st : State) :
  outcomeOf (takeSnapshot idAt isoAt answer st) = Throw ReferenceError
  /\ List.length (snapshots (stateOf (takeSnapshot idAt isoAt answer st)))
     = S (List.length (snapshots st))
  /\ existsb (String.eqb "updateDashboard") declaredFunctions = false.
Proof.
  rewrite takeSnapshot_result. simpl.
  split; [reflexivity|]. split; [|reflexivity].
  rewrite length_app. simpl. lia.
Qed.

End History.

(** ** CSV import *)

Section CsvImport.

Variable idAt : nat -> string.
Variable isoAt : nat -> string.

Lemma imported_nothing (st : State) : imported [] [] (queries st) st = st.
Proof.
  unfold imported. rewrite !app_nil_r. now destruct st.
Qed.

Lemma parseCSV_loop_adds (lines : list string) :
  forall assetsAdded liabilitiesAdded st,
  exists newAssets newLiabilities q,
    parseCSV_loop idAt isoAt lines assetsAdded liabilitiesAdded st
    = (imported newAssets newLiabilities q st,
       Normal (assetsAdded + List.length newAssets,
               liabilitiesAdded + List.length newLiabilities))
    /\ madeOf idAt isoAt importedAsset newAssets
              (filter acceptedAsset (map parseCSVLine lines))
    /\ madeOf idAt isoAt importedLiability newLiabilities
              (filter acceptedLiability (map parseCSVLine lines)).
Proof.
  induction lines as [|line rest IH]; intros na nl st.
  - exists [], [], (queries st). simpl. rewrite imported_nothing, !Nat.add_0_r.
    repeat split; constructor.
  - cbn [parseCSV_loop map filter].
    unfold acceptedAsset at 1, acceptedLiability at 1.
    rewrite (Nat.leb_antisym (List.length (parseCSVLine line)) 11).
    set (fields := parseCSVLine line).
    destruct (List.length fields <? 11)%nat; cbn [negb andb]; [apply IH|].
    destruct (String.eqb (Str.trim (field fields 0)) "Asset") eqn:Hasset.
    + apply String.eqb_eq in Hasset. rewrite Hasset.
      change (String.eqb "Asset" "Liability") with false. cbn [andb].
      unfold bind, generateId, newDateISO, modify.
      cbn [importedAsset Asset.name Asset.category Asset.purchaseDate
           Asset.purchasePrice Asset.currentValue].
      match goal with |- context [if ?c then _ else _] => destruct c end.
      * match goal with
          |- context [parseCSV_loop _ _ rest ?a ?l ?s] =>
            destruct (IH a l s) as (newA & newL & q & -> & HA & HL)
        end.
        eexists (_ :: newA), newL, q. split; [|split; [|exact HL]].
        -- unfold imported, push. cbn. rewrite <- app_assoc.
           rewrite <- Nat.add_succ_comm. reflexivity.
        -- constructor; [|exact HA]. eexists. reflexivity.
      * match goal with
          |- context [parseCSV_loop _ _ rest ?a ?l ?s] =>
            destruct (IH a l s) as (newA & newL & q & -> & HA & HL)
        end.
        exists newA, newL, q. repeat split; assumption.
    + cbn [andb].
      destruct (String.eqb (Str.trim (field fields 0)) "Liability");
        cbn [andb]; [|apply IH].
      unfold bind, generateId, newDateISO, modify.
      cbn [importedLiability Liability.name Liability.category
           Liability.startDate Liability.originalAmount
           Liability.currentBalance].
      match goal with |- context [if ?c then _ else _] => destruct c end.
      * match goal with
          |- context [parseCSV_loop _ _ rest ?a ?l ?s] =>
            destruct (IH a l s) as (newA & newL & q & -> & HA & HL)
        end.
        eexists newA, (_ :: newL), q. split; [|split; [exact HA|]].
        -- unfold imported, push. cbn. rewrite <- app_assoc.
           rewrite <- Nat.add_succ_comm. reflexivity.
        -- constructor; [|exact HL]. eexists. reflexivity.
      * match goal with
          |- context [parseCSV_loop _ _ rest ?a ?l ?s] =>
            destruct (IH a l s) as (newA & newL & q & -> & HA & HL)
        end.
        exists newA, newL, q. repeat split; assumption.
Qed.

Lemma madeOf_Forall {R} (make : list string -> string -> string -> string -> R)
      (accepted : list string -> bool) (P : R -> Prop) :
  (forall row id createdAt updatedAt,
      accepted row = true -> P (make row id createdAt updatedAt)) ->
  forall rows records,
    madeOf idAt isoAt make records (filter accepted rows) -> Forall P records.
Proof.
  intros HP rows records H.
  assert (Hall : Forall (fun row => accepted row = true) (filter accepted rows)).
  { apply Forall_forall. intros row Hrow. now apply filter_In in Hrow. }
  unfold madeOf in H.
  induction H as [|record row records rows' (k & ->) _ IH];
    constructor.
  - apply HP. now inversion Hall.
  - apply IH. now inversion Hall.
Qed.

Lemma truthy_true (s : string) : Str.truthy s = true -> s <> EmptyString.
Proof. destruct s; [discriminate|congruence]. Qed.

(** C5. [parseCSV] skips the header row and never fails. Of the rows after
    it, it turns into assets exactly those that have at least 11 fields,
    the type Asset, a name, a category and a purchase date that are not
    empty and two prices that [parseFloat] does not map to NaN (a price
    that parses to Infinity is accepted); into liabilities exactly those
    that have at least 11 fields, the type Liability, a name, a category
    and a start date that are not empty and two amounts that [parseFloat]
    does not map to NaN. The records are appended in the order of the rows,
    nothing else of the state changes but the number of queries, every
    other row leaves no trace, and the two counts that are returned are
    the numbers of assets and of liabilities appended. *)
Theorem parseCSV_accepts_rows (csvText : string) (st : State) :
  exists newAssets newLiabilities q,
    parseCSV idAt isoAt csvText st
    = (imported newAssets newLiabilities q st,
       Normal (List.length newAssets, List.length newLiabilities))
    /\ madeOf idAt isoAt importedAsset newAssets
              (filter acceptedAsset (dataRows csvText))
    /\ madeOf idAt isoAt importedLiability newLiabilities
              (filter acceptedLiability (dataRows csvText))
    /\ (forall first rest,
           csvLines csvText = first :: rest ->
           dataRows csvText = map parseCSVLine rest)
    /\ (forall row,
           List.length row < 11 ->
           acceptedAsset row = false /\ acceptedLiability row = false)
    /\ Forall (fun a => Asset.name a <> EmptyString
                        /\ Asset.category a <> EmptyString
                        /\ Asset.purchaseDate a <> EmptyString
                        /\ Num.isNaN (Asset.purchasePrice a) = false
                        /\ Num.isNaN (Asset.currentValue a) = false
                        /\ Asset.associatedDebtId a = None) newAssets
    /\ Forall (fun l => Liability.name l <> EmptyString
                        /\ Liability.category l <> EmptyString
                        /\ Liability.startDate l <> EmptyString
                        /\ Num.isNaN (Liability.originalAmount l) = false
                        /\ Num.isNaN (Liability.currentBalance l) = false
                        /\ Liability.associatedAssetId l = None)
              newLiabilities.
Proof.
  destruct (parseCSV_loop_adds (tl (csvLines csvText)) 0 0 st)
    as (newA & newL & q & Hrun & HA & HL).
  exists newA, newL, q. unfold parseCSV, dataRows.
  split; [exact Hrun|]. split; [exact HA|]. split; [exact HL|].
  split; [intros first rest ->; reflexivity|].
  split.
  { intros row Hrow. unfold acceptedAsset, acceptedLiability.
    apply Nat.leb_gt in Hrow. rewrite Hrow. split; reflexivity. }
  split.
  - apply (madeOf_Forall importedAsset acceptedAsset) with (2 := HA).
    intros row id c u Hrow. unfold acceptedAsset in Hrow.
    repeat match goal with
           | H : _ && _ = true |- _ => apply andb_true_iff in H as [? ?]
           | H : negb _ = true |- _ => apply negb_true_iff in H
           | H : Str.truthy _ = true |- _ => apply truthy_true in H
           end.
    cbn. repeat split; assumption.
  - apply (madeOf_Forall importedLiability acceptedLiability) with (2 := HL).
    intros row id c u Hrow. unfold acceptedLiability in Hrow.
    repeat match goal with
           | H : _ && _ = true |- _ => apply andb_true_iff in H as [? ?]
           | H : negb _ = true |- _ => apply negb_true_iff in H
           | H : Str.truthy _ = true |- _ => apply truthy_true in H
           end.
    cbn. repeat split; assumption.
Qed.

End CsvImport.

(** ** The sample store, worked out *)




Lemma snapshot_sample :
  (exists s,
      nth_error
        (snapshots
           (run Sample.idAt Sample.isoAt
                [OpenAssetModal (Some "a1"); SubmitAsset Sample.homeForm;
                 DeleteLiability "l1" true]
                (stateOf (takeSnapshot Sample.idAt Sample.isoAt None
                                       Sample.store)))) 0 = Some s
      /\ Snapshot.netWorth s = Num.ofZ 110000
      /\ calculateNetWorth
           (run Sample.idAt Sample.isoAt
                [OpenAssetModal (Some "a1"); SubmitAsset Sample.homeForm;
                 DeleteLiability "l1" true]
                (stateOf (takeSnapshot Sample.idAt Sample.isoAt None
                                       Sample.store))) = Num.ofZ 360000)
  /\ snapshots
       (stateOf (perform Sample.idAt Sample.isoAt
                         (ProcessImport Sample.templateCSV)
                         (stateOf (takeSnapshot Sample.idAt Sample.isoAt None
                                                Sample.store))))
     = snapshots (stateOf (takeSnapshot Sample.idAt Sample.isoAt None
                                        Sample.store))
  /\ exists later,
       snapshots (run Sample.idAt Sample.isoAt
                      [TakeSnapshot (Some "later"); DeleteAllData true false]
                      (stateOf (takeSnapshot Sample.idAt Sample.isoAt None
                                             Sample.store)))
       = snapshots (stateOf (takeSnapshot Sample.idAt Sample.isoAt None
                                          Sample.store)) ++ later.
Proof.
  destruct (snapshots_are_frozen
              Sample.idAt Sample.isoAt
              (stateOf (takeSnapshot Sample.idAt Sample.isoAt None
                                     Sample.store)))
    as (_ & Hkeep & Hprefix & Hfrozen).
  split; [|split].
  - eexists. split; [|split].
    + apply Hfrozen; reflexivity.
    + vm_compute. reflexivity.
    + vm_compute. reflexivity.
  - apply Hkeep; [reflexivity|discriminate].
  - apply Hprefix. reflexivity.
Defined.

Lemma import_sample :
  outcomeOf (parseCSV Sample.idAt Sample.isoAt Sample.templateCSV initialState)
  = Normal (3, 2)
  /\ acceptedAsset (parseCSVLine "Asset,Short,Cash,2020-01-01,1") = false
  /\ dataRows Sample.templateCSV
     = map parseCSVLine (tl (csvLines Sample.templateCSV)).
Proof.
  destruct (parseCSV_accepts_rows Sample.idAt Sample.isoAt Sample.templateCSV
                                  initialState)
    as (newA & newL & q & _ & _ & _ & Hheader & Hshort & _).
  split; [vm_compute; reflexivity|]. split.
  - apply Hshort. vm_compute. lia.
  - apply (Hheader header). reflexivity.
Defined.

(** A row whose prices are Infinity and 1e999 is accepted: neither parses
    to a finite number. *)
Lemma parseCSV_accepts_Infinity :
  outcomeOf (parseCSV Sample.idAt Sample.isoAt Sample.infiniteCSV initialState)
  = Normal (1, 0)
  /\ map (fun a => (Asset.purchasePrice a, Asset.currentValue a))
         (assets (stateOf (parseCSV Sample.idAt Sample.isoAt
                                    Sample.infiniteCSV initialState)))
     = [(S754_infinity false, S754_infinity false)]
  /\ Num.isFinite (Num.parseFloat "Infinity") = false
  /\ Num.isFinite (Num.parseFloat "1e999") = false.
Proof. repeat split; vm_compute; reflexivity. Qed.

(** The liabilities do not come back. On the sample store, one asset and
    one liability, [exportData] writes the liability as a row of 10 fields,
    with two empty columns after the category where the header and the
    template have three, and [parseCSV] skips every row of fewer than 11
    fields: the import of the exported text into the empty store adds the
    asset, with a new id and no link, and no liability. *)
Lemma export_then_import_loses_liabilities :
  map (fun line => List.length (parseCSVLine line))
      (csvLines (exportData Sample.store)) = [11; 11; 10]
  /\ outcomeOf (parseCSV Sample.idAt Sample.isoAt (exportData Sample.store)
                         initialState) = Normal (1, 0)
  /\ liabilities (stateOf (parseCSV Sample.idAt Sample.isoAt
                                    (exportData Sample.store) initialState))
     = []
  /\ assets (stateOf (parseCSV Sample.idAt Sample.isoAt
                               (exportData Sample.store) initialState))
     = [importedAsset
          ["Asset"; "Home"; "Real Estate"; "2020-01-01"; "300000"; "350000";
           EmptyString; EmptyString; EmptyString; EmptyString; EmptyString]
          (Sample.idAt 0) (Sample.isoAt 1) (Sample.isoAt 2)]
  /\ List.length (liabilities Sample.store) = 1.
Proof. repeat split; vm_compute; reflexivity. Qed.

(** ** What [Num.toString] writes *)

Lemma allChars_weaken (p q : ascii -> bool) (s : string) :
  (forall c, p c = true -> q c = true) ->
  allChars p s = true -> allChars q s = true.
Proof.
  intro Hpq. induction s as [|c r IH]; simpl; [reflexivity|].
  intro H. apply andb_true_iff in H as [Hc Hr].
  now rewrite (Hpq c Hc), IH.
Qed.

Lemma allChars_contains (p : ascii -> bool) (c : ascii) (s : string) :
  p c = false -> allChars p s = true -> Str.contains c s = false.
Proof.
  intro Hc. induction s as [|d r IH]; simpl; [reflexivity|].
  intro H. apply andb_true_iff in H as [Hd Hr].
  rewrite (IH Hr), orb_false_r.
  destruct (Ascii.eqb_spec d c) as [->|]; [congruence|reflexivity].
Qed.

Lemma allChars_substring (p : ascii -> bool) (s : string) :
  allChars p s = true ->
  forall n m, allChars p (String.substring n m s) = true.
Proof.
  induction s as [|c r IH]; intros H n m.
  - destruct n, m; reflexivity.
  - simpl in H. apply andb_true_iff in H as [Hc Hr].
    destruct n as [|n]; simpl.
    + destruct m as [|m]; [reflexivity|]. simpl. now rewrite Hc, IH.
    + now apply IH.
Qed.

Lemma allChars_dropTrailingZeros (p : ascii -> bool) (s : string) :
  allChars p s = true -> allChars p (Str.dropTrailingZeros s) = true.
Proof.
  induction s as [|c r IH]; simpl; [reflexivity|].
  intro H. apply andb_true_iff in H as [Hc Hr]. specialize (IH Hr).
  destruct (Str.dropTrailingZeros r) as [|d r'].
  - destruct (Ascii.eqb c "0"); simpl; [reflexivity|now rewrite Hc].
  - change (allChars p (String c (String d r')) = true).
    simpl in *. now rewrite Hc, IH.
Qed.

Lemma digit_numberChar (c : ascii) :
  Str.isDigit c = true -> numberChar c = true.
Proof. intro H. unfold numberChar. now rewrite H. Qed.

Lemma allChars_signedExponent (e : Z) :
  allChars numberChar (Num.signedExponent e) = true.
Proof.
  unfold Num.signedExponent. rewrite allChars_app.
  rewrite (allChars_weaken _ _ _ digit_numberChar (allChars_ofN _)).
  now destruct (e <? 0)%Z.
Qed.

Lemma allChars_layout (ds : string) (n : Z) :
  allChars Str.isDigit ds = true -> allChars numberChar (Num.layout ds n) = true.
Proof.
  intro H.
  assert (Hn : allChars numberChar ds = true)
    by exact (allChars_weaken _ _ _ digit_numberChar H).
  unfold Num.layout.
  destruct ((Z.of_nat (String.length ds) <=? n) && (n <=? 21))%Z.
  { rewrite allChars_app, Hn.
    exact (allChars_weaken _ _ _ digit_numberChar (allChars_repeat0 _)). }
  destruct ((0 <? n) && (n <=? 21))%Z.
  { rewrite !allChars_app, !(allChars_substring _ _ Hn). reflexivity. }
  destruct ((-6 <? n) && (n <=? 0))%Z.
  { rewrite !allChars_app, Hn.
    rewrite (allChars_weaken _ _ _ digit_numberChar (allChars_repeat0 _)).
    reflexivity. }
  destruct ds as [|d [|d' r]]; [reflexivity| |].
  - simpl in Hn. apply andb_true_iff in Hn as [Hd _].
    cbn [allChars]. rewrite Hd. cbn [andb].
    rewrite allChars_app, allChars_signedExponent. reflexivity.
  - cbn [allChars] in Hn. apply andb_true_iff in Hn as [Hd Hr].
    cbn [allChars]. rewrite Hd. cbn [andb].
    rewrite !allChars_app, allChars_signedExponent.
    cbn [allChars] in *. rewrite Hr. reflexivity.
Qed.

Lemma allChars_positiveToString (x : Num.number) (m : positive) (e : Z) :
  allChars numberChar (Num.positiveToString x m e) = true.
Proof.
  unfold Num.positiveToString.
  destruct (Num.exactDecimal m e) as [D E].
  destruct (Num.shortestDigits 17 1 x D E _) as [s q].
  apply allChars_layout, allChars_dropTrailingZeros, allChars_ofN.
Qed.

Lemma allChars_toString (x : Num.number) :
  allChars numberChar (Num.toString x) = true.
Proof.
  destruct x as [s|[|]| |[|] m e]; try reflexivity.
  - unfold Num.toString. rewrite allChars_app, allChars_positiveToString.
    reflexivity.
  - apply allChars_positiveToString.
Qed.

Lemma numberChar_not_special (c : ascii) :
  numberChar c = true ->
  Str.isWhiteSpace c = false /\ c <> quote /\ c <> comma /\ c <> newline.
Proof.
  destruct c as [[] [] [] [] [] [] [] []]; vm_compute; intro H;
    repeat split; try reflexivity; try discriminate.
Qed.

Lemma trim_no_white_space (s : string) :
  allChars (fun c => negb (Str.isWhiteSpace c)) s = true -> Str.trim s = s.
Proof.
  intro H. unfold Str.trim.
  assert (Hstart : Str.trimStart s = s).
  { destruct s as [|c r]; [reflexivity|]. simpl in *.
    apply andb_true_iff in H as [Hc _]. apply negb_true_iff in Hc.
    now rewrite Hc. }
  rewrite Hstart. clear Hstart.
  induction s as [|c r IH]; [reflexivity|]. simpl in *.
  apply andb_true_iff in H as [Hc Hr]. apply negb_true_iff in Hc.
  rewrite (IH Hr). destruct r; [now rewrite Hc|reflexivity].
Qed.

Lemma toString_trimmed (x : Num.number) :
  Str.trim (Num.toString x) = Num.toString x.
Proof.
  apply trim_no_white_space.
  apply (allChars_weaken numberChar); [|apply allChars_toString].
  intros c Hc. apply numberChar_not_special in Hc as [-> _]. reflexivity.
Qed.

Lemma toString_plain (x : Num.number) (c : ascii) :
  c = quote \/ c = comma \/ c = newline ->
  Str.contains c (Num.toString x) = false.
Proof.
  intro Hc. apply (allChars_contains numberChar); [|apply allChars_toString].
  destruct (numberChar c) eqn:H; [|reflexivity].
  apply numberChar_not_special in H as (_ & Hq & Hm & Hn).
  now destruct Hc as [?|[?|?]].
Qed.

(** ** Lines and rows of the exported text *)

Lemma contains_app (c : ascii) (s t : string) :
  Str.contains c (s ++ t)%string = Str.contains c s || Str.contains c t.
Proof.
  induction s as [|d r IH]; simpl; [reflexivity|].
  now rewrite IH, orb_assoc.
Qed.

Lemma split_line (line rest : string) :
  Str.contains newline line = false ->
  Str.split newline (line ++ nl ++ rest)%string
  = line :: Str.split newline rest.
Proof.
  induction line as [|c r IH]; intro H; [reflexivity|].
  simpl in H. apply orb_false_iff in H as [Hc Hr].
  change (String c r ++ nl ++ rest)%string
    with (String c (r ++ nl ++ rest))%string.
  cbn [Str.split]. now rewrite Hc, (IH Hr).
Qed.

Lemma split_unlines (lines : list string) :
  Forall (fun line => Str.contains newline line = false) lines ->
  Str.split newline (unlines lines) = lines ++ [EmptyString].
Proof.
  induction 1 as [|line rest Hline _ IH]; [reflexivity|].
  cbn [unlines fold_right]. rewrite split_line by assumption.
  fold (unlines rest). now rewrite IH.
Qed.

Lemma unlines_app (xs ys : list string) :
  unlines (xs ++ ys) = (unlines xs ++ unlines ys)%string.
Proof.
  induction xs as [|x r IH]; [reflexivity|].
  cbn [app unlines fold_right]. fold (unlines (r ++ ys)) (unlines r).
  now rewrite IH, !append_assoc.
Qed.

Lemma fold_rows {A} (row line : A -> string) (xs : list A) :
  (forall x, row x = (line x ++ nl)%string) ->
  forall csv,
    fold_left (fun csv x => (csv ++ row x)%string) xs csv
    = (csv ++ unlines (map line xs))%string.
Proof.
  intro Hrow. induction xs as [|x r IH]; intro csv; simpl.
  - symmetry. apply append_empty_r.
  - fold (unlines (map line r)).
    now rewrite IH, Hrow, !append_assoc.
Qed.

Lemma assetRow_line (a : Asset.t) : assetRow a = (assetLine a ++ nl)%string.
Proof.
  unfold assetRow, assetLine. now rewrite !append_assoc.
Qed.

Lemma liabilityRow_line (l : Liability.t) :
  liabilityRow l = (liabilityLine l ++ nl)%string.
Proof.
  unfold liabilityRow, liabilityLine. now rewrite !append_assoc.
Qed.

Lemma exportData_unlines (st : State) :
  exportData st
  = unlines (header :: map assetLine (assets st)
                    ++ map liabilityLine (liabilities st)).
Proof.
  unfold exportData.
  rewrite (fold_rows assetRow assetLine _ assetRow_line).
  rewrite (fold_rows liabilityRow liabilityLine _ liabilityRow_line).
  change (header :: map assetLine (assets st)
                 ++ map liabilityLine (liabilities st))
    with ([header] ++ map assetLine (assets st)
                   ++ map liabilityLine (liabilities st)).
  rewrite !unlines_app. cbn [unlines fold_right].
  now rewrite !append_assoc.
Qed.

Lemma loop_text (s : string) :
  forall rest result current inQuotes,
    Str.contains quote s = false ->
    inQuotes = true \/ Str.contains comma s = false ->
    parseCSVLine_loop (s ++ rest) result current inQuotes
    = parseCSVLine_loop rest result (current ++ s) inQuotes.
Proof.
  induction s as [|c r IH]; intros rest result current inQuotes Hq Hc.
  - now rewrite append_empty_r.
  - simpl in Hq. apply orb_false_iff in Hq as [Hq Hr].
    change (String c r ++ rest)%string with (String c (r ++ rest))%string.
    cbn [parseCSVLine_loop]. rewrite Hq.
    assert (Hcomma : Ascii.eqb c comma && negb inQuotes = false).
    { destruct Hc as [->|Hc]; [apply andb_false_r|].
      simpl in Hc. apply orb_false_iff in Hc as [-> _]. reflexivity. }
    rewrite Hcomma, IH; [|assumption|].
    + now rewrite append_assoc.
    + destruct Hc as [?|Hc]; [now left|right].
      simpl in Hc. now apply orb_false_iff in Hc as [_ ?].
Qed.

Lemma loop_quote (rest : string) (result : list string) (current : string)
      (inQuotes : bool) :
  parseCSVLine_loop (dq ++ rest) result current inQuotes
  = parseCSVLine_loop rest result current (negb inQuotes).
Proof. reflexivity. Qed.

Lemma loop_comma (rest : string) (result : list string) (current : string) :
  parseCSVLine_loop ("," ++ rest) result current false
  = parseCSVLine_loop rest (push result (Str.trim current)) EmptyString false.
Proof. reflexivity. Qed.

Lemma loop_extends (line : string) :
  forall result current inQuotes,
  exists more,
    parseCSVLine_loop line result current inQuotes = result ++ more.
Proof.
  induction line as [|c r IH]; intros result current inQuotes; simpl.
  - now exists [Str.trim current].
  - destruct (Ascii.eqb c quote); [apply IH|].
    destruct (Ascii.eqb c comma && negb inQuotes); [|apply IH].
    destruct (IH (push result (Str.trim current)) EmptyString inQuotes)
      as [more ->].
    unfold push. rewrite <- app_assoc. eauto.
Qed.

Lemma orElse_empty (s : string) : Str.orElse s EmptyString = s.
Proof. now destruct s. Qed.

(** The fields of the row of an asset that the format can carry: the
    first ten, and at least one more for the notes. *)
Lemma parseCSVLine_assetLine (a : Asset.t) :
  exportableAsset a = true ->
  exists more,
    parseCSVLine (assetLine a)
    = [ "Asset"; Asset.name a; Asset.category a; Asset.purchaseDate a;
        Num.toString (Asset.purchasePrice a);
        Num.toString (Asset.currentValue a);
        EmptyString; EmptyString; EmptyString; EmptyString ] ++ more
    /\ more <> [].
Proof.
  unfold exportableAsset, plainText, quotable, trimmedText.
  intro H.
  repeat match goal with
         | H : _ && _ = true |- _ => apply andb_true_iff in H as [? ?]
         | H : negb _ = true |- _ => apply negb_true_iff in H
         | H : String.eqb _ _ = true |- _ => apply String.eqb_eq in H
         end.
  unfold parseCSVLine, assetLine. rewrite orElse_empty.
  change ("Asset," ++ ?r)%string with ("Asset" ++ "," ++ r)%string.
  change (",,,,," ++ ?r)%string
    with ("," ++ "," ++ "," ++ "," ++ "," ++ r)%string.
  rewrite (loop_text "Asset") by (try right; reflexivity).
  rewrite loop_comma, loop_quote.
  rewrite (loop_text (Asset.name a)) by (try left; easy).
  rewrite loop_quote, loop_comma.
  rewrite (loop_text (Asset.category a)) by (try right; easy).
  rewrite loop_comma.
  rewrite (loop_text (Asset.purchaseDate a)) by (try right; easy).
  rewrite loop_comma.
  rewrite (loop_text (Num.toString _))
    by (try right; apply toString_plain; auto).
  rewrite loop_comma.
  rewrite (loop_text (Num.toString _))
    by (try right; apply toString_plain; auto).
  rewrite !loop_comma.
  match goal with
  | |- context [parseCSVLine_loop ?r ?res ?cur ?q] =>
      destruct (loop_extends r res cur q) as [more Hmore];
      pose proof (parseCSVLine_loop_length r res cur q) as Hlen;
      rewrite Hmore in Hlen |- *
  end.
  exists more. split.
  - cbn [push app append]. rewrite !toString_trimmed.
    repeat match goal with H : Str.trim _ = _ |- _ => rewrite H; clear H end.
    reflexivity.
  - intros ->. rewrite app_nil_r in Hlen. lia.
Qed.

Lemma isNaN_readBack (x : Num.number) :
  Num.isNaN (Num.readBack x) = Num.isNaN x.
Proof. now destruct x. Qed.

(** What the import reads in the decimal form of an exportable Number. *)
Lemma parseFloat_toString (x : Num.number) :
  Num.isNumber x = true -> exportableNumber x = true ->
  Num.parseFloat (Num.toString x) = Num.readBack x
  /\ Num.isNaN (Num.parseFloat (Num.toString x)) = false.
Proof.
  unfold exportableNumber. intros Hx Hnan. apply negb_true_iff in Hnan.
  pose proof (parseFloatNumber_isNumber x Hx) as Hback.
  unfold Num.parseFloatNumber in Hback.
  now rewrite Hback, isNaN_readBack.
Qed.

Lemma acceptedAsset_assetLine (a : Asset.t) :
  Num.isNumber (Asset.purchasePrice a) = true
  /\ Num.isNumber (Asset.currentValue a) = true ->
  exportableAsset a = true ->
  acceptedAsset (parseCSVLine (assetLine a)) = true.
Proof.
  intros [Hp Hc] H. destruct (parseCSVLine_assetLine a H) as (more & -> & Hmore).
  unfold exportableAsset in H.
  repeat match goal with
         | H : _ && _ = true |- _ => apply andb_true_iff in H as [? ?]
         end.
  repeat match goal with
         | H : exportableNumber _ = true |- _ =>
             apply parseFloat_toString in H as [_ ?]; [|assumption]
         end.
  unfold acceptedAsset. cbn [app field nth].
  destruct more as [|x more]; [congruence|]. cbn [List.length Nat.leb].
  change (String.eqb (Str.trim "Asset") "Asset") with true.
  repeat match goal with
         | H : _ = true |- _ => rewrite H; clear H
         | H : _ = false |- _ => rewrite H; clear H
         end.
  reflexivity.
Qed.

Lemma acceptedAsset_liabilityLine (l : Liability.t) :
  acceptedAsset (parseCSVLine (liabilityLine l)) = false.
Proof.
  unfold parseCSVLine, liabilityLine.
  change ("Liability," ++ ?r)%string with ("Liability" ++ "," ++ r)%string.
  rewrite (loop_text "Liability") by (try right; reflexivity).
  rewrite loop_comma.
  match goal with
    |- context [parseCSVLine_loop ?r ?res ?cur ?q] =>
      destruct (loop_extends r res cur q) as [more ->]
  end.
  unfold acceptedAsset. cbn [push app field nth].
  change (String.eqb (Str.trim (Str.trim "Liability")) "Asset") with false.
  now rewrite andb_false_r.
Qed.

Lemma assetLine_one_line (a : Asset.t) :
  exportableAsset a = true -> Str.contains newline (assetLine a) = false.
Proof.
  unfold exportableAsset, plainText, quotable. intro H.
  repeat match goal with
         | H : _ && _ = true |- _ => apply andb_true_iff in H as [? ?]
         | H : negb _ = true |- _ => apply negb_true_iff in H
         end.
  unfold assetLine. rewrite orElse_empty, !contains_app.
  rewrite !(toString_plain _ newline) by auto.
  repeat match goal with
         | H : Str.contains newline _ = false |- _ => rewrite H; clear H
         end.
  reflexivity.
Qed.

Lemma liabilityLine_one_line (l : Liability.t) :
  oneLineLiability l = true -> Str.contains newline (liabilityLine l) = false.
Proof.
  unfold oneLineLiability. intro H.
  repeat match goal with
         | H : _ && _ = true |- _ => apply andb_true_iff in H as [? ?]
         | H : negb _ = true |- _ => apply negb_true_iff in H
         end.
  unfold liabilityLine. rewrite orElse_empty, !contains_app.
  rewrite !(toString_plain _ newline) by auto.
  repeat match goal with
         | H : Str.contains newline _ = false |- _ => rewrite H; clear H
         end.
  reflexivity.
Qed.

Lemma not_blank (c : ascii) (r : string) :
  Str.isWhiteSpace c = false -> Str.truthy (Str.trim (String c r)) = true.
Proof.
  intro H. unfold Str.trim. cbn [Str.trimStart]. rewrite H.
  cbn [Str.trimEnd]. destruct (Str.trimEnd r); [now rewrite H|reflexivity].
Qed.

Lemma filter_all {A} (p : A -> bool) (xs : list A) :
  Forall (fun x => p x = true) xs -> filter p xs = xs.
Proof.
  induction 1 as [|x r Hx _ IH]; simpl; [reflexivity|].
  now rewrite Hx, IH.
Qed.

Lemma filter_none {A} (p : A -> bool) (xs : list A) :
  Forall (fun x => p x = false) xs -> filter p xs = [].
Proof.
  induction 1 as [|x r Hx _ IH]; simpl; [reflexivity|].
  now rewrite Hx.
Qed.

Lemma csvLines_exportData (st : State) :
  Forall (fun a => exportableAsset a = true) (assets st) ->
  Forall (fun l => oneLineLiability l = true) (liabilities st) ->
  csvLines (exportData st)
  = header :: map assetLine (assets st)
           ++ map liabilityLine (liabilities st).
Proof.
  intros HA HL. unfold csvLines. rewrite exportData_unlines.
  rewrite split_unlines.
  - rewrite filter_app.
    change (filter _ [EmptyString]) with (@nil string).
    rewrite app_nil_r. apply filter_all.
    constructor; [reflexivity|]. apply Forall_app. split.
    + apply Forall_map. apply Forall_forall. intros a _.
      apply (not_blank "A"). reflexivity.
    + apply Forall_map. apply Forall_forall. intros l _.
      apply (not_blank "L"). reflexivity.
  - constructor; [reflexivity|]. apply Forall_app. split.
    + apply Forall_map. revert HA. apply Forall_impl.
      intros a. apply assetLine_one_line.
    + apply Forall_map. revert HL. apply Forall_impl.
      intros l. apply liabilityLine_one_line.
Qed.

(** ** Export, then import *)

Section RoundTrip.

Variable idAt : nat -> string.
Variable isoAt : nat -> string.

Lemma imported_assets_match (exported : list Asset.t) :
  Forall (fun a => Num.isNumber (Asset.purchasePrice a) = true
                   /\ Num.isNumber (Asset.currentValue a) = true) exported ->
  Forall (fun a => exportableAsset a = true) exported ->
  forall newAssets,
    madeOf idAt isoAt importedAsset newAssets
           (map parseCSVLine (map assetLine exported)) ->
    Forall2 (fun a b =>
               Asset.name b = Asset.name a
               /\ Asset.category b = Asset.category a
               /\ Asset.purchaseDate b = Asset.purchaseDate a
               /\ Asset.purchasePrice b = Num.readBack (Asset.purchasePrice a)
               /\ Asset.currentValue b = Num.readBack (Asset.currentValue a)
               /\ Asset.associatedDebtId b = None
               /\ exists k, Asset.id b = idAt k)
            exported newAssets.
Proof.
  induction 1 as [|a r [Hp Hc] _ IH]; intros Hall newAssets H;
    inversion Hall as [|? ? Ha Hr]; subst; unfold madeOf in H;
    simpl in H; inversion H as [|b row bs rows (k & Hb) Hrest]; subst.
  - constructor.
  - constructor; [|now apply IH].
    destruct (parseCSVLine_assetLine a Ha) as (more & -> & _).
    unfold exportableAsset in Ha.
    repeat match goal with
           | H : _ && _ = true |- _ => apply andb_true_iff in H as [? ?]
           end.
    repeat match goal with
           | H : exportableNumber _ = true |- _ =>
               apply parseFloat_toString in H as [? _]; [|assumption]
           end.
    cbn. repeat split; try assumption. now exists k.
Qed.

(** C1. Exporting a store with [exportData] and importing the text with
    [parseCSV] gives back, in order and at the end of the assets of the
    importing store, one asset for each asset of the exported store, with
    the same name, category, purchase date, purchase price and current
    value (a price of -0 comes back as 0), a generated id and no link.
    This holds for the assets that the format can carry: a name, a
    category and a purchase date that are not empty and have no white
    space at their ends, no quote and no line break, no comma in the
    category and in the date, no line break in the notes, and two
    prices other than NaN; and for liabilities whose texts have no line
    break. The numbers of the exported records are Numbers, as they are in
    every state that the actions reach from the empty store. *)
Theorem export_then_import_reproduces_assets (st st0 : State) :
  numbersStored st ->
  Forall (fun a => exportableAsset a = true) (assets st) ->
  Forall (fun l => oneLineLiability l = true) (liabilities st) ->
  exists newAssets newLiabilities q,
    parseCSV idAt isoAt (exportData st) st0
    = (imported newAssets newLiabilities q st0,
       Normal (List.length (assets st), List.length newLiabilities))
    /\ Forall2 (fun a b =>
                  Asset.name b = Asset.name a
                  /\ Asset.category b = Asset.category a
                  /\ Asset.purchaseDate b = Asset.purchaseDate a
                  /\ Asset.purchasePrice b
                     = Num.readBack (Asset.purchasePrice a)
                  /\ Asset.currentValue b
                     = Num.readBack (Asset.currentValue a)
                  /\ Asset.associatedDebtId b = None
                  /\ exists k, Asset.id b = idAt k)
               (assets st) newAssets.
Proof.
  intros [HN _] HA HL.
  destruct (parseCSV_loop_adds idAt isoAt (tl (csvLines (exportData st)))
                               0 0 st0)
    as (newA & newL & q & Hrun & Hmade & _).
  rewrite (csvLines_exportData st HA HL) in Hrun, Hmade.
  cbn [tl] in Hrun, Hmade.
  rewrite map_app, filter_app in Hmade.
  rewrite (filter_all acceptedAsset) in Hmade.
  2:{ rewrite map_map. apply Forall_map. apply Forall_forall. intros a Ha.
      apply acceptedAsset_assetLine.
      - exact (proj1 (Forall_forall _ _) HN a Ha).
      - exact (proj1 (Forall_forall _ _) HA a Ha). }
  rewrite (filter_none acceptedAsset), app_nil_r in Hmade.
  2:{ rewrite map_map. apply Forall_map. apply Forall_forall.
      intros l _. apply acceptedAsset_liabilityLine. }
  pose proof (imported_assets_match (assets st) HN HA newA Hmade) as Hmatch.
  exists newA, newL, q. split; [|exact Hmatch].
  unfold parseCSV. rewrite (csvLines_exportData st HA HL). cbn [tl].
  rewrite Hrun. now rewrite (Forall2_length Hmatch).
Qed.

End RoundTrip.

(** Three assets come back in their order: prices with a fraction, a
    price in exponent notation, a price of -0, notes with a quote and
    commas. *)
Lemma round_trip_sample :
  exists newAssets newLiabilities q,
    parseCSV Sample.idAt Sample.isoAt (exportData Sample.exported) Sample.store
    = (imported newAssets newLiabilities q Sample.store,
       Normal (3, List.length newLiabilities))
    /\ Forall2 (fun a b =>
                  Asset.name b = Asset.name a
                  /\ Asset.category b = Asset.category a
                  /\ Asset.purchaseDate b = Asset.purchaseDate a
                  /\ Asset.purchasePrice b
                     = Num.readBack (Asset.purchasePrice a)
                  /\ Asset.currentValue b
                     = Num.readBack (Asset.currentValue a)
                  /\ Asset.associatedDebtId b = None
                  /\ exists k, Asset.id b = Sample.idAt k)
               (assets Sample.exported) newAssets.
Proof.
  apply (export_then_import_reproduces_assets
           Sample.idAt Sample.isoAt Sample.exported Sample.store).
  - split; repeat constructor.
  - repeat constructor.
  - repeat constructor.
Defined.

(** The round trip changes records. A name with a word between two quotes
    comes back without the quotes, a name that starts with a space without
    the space, a category with a comma cut at the comma; an asset without
    name, without purchase date or with a price that is NaN does not come
    back, nor one with a line break in its name; a price of -0 comes back
    as 0; notes that hold a line break and the text of a row bring one
    asset more, and so do such notes of a liability; and the liability of
    the sample store does not come back. *)
Lemma export_then_import_changes_records :
  map Asset.name
      (assets (stateOf (Sample.roundTrip
         (Sample.only (Sample.asset Sample.cabinName "Real Estate"
                                    "1980-01-01" (Num.ofZ 10) (Num.ofZ 50))))))
  = ["the big cabin"]
  /\ Sample.cabinName <> "the big cabin"
  /\ map Asset.name
         (assets (stateOf (Sample.roundTrip
            (Sample.only (Sample.asset " Home" "Real Estate" "2020-01-01"
                                       (Num.ofZ 10) (Num.ofZ 50))))))
     = ["Home"]
  /\ map Asset.category
         (assets (stateOf (Sample.roundTrip
            (Sample.only (Sample.asset "Home" "Real, Estate" "2020-01-01"
                                       (Num.ofZ 10) (Num.ofZ 50))))))
     = ["Real"]
  /\ outcomeOf (Sample.roundTrip
         (Sample.only (Sample.asset EmptyString "Real Estate" "2020-01-01"
                                    (Num.ofZ 10) (Num.ofZ 50))))
     = Normal (0, 0)
  /\ outcomeOf (Sample.roundTrip
         (Sample.only (Sample.asset "Home" "Real Estate" EmptyString
                                    (Num.ofZ 10) (Num.ofZ 50))))
     = Normal (0, 0)
  /\ outcomeOf (Sample.roundTrip
         (Sample.only (Sample.asset "Home" "Real Estate" "2020-01-01"
                                    Num.NaN (Num.ofZ 50))))
     = Normal (0, 0)
  /\ outcomeOf (Sample.roundTrip
         (Sample.only (Sample.asset ("Ho" ++ nl ++ "me") "Real Estate"
                                    "2020-01-01" (Num.ofZ 10) (Num.ofZ 50))))
     = Normal (0, 0)
  /\ map Asset.purchasePrice
         (assets (stateOf (Sample.roundTrip
            (Sample.only (Sample.asset "Home" "Real Estate" "2020-01-01"
                                       (S754_zero true) (Num.ofZ 50))))))
     = [Num.zero]
  /\ map Asset.name
         (assets (stateOf (Sample.roundTrip
            (Sample.only (Sample.noted "Home" Sample.ghostNotes)))))
     = ["Home"; "Ghost"]
  /\ map Asset.name
         (assets (stateOf (Sample.roundTrip
            (set_liabilities [Sample.remarked Sample.ghostNotes]
                             initialState))))
     = ["Ghost"]
  /\ map Liability.name (liabilities Sample.store) = ["Home Mortgage"]
  /\ map Liability.name (liabilities (stateOf (Sample.roundTrip Sample.store)))
     = [].
Proof.
  split; [vm_compute; reflexivity|].
  split; [vm_compute; discriminate|].
  repeat split; vm_compute; reflexivity.
Qed.

(** * Further properties *)

(** ** The tokenizer on joined fields *)

Lemma loop_result (line : string) :
  forall result current inQuotes,
    parseCSVLine_loop line result current inQuotes
    = result ++ parseCSVLine_loop line [] current inQuotes.
Proof.
  induction line as [|c r IH]; intros result current inQuotes; simpl.
  - reflexivity.
  - destruct (Ascii.eqb c quote); [apply IH|].
    destruct (Ascii.eqb c comma && negb inQuotes); [|apply IH].
    rewrite IH, (IH (push [] (Str.trim current))). unfold push.
    now rewrite <- app_assoc.
Qed.

Lemma plainText_parts (s : string) :
  plainText s = true ->
  Str.contains quote s = false /\ Str.contains comma s = false.
Proof.
  unfold plainText, quotable. intro H.
  repeat match goal with
         | H : _ && _ = true |- _ => apply andb_true_iff in H as [? ?]
         | H : negb _ = true |- _ => apply negb_true_iff in H
         end.
  now split.
Qed.

Lemma quotable_parts (s : string) :
  quotable s = true -> Str.contains quote s = false.
Proof.
  unfold quotable. intro H. apply andb_true_iff in H as [H _].
  now apply negb_true_iff in H.
Qed.

(** X1. The tokenizer undoes the joining of fields with commas, for fields
    without quote, comma and line break and without white space at their
    ends: [parseCSVLine (f1 , f2 , ... , fn)] is [[f1; f2; ...; fn]]. *)
Theorem parseCSVLine_concat (first : string) (others : list string) :
  Forall (fun f => plainText f = true /\ trimmedText f = true)
         (first :: others) ->
  parseCSVLine (String.concat "," (first :: others)) = first :: others.
Proof.
  unfold parseCSVLine. revert first.
  induction others as [|second rest IH]; intros first H;
    inversion H as [|? ? [Hplain Htrim] Hrest]; subst;
    apply plainText_parts in Hplain as [Hq Hc];
    apply String.eqb_eq in Htrim.
  - cbn [String.concat].
    rewrite <- (append_empty_r first) at 1.
    rewrite loop_text by auto. cbn [parseCSVLine_loop push app append].
    now rewrite Htrim.
  - change (String.concat "," (first :: second :: rest))
      with (first ++ "," ++ String.concat "," (second :: rest))%string.
    rewrite loop_text by auto. rewrite loop_comma. cbn [append push app].
    rewrite Htrim, loop_result, (IH second Hrest). reflexivity.
Qed.

Lemma parseCSVLine_concat_sample :
  parseCSVLine "Asset,Example Car,Vehicle,2021-06-15,25000,18000"
  = ["Asset"; "Example Car"; "Vehicle"; "2021-06-15"; "25000"; "18000"].
Proof.
  apply (parseCSVLine_concat
           "Asset" ["Example Car"; "Vehicle"; "2021-06-15"; "25000"; "18000"]).
  repeat constructor.
Defined.

(** X2. Between quotes a field keeps its commas: the tokenizer undoes the
    joining with commas of quoted fields, for fields without quote and
    without white space at their ends. *)
Theorem parseCSVLine_concat_quoted (first : string) (others : list string) :
  Forall (fun f => Str.contains quote f = false /\ trimmedText f = true)
         (first :: others) ->
  parseCSVLine (String.concat "," (map quoted (first :: others)))
  = first :: others.
Proof.
  unfold parseCSVLine. revert first.
  induction others as [|second rest IH]; intros first H;
    inversion H as [|? ? [Hq Htrim] Hrest]; subst;
    apply String.eqb_eq in Htrim.
  - cbn [map String.concat]. unfold quoted.
    rewrite loop_quote. rewrite loop_text by auto.
    rewrite <- (append_empty_r dq), loop_quote.
    cbn [parseCSVLine_loop push app append negb]. now rewrite Htrim.
  - change (String.concat "," (map quoted (first :: second :: rest)))
      with (quoted first ++ ","
            ++ String.concat "," (map quoted (second :: rest)))%string.
    unfold quoted at 1. rewrite !append_assoc.
    rewrite loop_quote. rewrite loop_text by auto.
    rewrite loop_quote. cbn [negb]. rewrite loop_comma. cbn [append push app].
    rewrite Htrim, loop_result, (IH second Hrest). reflexivity.
Qed.

Lemma parseCSVLine_concat_quoted_sample :
  parseCSVLine (String.concat "," (map quoted ["Asset"; "Doe, Jane"; "a,b,c"]))
  = ["Asset"; "Doe, Jane"; "a,b,c"].
Proof.
  apply (parseCSVLine_concat_quoted "Asset" ["Doe, Jane"; "a,b,c"]).
  repeat constructor.
Defined.

Lemma loop_count (line : string) :
  Str.contains quote line = false ->
  forall result current,
    List.length (parseCSVLine_loop line result current false)
    = List.length result + S (commas line).
Proof.
  induction line as [|c r IH]; intros Hq result current.
  - cbn. unfold push. rewrite length_app. reflexivity.
  - simpl in Hq. apply orb_false_iff in Hq as [Hc Hr].
    cbn [parseCSVLine_loop commas]. rewrite Hc.
    destruct (Ascii.eqb c comma); cbn [andb negb].
    + rewrite (IH Hr). unfold push. rewrite length_app. simpl. lia.
    + apply (IH Hr).
Qed.

(** X3. A line without quote has one field more than it has commas; so it
    passes the test of [parseCSV] on the number of fields exactly when it
    has 10 commas or more. *)
Theorem parseCSVLine_counts_commas (line : string) :
  Str.contains quote line = false ->
  List.length (parseCSVLine line) = S (commas line)
  /\ ((List.length (parseCSVLine line) <? 11)%nat = (commas line <? 10)%nat).
Proof.
  intro H. unfold parseCSVLine.
  rewrite (loop_count line H [] EmptyString). simpl. split; reflexivity.
Qed.

Lemma parseCSVLine_counts_commas_sample :
  List.length (parseCSVLine "Asset,Short,Cash,2020-01-01,1") = 5.
Proof.
  apply (parseCSVLine_counts_commas "Asset,Short,Cash,2020-01-01,1").
  reflexivity.
Defined.








(** ** Imports add, and never merge *)

Section MoreImport.

Variable idAt : nat -> string.
Variable isoAt : nat -> string.

Lemma parseCSV_result (csvText : string) (st : State) :
  exists newAssets newLiabilities q,
    parseCSV idAt isoAt csvText st
    = (imported newAssets newLiabilities q st,
       Normal (List.length newAssets, List.length newLiabilities))
    /\ List.length newAssets
       = List.length (filter acceptedAsset (dataRows csvText))
    /\ List.length newLiabilities
       = List.length (filter acceptedLiability (dataRows csvText)).
Proof.
  destruct (parseCSV_loop_adds idAt isoAt (tl (csvLines csvText)) 0 0 st)
    as (newA & newL & q & Hrun & HA & HL).
  exists newA, newL, q. unfold parseCSV, dataRows.
  split; [exact Hrun|].
  split; [exact (Forall2_length HA)|exact (Forall2_length HL)].
Qed.

(** X5. The two counts that [parseCSV] returns depend on the text alone, not
    on the store: they are the numbers of accepted rows. The records that
    were in the store stay at the front of the arrays, and importing the
    same text twice adds its records twice: nothing is merged. *)
Theorem parseCSV_adds_without_merging (csvText : string) (st : State) :
  outcomeOf (parseCSV idAt isoAt csvText st)
  = Normal (List.length (filter acceptedAsset (dataRows csvText)),
            List.length (filter acceptedLiability (dataRows csvText)))
  /\ firstn (List.length (assets st))
            (assets (stateOf (parseCSV idAt isoAt csvText st))) = assets st
  /\ firstn (List.length (liabilities st))
            (liabilities (stateOf (parseCSV idAt isoAt csvText st)))
     = liabilities st
  /\ List.length
       (assets (stateOf (parseCSV idAt isoAt csvText
                                  (stateOf (parseCSV idAt isoAt csvText st)))))
     = List.length (assets st)
       + 2 * List.length (filter acceptedAsset (dataRows csvText))
  /\ List.length
       (liabilities
          (stateOf (parseCSV idAt isoAt csvText
                             (stateOf (parseCSV idAt isoAt csvText st)))))
     = List.length (liabilities st)
       + 2 * List.length (filter acceptedLiability (dataRows csvText)).
Proof.
  destruct (parseCSV_result csvText st)
    as (a1 & l1 & q1 & H1 & Ha1 & Hl1).
  destruct (parseCSV_result csvText (imported a1 l1 q1 st))
    as (a2 & l2 & q2 & H2 & Ha2 & Hl2).
  rewrite H1. cbn [stateOf outcomeOf fst snd]. rewrite H2.
  cbn [stateOf fst imported assets liabilities].
  rewrite Ha1, Hl1. split; [reflexivity|].
  split; [now rewrite firstn_app, Nat.sub_diag, firstn_all, app_nil_r|].
  split; [now rewrite firstn_app, Nat.sub_diag, firstn_all, app_nil_r|].
  rewrite !length_app. lia.
Qed.

End MoreImport.

(** ** What the export does to liabilities *)

Lemma parseCSVLine_liabilityLine (l : Liability.t) :
  plainLiability l = true ->
  parseCSVLine (liabilityLine l)
  = [ "Liability"; Str.trim (Liability.name l);
      Str.trim (Liability.category l); EmptyString; EmptyString;
      Num.toString (Liability.originalAmount l);
      Num.toString (Liability.currentBalance l);
      Num.toString (Liability.interestRate l);
      Str.trim (Liability.startDate l);
      Str.trim (Liability.notes l) ].
Proof.
  unfold plainLiability, plainText, quotable. intro H.
  repeat match goal with
         | H : _ && _ = true |- _ => apply andb_true_iff in H as [? ?]
         | H : negb _ = true |- _ => apply negb_true_iff in H
         end.
  unfold parseCSVLine, liabilityLine. rewrite orElse_empty.
  change ("Liability," ++ ?r)%string with ("Liability" ++ "," ++ r)%string.
  change (",,," ++ ?r)%string with ("," ++ "," ++ "," ++ r)%string.
  rewrite (loop_text "Liability") by (try right; reflexivity).
  rewrite loop_comma, loop_quote.
  rewrite (loop_text (Liability.name l)) by (try left; easy).
  rewrite loop_quote, loop_comma.
  rewrite (loop_text (Liability.category l)) by (try right; easy).
  rewrite !loop_comma.
  rewrite (loop_text (Num.toString _))
    by (try right; apply toString_plain; auto).
  rewrite loop_comma.
  rewrite (loop_text (Num.toString _))
    by (try right; apply toString_plain; auto).
  rewrite loop_comma.
  rewrite (loop_text (Num.toString _))
    by (try right; apply toString_plain; auto).
  rewrite loop_comma.
  rewrite (loop_text (Liability.startDate l)) by (try right; easy).
  rewrite loop_comma, loop_quote.
  change dq with (dq ++ EmptyString)%string at 1.
  rewrite (loop_text (Liability.notes l)) by (try left; easy).
  rewrite loop_quote. cbn [negb parseCSVLine_loop push app append].
  rewrite !toString_trimmed. reflexivity.
Qed.

Lemma acceptedLiability_assetLine (a : Asset.t) :
  acceptedLiability (parseCSVLine (assetLine a)) = false.
Proof.
  unfold parseCSVLine, assetLine.
  change ("Asset," ++ ?r)%string with ("Asset" ++ "," ++ r)%string.
  rewrite (loop_text "Asset") by (try right; reflexivity).
  rewrite loop_comma.
  match goal with
    |- context [parseCSVLine_loop ?r ?res ?cur ?q] =>
      destruct (loop_extends r res cur q) as [more ->]
  end.
  unfold acceptedLiability. cbn [push app field nth].
  change (String.eqb (Str.trim (Str.trim "Asset")) "Liability") with false.
  now rewrite andb_false_r.
Qed.

Lemma assetLine_no_newline (a : Asset.t) :
  oneLineAsset a = true -> Str.contains newline (assetLine a) = false.
Proof.
  unfold oneLineAsset. intro H.
  repeat match goal with
         | H : _ && _ = true |- _ => apply andb_true_iff in H as [? ?]
         | H : negb _ = true |- _ => apply negb_true_iff in H
         end.
  unfold assetLine. rewrite orElse_empty, !contains_app.
  rewrite !(toString_plain _ newline) by auto.
  repeat match goal with
         | H : Str.contains newline _ = false |- _ => rewrite H; clear H
         end.
  reflexivity.
Qed.

Lemma plainLiability_one_line (l : Liability.t) :
  plainLiability l = true -> oneLineLiability l = true.
Proof.
  unfold plainLiability, plainText, quotable, oneLineLiability. intro H.
  repeat match goal with
         | H : _ && _ = true |- _ => apply andb_true_iff in H as [? ?]
         end.
  repeat match goal with
         | H : negb (Str.contains newline _) = true |- _ => rewrite H; clear H
         end.
  reflexivity.
Qed.

Lemma csvLines_exportData_lines (st : State) :
  Forall (fun a => oneLineAsset a = true) (assets st) ->
  Forall (fun l => oneLineLiability l = true) (liabilities st) ->
  csvLines (exportData st)
  = header :: map assetLine (assets st)
           ++ map liabilityLine (liabilities st).
Proof.
  intros HA HL. unfold csvLines. rewrite exportData_unlines.
  rewrite split_unlines.
  - rewrite filter_app.
    change (filter _ [EmptyString]) with (@nil string).
    rewrite app_nil_r. apply filter_all.
    constructor; [reflexivity|]. apply Forall_app. split.
    + apply Forall_map. apply Forall_forall. intros a _.
      apply (not_blank "A"). reflexivity.
    + apply Forall_map. apply Forall_forall. intros l _.
      apply (not_blank "L"). reflexivity.
  - constructor; [reflexivity|]. apply Forall_app. split.
    + apply Forall_map. revert HA. apply Forall_impl.
      intros a. apply assetLine_no_newline.
    + apply Forall_map. revert HL. apply Forall_impl.
      intros l. apply liabilityLine_one_line.
Qed.

(** X6. No liability that [exportData] writes comes back through [parseCSV]:
    the row of a liability has 10 fields, one less than the import asks
    for. This holds for every store whose texts have no line break and
    whose liabilities have no quote in their texts and no comma in their
    category and start date. *)
Theorem exported_liabilities_are_not_imported
        (idAt isoAt : nat -> string) (st st0 : State) :
  Forall (fun a => oneLineAsset a = true) (assets st) ->
  Forall (fun l => plainLiability l = true) (liabilities st) ->
  Forall (fun l => List.length (parseCSVLine (liabilityLine l)) = 10)
         (liabilities st)
  /\ (exists assetsAdded,
         outcomeOf (parseCSV idAt isoAt (exportData st) st0)
         = Normal (assetsAdded, 0))
  /\ liabilities (stateOf (parseCSV idAt isoAt (exportData st) st0))
     = liabilities st0.
Proof.
  intros HA HL.
  assert (H10 : Forall (fun l => List.length (parseCSVLine (liabilityLine l))
                                 = 10) (liabilities st)).
  { revert HL. apply Forall_impl. intros l Hl.
    now rewrite (parseCSVLine_liabilityLine l Hl). }
  split; [exact H10|].
  destruct (parseCSV_loop_adds idAt isoAt (tl (csvLines (exportData st)))
                               0 0 st0)
    as (newA & newL & q & Hrun & _ & Hmade).
  assert (HL1 : Forall (fun l => oneLineLiability l = true) (liabilities st)).
  { revert HL. apply Forall_impl. apply plainLiability_one_line. }
  rewrite (csvLines_exportData_lines st HA HL1) in Hrun, Hmade.
  cbn [tl] in Hrun, Hmade.
  rewrite (filter_none acceptedLiability) in Hmade.
  2:{ rewrite map_app. apply Forall_app. split.
      - rewrite map_map. apply Forall_map. apply Forall_forall.
        intros a _. apply acceptedLiability_assetLine.
      - rewrite map_map. apply Forall_map. revert H10. apply Forall_impl.
        intros l Hl. unfold acceptedLiability. rewrite Hl. reflexivity. }
  inversion Hmade; subst.
  unfold parseCSV. rewrite (csvLines_exportData_lines st HA HL1). cbn [tl].
  rewrite Hrun. cbn. split; [eexists; reflexivity|apply app_nil_r].
Qed.

Lemma exported_liabilities_sample :
  liabilities (stateOf (parseCSV Sample.idAt Sample.isoAt
                                 (exportData Sample.store) initialState))
  = [].
Proof.
  apply (exported_liabilities_are_not_imported
           Sample.idAt Sample.isoAt Sample.store initialState).
  - constructor; [vm_compute; reflexivity|constructor].
  - constructor; [vm_compute; reflexivity|constructor].
Defined.

(** ** Deletions *)






(** X10. [deleteAllData] empties the three arrays when the user confirms twice,
    and then the totals and the net worth are 0 and no snapshot is
    displayed; it changes nothing when the user declines either
    question. It never fails, and it leaves the id being edited alone. *)
Theorem deleteAllData_needs_two_confirmations
        (confirmed reallySure : bool) (st : State) :
  outcomeOf (deleteAllData confirmed reallySure st) = Normal tt
  /\ (confirmed && reallySure = false ->
      stateOf (deleteAllData confirmed reallySure st) = st)
  /\ (confirmed && reallySure = true ->
      assets (stateOf (deleteAllData confirmed reallySure st)) = []
      /\ liabilities (stateOf (deleteAllData confirmed reallySure st)) = []
      /\ snapshots (stateOf (deleteAllData confirmed reallySure st)) = []
      /\ calculateNetWorth (stateOf (deleteAllData confirmed reallySure st))
         = Num.zero
      /\ displaySnapshots (stateOf (deleteAllData confirmed reallySure st))
         = []
      /\ editingAssetId (stateOf (deleteAllData confirmed reallySure st))
         = editingAssetId st).
Proof.
  destruct confirmed, reallySure; cbn; repeat split; try discriminate;
    reflexivity.
Qed.

Lemma deleteAllData_sample :
  stateOf (deleteAllData true false Sample.store) = Sample.store
  /\ assets (stateOf (deleteAllData true true Sample.store)) = [].
Proof.
  split.
  - apply (deleteAllData_needs_two_confirmations true false Sample.store).
    reflexivity.
  - apply (deleteAllData_needs_two_confirmations true true Sample.store).
    reflexivity.
Defined.

(** ** The snapshots on the page *)

Lemma lastOf_snoc {A} (xs : list A) (x : A) : lastOf (xs ++ [x]) = Some x.
Proof.
  induction xs as [|y r IH]; [reflexivity|].
  cbn [app lastOf]. rewrite IH. now destruct (r ++ [x]) eqn:H;
    [destruct r; discriminate|].
Qed.

(** X11. [displaySnapshots] shows the 5 most recent snapshots, or all of them
    when there are fewer, the most recent first: the list shown, reversed,
    is the end of the history. After [takeSnapshot] the new snapshot comes
    first, followed by the first 4 of what was shown before. *)
Theorem displaySnapshots_shows_the_last_five
        (idAt isoAt : nat -> string) (answer : option string) (st : State) :
  List.length (displaySnapshots st) = Nat.min 5 (List.length (snapshots st))
  /\ (exists older, snapshots st = older ++ rev (displaySnapshots st))
  /\ exists snapshot,
       lastOf (snapshots (stateOf (takeSnapshot idAt isoAt answer st)))
       = Some snapshot
       /\ displaySnapshots (stateOf (takeSnapshot idAt isoAt answer st))
          = snapshot :: firstn 4 (displaySnapshots st).
Proof.
  unfold displaySnapshots. split; [|split].
  - rewrite length_rev, length_skipn. lia.
  - exists (firstn (List.length (snapshots st) - 5) (snapshots st)).
    rewrite rev_involutive. symmetry. apply firstn_skipn.
  - rewrite takeSnapshot_result. cbn [stateOf fst set_snapshots snapshots].
    eexists. split; [apply lastOf_snoc|].
    set (s := snapshots st).
    rewrite length_app. cbn [List.length].
    rewrite skipn_app, rev_app_distr.
    replace (List.length s + 1 - 5 - List.length s) with 0 by lia.
    cbn [skipn rev app]. f_equal.
    rewrite firstn_rev, skipn_skipn, length_skipn. f_equal. f_equal. lia.
Qed.

(** ** The change shown in the overview *)

Lemma sub_self (x : Num.number) :
  Num.isFinite x = true -> Num.sub x x = Num.zero.
Proof.
  destruct x as [[|]|s| |s m e]; try discriminate; intros _;
    try reflexivity.
  unfold Num.sub, SFsub. rewrite Z.sub_diag. reflexivity.
Qed.

Lemma sub_self_not_finite (x : Num.number) :
  Num.isFinite x = false -> Num.sub x x = Num.NaN.
Proof. destruct x as [s|[|]| |s m e]; try discriminate; reflexivity. Qed.

(** X12. [updateOverview] shows no change while there is no snapshot. The
    percentage it shows is 0, never the result of a division by 0, when
    the net worth of the last snapshot is 0. Right after [takeSnapshot] it
    shows no change when the net worth is finite; when the net worth is
    not a finite number it shows a decrease of NaN by NaN percent. *)
Theorem updateOverview_change_after_snapshot
        (idAt isoAt : nat -> string) (answer : option string) (st : State) :
  (snapshots st = [] -> updateOverview_change st = NoChangeLine)
  /\ (forall lastSnapshot s,
         lastOf (snapshots st) = Some lastSnapshot ->
         Snapshot.netWorth lastSnapshot = S754_zero s ->
         updateOverview_change st = NoChangeLine
         \/ exists up amount,
              updateOverview_change st = ChangeText up amount Num.zero)
  /\ (Num.isFinite (calculateNetWorth st) = true ->
      updateOverview_change (stateOf (takeSnapshot idAt isoAt answer st))
      = NoChangeLine)
  /\ (Num.isFinite (calculateNetWorth st) = false ->
      updateOverview_change (stateOf (takeSnapshot idAt isoAt answer st))
      = ChangeText false Num.NaN Num.NaN).
Proof.
  split; [|split; [|split]].
  - unfold updateOverview_change. now intros ->.
  - intros lastSnapshot s Hlast Hzero. unfold updateOverview_change.
    rewrite Hlast, Hzero.
    replace (strictNe (S754_zero s) Num.zero) with false
      by now destruct s.
    destruct (strictNe _ Num.zero); [right; eauto|now left].
  - intro Hfinite. rewrite takeSnapshot_result.
    unfold updateOverview_change.
    cbn [stateOf fst set_snapshots snapshots]. rewrite lastOf_snoc.
    cbn [Snapshot.netWorth].
    change (calculateNetWorth (set_snapshots _ _)) with (calculateNetWorth st).
    now rewrite (sub_self _ Hfinite).
  - intro Hfinite. rewrite takeSnapshot_result.
    unfold updateOverview_change.
    cbn [stateOf fst set_snapshots snapshots]. rewrite lastOf_snoc.
    cbn [Snapshot.netWorth].
    change (calculateNetWorth (set_snapshots _ _)) with (calculateNetWorth st).
    rewrite (sub_self_not_finite _ Hfinite).
    destruct (calculateNetWorth st) as [s|[|]| |s m e]; try discriminate;
      reflexivity.
Qed.

Lemma updateOverview_change_sample :
  updateOverview_change initialState = NoChangeLine
  /\ updateOverview_change
       (stateOf (takeSnapshot Sample.idAt Sample.isoAt None Sample.store))
     = NoChangeLine
  /\ (updateOverview_change
        (set_assets [Sample.car]
           (stateOf (takeSnapshot Sample.idAt Sample.isoAt None initialState)))
      = NoChangeLine
      \/ exists up amount,
           updateOverview_change
             (set_assets [Sample.car]
                (stateOf (takeSnapshot Sample.idAt Sample.isoAt None
                                       initialState)))
           = ChangeText up amount Num.zero)
  /\ updateOverview_change
       (stateOf (takeSnapshot Sample.idAt Sample.isoAt None
                              (Sample.only (Sample.asset "Boat" "Other"
                                 "2020-01-01" (Num.ofZ 1)
                                 (S754_infinity false)))))
     = ChangeText false Num.NaN Num.NaN.
Proof.
  split; [|split; [|split]].
  - apply (updateOverview_change_after_snapshot
             Sample.idAt Sample.isoAt None initialState). reflexivity.
  - apply (updateOverview_change_after_snapshot
             Sample.idAt Sample.isoAt None Sample.store). reflexivity.
  - eapply (updateOverview_change_after_snapshot
              Sample.idAt Sample.isoAt None); reflexivity.
  - apply (updateOverview_change_after_snapshot
             Sample.idAt Sample.isoAt None). reflexivity.
Defined.

(** ** The two link selectors *)

(** X13. The two selectors follow one table. A liability of the store is
    offered as the debt of an asset of the store exactly when that asset
    is offered as the asset of the liability, and exactly when their
    categories are Real Estate and Mortgage, Vehicle and Auto Loan, or
    Business Interest and Business Loan; for every other category the
    selector is hidden. *)
Theorem link_options_are_symmetric (st : State) (a : Asset.t)
        (l : Liability.t) :
  In a (assets st) -> In l (liabilities st) ->
  (offered l (updateAssetDebtOptions (Asset.category a) st)
   <-> offered a (updateLiabilityAssetOptions (Liability.category l) st))
  /\ (offered l (updateAssetDebtOptions (Asset.category a) st)
      <-> (Asset.category a = "Real Estate"
           /\ Liability.category l = "Mortgage")
          \/ (Asset.category a = "Vehicle"
              /\ Liability.category l = "Auto Loan")
          \/ (Asset.category a = "Business Interest"
              /\ Liability.category l = "Business Loan"))
  /\ (Asset.category a <> "Real Estate" -> Asset.category a <> "Vehicle" ->
      Asset.category a <> "Business Interest" ->
      updateAssetDebtOptions (Asset.category a) st = None).
Proof.
  intros Ha Hl.
  assert (Hdebt :
    offered l (updateAssetDebtOptions (Asset.category a) st)
    <-> (Asset.category a = "Real Estate" /\ Liability.category l = "Mortgage")
        \/ (Asset.category a = "Vehicle" /\ Liability.category l = "Auto Loan")
        \/ (Asset.category a = "Business Interest"
            /\ Liability.category l = "Business Loan")).
  { unfold updateAssetDebtOptions, offered. cbn [existsb].
    destruct (String.eqb_spec (Asset.category a) "Real Estate") as [E1|E1];
      [rewrite E1; cbn; rewrite filter_In, String.eqb_eq;
       intuition (try discriminate; auto)|].
    destruct (String.eqb_spec (Asset.category a) "Vehicle") as [E2|E2];
      [rewrite E2; cbn; rewrite filter_In, String.eqb_eq;
       intuition (try discriminate; auto)|].
    destruct (String.eqb_spec (Asset.category a) "Business Interest")
      as [E3|E3];
      [rewrite E3; cbn; rewrite filter_In, String.eqb_eq;
       intuition (try discriminate; auto)|].
    cbn. intuition congruence. }
  assert (Hasset :
    offered a (updateLiabilityAssetOptions (Liability.category l) st)
    <-> (Asset.category a = "Real Estate" /\ Liability.category l = "Mortgage")
        \/ (Asset.category a = "Vehicle" /\ Liability.category l = "Auto Loan")
        \/ (Asset.category a = "Business Interest"
            /\ Liability.category l = "Business Loan")).
  { unfold updateLiabilityAssetOptions, offered. cbn [existsb].
    destruct (String.eqb_spec (Liability.category l) "Mortgage") as [E1|E1];
      [rewrite E1; cbn; rewrite filter_In, String.eqb_eq;
       intuition (try discriminate; auto)|].
    destruct (String.eqb_spec (Liability.category l) "Auto Loan") as [E2|E2];
      [rewrite E2; cbn; rewrite filter_In, String.eqb_eq;
       intuition (try discriminate; auto)|].
    destruct (String.eqb_spec (Liability.category l) "Business Loan")
      as [E3|E3];
      [rewrite E3; cbn; rewrite filter_In, String.eqb_eq;
       intuition (try discriminate; auto)|].
    cbn. intuition congruence. }
  split; [now rewrite Hdebt, Hasset|]. split; [exact Hdebt|].
  intros N1 N2 N3. unfold updateAssetDebtOptions. cbn [existsb].
  apply String.eqb_neq in N1, N2, N3. now rewrite N1, N2, N3.
Qed.

Lemma link_options_sample :
  offered Sample.mortgage
          (updateAssetDebtOptions (Asset.category Sample.home) Sample.store)
  <-> offered Sample.home
              (updateLiabilityAssetOptions
                 (Liability.category Sample.mortgage) Sample.store).
Proof.
  apply (link_options_are_symmetric Sample.store Sample.home Sample.mortgage);
    left; reflexivity.
Defined.

(** ** Equity by category, and the paid-off line *)

Lemma calculateAssetEquity_without_liabilities (st : State) (a : Asset.t) :
  liabilities st = [] -> calculateAssetEquity st a = Asset.currentValue a.
Proof.
  intro H. unfold calculateAssetEquity. rewrite H.
  now destruct (negb (truthyId (Asset.associatedDebtId a))).
Qed.

Lemma categoryEquity_push (category : string) (st : State) (a : Asset.t) :
  Asset.category a <> category ->
  categoryEquity category (set_assets (push (assets st) a) st)
  = categoryEquity category st.
Proof.
  intro H. unfold categoryEquity, push. cbn [set_assets assets].
  rewrite filter_app. cbn [filter].
  apply String.eqb_neq in H. rewrite H, app_nil_r. reflexivity.
Qed.

Lemma categoryEquity_without_liabilities (category : string) (st : State) :
  liabilities st = [] ->
  categoryEquity category st
  = Num.sum (map Asset.currentValue
                 (filter (fun a => String.eqb (Asset.category a) category)
                         (assets st))).
Proof.
  intro H. unfold categoryEquity, Num.sum.
  rewrite fold_add_map. f_equal. apply map_ext.
  intro a. now apply calculateAssetEquity_without_liabilities.
Qed.

(** X14. [calculateRealEstateEquity] and [calculateVehicleEquity] are 0 for a
    store without asset of their category, an asset of another category
    added to the store changes neither, and in a store without liabilities
    they are the sums of the current values of the assets of their
    category. *)
Theorem category_equity_counts_its_category (st : State) :
  ((forall a, In a (assets st) -> Asset.category a <> "Real Estate") ->
   calculateRealEstateEquity st = Num.zero)
  /\ ((forall a, In a (assets st) -> Asset.category a <> "Vehicle") ->
      calculateVehicleEquity st = Num.zero)
  /\ (forall a, Asset.category a <> "Real Estate" ->
        calculateRealEstateEquity (set_assets (push (assets st) a) st)
        = calculateRealEstateEquity st)
  /\ (forall a, Asset.category a <> "Vehicle" ->
        calculateVehicleEquity (set_assets (push (assets st) a) st)
        = calculateVehicleEquity st)
  /\ (liabilities st = [] ->
      calculateRealEstateEquity st
      = Num.sum (map Asset.currentValue
                     (filter (fun a => String.eqb (Asset.category a)
                                                  "Real Estate")
                             (assets st)))
      /\ calculateVehicleEquity st
         = Num.sum (map Asset.currentValue
                        (filter (fun a => String.eqb (Asset.category a)
                                                     "Vehicle")
                                (assets st)))).
Proof.
  unfold calculateRealEstateEquity, calculateVehicleEquity.
  split; [|split; [|split; [|split]]].
  - intro H. unfold categoryEquity. rewrite filter_none; [reflexivity|].
    apply Forall_forall. intros a Ha. apply String.eqb_neq. now apply H.
  - intro H. unfold categoryEquity. rewrite filter_none; [reflexivity|].
    apply Forall_forall. intros a Ha. apply String.eqb_neq. now apply H.
  - intros a Ha. now apply categoryEquity_push.
  - intros a Ha. now apply categoryEquity_push.
  - intro H. split; now apply categoryEquity_without_liabilities.
Qed.

Lemma category_equity_sample :
  calculateVehicleEquity Sample.store = Num.zero
  /\ calculateRealEstateEquity (set_assets (push (assets Sample.store) Sample.car)
                                           Sample.store)
     = calculateRealEstateEquity Sample.store
  /\ calculateRealEstateEquity Sample.store = Num.ofZ 110000
  /\ calculateRealEstateEquity (set_liabilities [] Sample.store)
     = Num.sum [Num.ofZ 350000].
Proof.
  destruct (category_equity_counts_its_category Sample.store)
    as (_ & Hnone & Hpush & _).
  destruct (category_equity_counts_its_category
              (set_liabilities [] Sample.store)) as (_ & _ & _ & _ & Hsum).
  split; [|split; [|split]].
  - apply Hnone. intros a [<-|[]]. discriminate.
  - apply Hpush. discriminate.
  - vm_compute. reflexivity.
  - apply Hsum. reflexivity.
Defined.

(** X15. For a liability whose original amount is 0, [displayLiabilities]
    writes the paid-off line only when the current balance is negative:
    for a balance of 0 or more, and for NaN, the percentage is NaN or
    -Infinity and no line is written. For an original amount of -0, which
    is what the text -0 parses to and is [=== 0] too, it is the other way
    round: the line is written only when the current balance is positive,
    the percentage being +Infinity then. *)
Theorem payoffShown_of_zero_original (l : Liability.t) (s : bool) :
  Liability.originalAmount l = S754_zero s ->
  payoffShown l
  = if s then Num.ltb Num.zero (Liability.currentBalance l)
    else Num.ltb (Liability.currentBalance l) Num.zero.
Proof.
  intro H. unfold payoffShown, calculatePayoffPercentage. rewrite H.
  destruct ofZ_100 as (m & e & ->).
  destruct s, (Liability.currentBalance l) as [[|]|[|]| |[|] mb eb];
    reflexivity.
Qed.

Lemma payoffShown_sample :
  payoffShown (Sample.loan 0 400) = false
  /\ payoffShown (Sample.loan 0 0) = false
  /\ payoffShown (Sample.loan 0 (-5)) = true
  /\ payoffShown (Sample.borrowed "-0" "5") = true
  /\ payoffShown (Sample.borrowed "-0" "0") = false
  /\ payoffShown (Sample.borrowed "-0" "-5") = false
  /\ calculatePayoffPercentage (Sample.borrowed "-0" "5") = S754_infinity false.
Proof.
  rewrite !(payoffShown_of_zero_original _ false) by reflexivity.
  rewrite !(payoffShown_of_zero_original _ true) by reflexivity.
  repeat split.
Defined.

(** ** The breakdown by category *)

Lemma lookup_bump_same (category : string) (value : Num.number)
      (groups : Groups) :
  lookup category (bump category value groups)
  = Some match lookup category groups with
         | None => {| count := 1; total := Num.add Num.zero value |}
         | Some g => {| count := S (count g);
                        total := Num.add (total g) value |}
         end.
Proof.
  unfold lookup. induction groups as [|[c g] r IH]; cbn.
  - now rewrite String.eqb_refl.
  - destruct (String.eqb c category) eqn:Hc; cbn; rewrite Hc; [reflexivity|].
    exact IH.
Qed.

Lemma lookup_bump_other (category other : string) (value : Num.number)
      (groups : Groups) :
  other <> category ->
  lookup category (bump other value groups) = lookup category groups.
Proof.
  intro Hne. unfold lookup. induction groups as [|[c g] r IH]; cbn.
  - apply String.eqb_neq in Hne. now rewrite Hne.
  - destruct (String.eqb c other) eqn:Hc; cbn.
    + apply String.eqb_eq in Hc. subst c.
      apply String.eqb_neq in Hne. now rewrite Hne.
    + destruct (String.eqb c category); [reflexivity|exact IH].
Qed.

Lemma lookup_groupStep {A} (category : A -> string) (value : A -> Num.number)
      (c : string) (records : list A) :
  forall groups,
    lookup c (fold_left (groupStep category value) records groups)
    = if inherited c then lookup c groups
      else
        match filter (fun r => String.eqb (category r) c) records,
              lookup c groups with
        | [], found => found
        | xs, None =>
            Some {| count := List.length xs;
                    total := Num.sum (map value xs) |}
        | xs, Some g =>
            Some {| count := count g + List.length xs;
                    total := fold_left Num.add (map value xs) (total g) |}
        end.
Proof.
  induction records as [|r rest IH]; intro groups; cbn [fold_left filter].
  - now destruct (inherited c), (lookup c groups).
  - rewrite IH. clear IH. unfold groupStep.
    destruct (inherited c) eqn:Hc.
    + destruct (inherited (category r)) eqn:Hr; [reflexivity|].
      apply lookup_bump_other. intros E. rewrite E in Hr. congruence.
    + destruct (String.eqb (category r) c) eqn:E.
      * apply String.eqb_eq in E. rewrite E, Hc, lookup_bump_same.
        destruct (filter _ rest) as [|x xs], (lookup c groups) as [g|];
          cbn [List.length map fold_left count total Num.sum];
          try reflexivity.
        -- f_equal. f_equal. lia.
        -- f_equal. f_equal. lia.
      * apply String.eqb_neq in E.
        destruct (inherited (category r)); [reflexivity|].
        now rewrite lookup_bump_other.
Qed.

Lemma groupStep_inherited {A} (category : A -> string)
      (value : A -> Num.number) (records : list A) :
  Forall (fun r => inherited (category r) = true) records ->
  forall groups, fold_left (groupStep category value) records groups = groups.
Proof.
  induction 1 as [|r rest Hr _ IH]; intro groups; [reflexivity|].
  cbn [fold_left]. unfold groupStep at 2. now rewrite Hr.
Qed.

(** X16. The breakdown of [updateBreakdown] holds, under each category that is
    not a name every object inherits, the number of the assets of that
    category and the sum of their current values (of the liabilities and
    of their balances), and nothing when the store has no record of that
    category. It holds nothing under an inherited name such as
    constructor: a store whose records all have such categories is shown
    as having nothing to display. *)
Theorem breakdown_counts_and_totals (st : State) (c : string) :
  (inherited c = false ->
   lookup c (assetsByCategory st)
   = match filter (fun a => String.eqb (Asset.category a) c) (assets st) with
     | [] => None
     | xs => Some {| count := List.length xs;
                     total := Num.sum (map Asset.currentValue xs) |}
     end
   /\ lookup c (liabilitiesByCategory st)
      = match filter (fun l => String.eqb (Liability.category l) c)
                     (liabilities st) with
        | [] => None
        | xs => Some {| count := List.length xs;
                        total := Num.sum (map Liability.currentBalance xs) |}
        end)
  /\ (inherited c = true ->
      lookup c (assetsByCategory st) = None
      /\ lookup c (liabilitiesByCategory st) = None)
  /\ (Forall (fun a => inherited (Asset.category a) = true) (assets st) ->
      assetsByCategory st = []).
Proof.
  unfold assetsByCategory, liabilitiesByCategory.
  split; [|split].
  - intro Hc. rewrite !lookup_groupStep, Hc. cbn [lookup find].
    split; [now destruct (filter _ (assets st))
           |now destruct (filter _ (liabilities st))].
  - intro Hc. rewrite !lookup_groupStep, Hc. split; reflexivity.
  - intro H. now apply groupStep_inherited.
Qed.

Lemma breakdown_sample :
  lookup "Real Estate" (assetsByCategory Sample.store)
  = Some {| count := 1; total := Num.ofZ 350000 |}
  /\ lookup "Vehicle" (assetsByCategory Sample.store) = None
  /\ lookup "constructor"
            (assetsByCategory
               (Sample.only (Sample.asset "Gold" "constructor" "2020-01-01"
                                          (Num.ofZ 1) (Num.ofZ 2)))) = None
  /\ assetsByCategory
       (Sample.only (Sample.asset "Gold" "constructor" "2020-01-01"
                                  (Num.ofZ 1) (Num.ofZ 2))) = [].
Proof.
  destruct (breakdown_counts_and_totals Sample.store "Real Estate")
    as (H1 & _).
  destruct (breakdown_counts_and_totals Sample.store "Vehicle") as (H2 & _).
  destruct (breakdown_counts_and_totals
              (Sample.only (Sample.asset "Gold" "constructor" "2020-01-01"
                                         (Num.ofZ 1) (Num.ofZ 2)))
              "constructor") as (_ & H3 & H4).
  split; [|split; [|split]].
  - destruct (H1 eq_refl) as [-> _]. vm_compute. reflexivity.
  - destruct (H2 eq_refl) as [-> _]. reflexivity.
  - now destruct (H3 eq_refl).
  - apply H4. repeat constructor.
Defined.

(** ** What a submission can do *)

Section SubmissionCases.

Variable idAt : nat -> string.
Variable isoAt : nat -> string.

Lemma handleLiabilitySubmit_stale (form : LiabilityForm) (st : State)
      (e : string) :
  editingLiabilityId st = Some e -> e <> EmptyString ->
  (forall l, In l (liabilities st) -> Liability.id l <> e) ->
  handleLiabilitySubmit idAt isoAt form st = (st, Throw TypeError).
Proof.
  intros Hedit Hne Hnone.
  assert (Hfind : find (fun l => strictEq (Liability.id l) (Some e))
                       (liabilities st) = None).
  { apply find_absent. intros l Hl. apply strictEq_false. now apply Hnone. }
  cbn -[find] in Hfind.
  unfold handleLiabilitySubmit, bind, gets.
  rewrite Hedit. cbn -[find findIndex assign updateAllDisplays].
  rewrite !(truthy_nonempty e Hne). cbn -[find findIndex assign updateAllDisplays].
  rewrite Hfind. reflexivity.
Qed.

Lemma handleAssetSubmit_cases (form : AssetForm) (st : State) :
  (exists e before old after,
      assets st = before ++ old :: after /\ Asset.id old = e
      /\ handleAssetSubmit idAt isoAt form st
         = refreshed
             (stored
                (before
                 ++ assetData form e (Asset.createdAt old) (isoAt (queries st))
                 :: after)
                (liabilities st) (S (queries st)) st))
  \/ handleAssetSubmit idAt isoAt form st
     = refreshed
         (stored
            (assets st ++ [assetData form (idAt (queries st))
                                     (isoAt (S (queries st)))
                                     (isoAt (S (S (queries st))))])
            (liabilities st) (S (S (S (queries st)))) st)
  \/ (truthyId (editingAssetId st) = true
      /\ handleAssetSubmit idAt isoAt form st = (st, Throw TypeError)).
Proof.
  destruct (truthyId (editingAssetId st)) eqn:Hedit.
  - destruct (editingAssetId st) as [e|] eqn:He; [|discriminate].
    assert (Hne : e <> EmptyString) by (destruct e; [discriminate|congruence]).
    destruct (find (fun a => String.eqb (Asset.id a) e) (assets st))
      as [old|] eqn:Hfind.
    + left.
      destruct (find_split _ _ _ Hfind) as (before & after & Hst & Hold & Hb).
      apply String.eqb_eq in Hold.
      exists e, before, old, after. repeat split; try assumption.
      apply handleAssetSubmit_replaces; try assumption.
      intros a Ha. apply String.eqb_neq. now apply Hb.
    + right. right. split; [reflexivity|].
      apply (handleAssetSubmit_stale idAt isoAt form st e); try assumption.
      intros a Ha. apply String.eqb_neq. now apply (find_none _ _ Hfind).
  - right. left. now apply handleAssetSubmit_appends.
Qed.

Lemma handleLiabilitySubmit_cases (form : LiabilityForm) (st : State) :
  (exists e before old after,
      liabilities st = before ++ old :: after /\ Liability.id old = e
      /\ handleLiabilitySubmit idAt isoAt form st
         = refreshed
             (stored
                (assets st)
                (before
                 ++ liabilityData form e (Liability.createdAt old)
                                  (isoAt (queries st))
                 :: after)
                (S (queries st)) st))
  \/ handleLiabilitySubmit idAt isoAt form st
     = refreshed
         (stored
            (assets st)
            (liabilities st ++ [liabilityData form (idAt (queries st))
                                              (isoAt (S (queries st)))
                                              (isoAt (S (S (queries st))))])
            (S (S (S (queries st)))) st)
  \/ (truthyId (editingLiabilityId st) = true
      /\ handleLiabilitySubmit idAt isoAt form st = (st, Throw TypeError)).
Proof.
  destruct (truthyId (editingLiabilityId st)) eqn:Hedit.
  - destruct (editingLiabilityId st) as [e|] eqn:He; [|discriminate].
    assert (Hne : e <> EmptyString) by (destruct e; [discriminate|congruence]).
    destruct (find (fun l => String.eqb (Liability.id l) e) (liabilities st))
      as [old|] eqn:Hfind.
    + left.
      destruct (find_split _ _ _ Hfind) as (before & after & Hst & Hold & Hb).
      apply String.eqb_eq in Hold.
      exists e, before, old, after. repeat split; try assumption.
      apply handleLiabilitySubmit_replaces; try assumption.
      intros l Hl. apply String.eqb_neq. now apply Hb.
    + right. right. split; [reflexivity|].
      apply (handleLiabilitySubmit_stale form st e); try assumption.
      intros l Hl. apply String.eqb_neq. now apply (find_none _ _ Hfind).
  - right. left. now apply handleLiabilitySubmit_appends.
Qed.


End SubmissionCases.


(** ** Ids stay unique *)

Lemma NoDup_map_filter {A B} (f : A -> B) (p : A -> bool) (xs : list A) :
  NoDup (map f xs) -> NoDup (map f (filter p xs)).
Proof.
  induction xs as [|x r IH]; intro H; [constructor|].
  cbn in *. inversion H as [|? ? Hx Hr]; subst.
  destruct (p x); [|now apply IH].
  cbn. constructor; [|now apply IH].
  intro Hin. apply Hx. apply in_map_iff in Hin as (y & <- & Hy).
  apply filter_In in Hy as [Hy _]. now apply in_map.
Qed.

Lemma In_map_filter {A B} (f : A -> B) (p : A -> bool) (xs : list A) (y : B) :
  In y (map f (filter p xs)) -> In y (map f xs).
Proof.
  intro H. apply in_map_iff in H as (x & <- & Hx).
  apply filter_In in Hx as [Hx _]. now apply in_map.
Qed.

Section Ids.

Variable idAt : nat -> string.
Variable isoAt : nat -> string.
Hypothesis idAt_injective : forall j k, idAt j = idAt k -> j = k.

Lemma evolve_same (q q' : nat) (ids : list string) :
  NoDup ids -> idsEvolve idAt q q' ids ids.
Proof. intro H. split; [assumption|]. intros x Hx. now left. Qed.

Lemma evolve_filter {A} (f : A -> string) (p : A -> bool) (q q' : nat)
      (xs : list A) :
  NoDup (map f xs) -> idsEvolve idAt q q' (map f xs) (map f (filter p xs)).
Proof.
  intro H. split; [now apply NoDup_map_filter|].
  intros x Hx. left. now apply (In_map_filter f p).
Qed.

Lemma evolve_push (q q' : nat) (ids : list string) :
  NoDup ids -> ~ In (idAt q) ids -> q < q' ->
  idsEvolve idAt q q' ids (ids ++ [idAt q]).
Proof.
  intros Hnd Hfresh Hq. split.
  - apply NoDup_app; [assumption|repeat constructor; intros []|].
    intros x Hx [<-|[]]. contradiction.
  - intros x Hx. apply in_app_or in Hx as [Hx|[<-|[]]]; [now left|].
    right. exists q. split; [lia|reflexivity].
Qed.

Lemma evolve_nil (q q' : nat) (ids : list string) : idsEvolve idAt q q' ids [].
Proof. split; [constructor|intros x []]. Qed.

(** A step keeps the ids unique and the coming ids fresh when the ids of
    each array evolve. *)
Lemma step_keeps_ids (st st' : State) :
  uniqueIds st -> idsFresh idAt st ->
  queries st <= queries st' ->
  idsEvolve idAt (queries st) (queries st')
            (map Asset.id (assets st)) (map Asset.id (assets st')) ->
  idsEvolve idAt (queries st) (queries st')
            (map Liability.id (liabilities st))
            (map Liability.id (liabilities st')) ->
  idsEvolve idAt (queries st) (queries st')
            (map Snapshot.id (snapshots st)) (map Snapshot.id (snapshots st')) ->
  uniqueIds st' /\ idsFresh idAt st'.
Proof.
  intros _ Hfresh Hq [HA1 HA2] [HL1 HL2] [HS1 HS2].
  split; [now repeat split|].
  intros k Hk. destruct (Hfresh k ltac:(lia)) as (FA & FL & FS).
  repeat split; intro Hin;
    [apply HA2 in Hin|apply HL2 in Hin|apply HS2 in Hin];
    destruct Hin as [Hin|(j & Hj & E)]; try contradiction;
    apply idAt_injective in E; lia.
Qed.

Lemma parseCSV_loop_keeps_ids (lines : list string) :
  forall assetsAdded liabilitiesAdded st,
    uniqueIds st -> idsFresh idAt st ->
    uniqueIds (stateOf (parseCSV_loop idAt isoAt lines assetsAdded
                                      liabilitiesAdded st))
    /\ idsFresh idAt (stateOf (parseCSV_loop idAt isoAt lines assetsAdded
                                             liabilitiesAdded st)).
Proof.
  induction lines as [|line rest IH]; intros na nl st Hu Hf; [now split|].
  cbn [parseCSV_loop].
  destruct (List.length (parseCSVLine line) <? 11)%nat; [now apply IH|].
  destruct Hu as (UA & UL & US).
  destruct (Hf (queries st) (le_n _)) as (FA & FL & FS).
  destruct (String.eqb (Str.trim (field (parseCSVLine line) 0)) "Asset").
  - unfold bind, generateId, newDateISO, modify.
    cbn -[parseCSV_loop parseCSVLine].
    match goal with |- context [if ?c then _ else _] => destruct c end.
    + match goal with
        |- context [parseCSV_loop _ _ rest ?a ?l ?s] =>
          apply (IH a l s); apply (step_keeps_ids st s);
            try (now repeat split); try assumption; cbn; try lia
      end.
      * unfold push. rewrite map_app. apply evolve_push; try assumption. lia.
      * now apply evolve_same.
      * now apply evolve_same.
      * unfold push. rewrite map_app. apply evolve_push; try assumption. lia.
      * now apply evolve_same.
      * now apply evolve_same.
    + match goal with
        |- context [parseCSV_loop _ _ rest ?a ?l ?s] =>
          apply (IH a l s); apply (step_keeps_ids st s);
            try (now repeat split); try assumption; cbn; try lia;
            now apply evolve_same
      end.
  - destruct (String.eqb (Str.trim (field (parseCSVLine line) 0)) "Liability");
      [|now apply IH].
    unfold bind, generateId, newDateISO, modify.
    cbn -[parseCSV_loop parseCSVLine].
    match goal with |- context [if ?c then _ else _] => destruct c end.
    + match goal with
        |- context [parseCSV_loop _ _ rest ?a ?l ?s] =>
          apply (IH a l s); apply (step_keeps_ids st s);
            try (now repeat split); try assumption; cbn; try lia
      end.
      * now apply evolve_same.
      * unfold push. rewrite map_app. apply evolve_push; try assumption. lia.
      * now apply evolve_same.
      * now apply evolve_same.
      * unfold push. rewrite map_app. apply evolve_push; try assumption. lia.
      * now apply evolve_same.
    + match goal with
        |- context [parseCSV_loop _ _ rest ?a ?l ?s] =>
          apply (IH a l s); apply (step_keeps_ids st s);
            try (now repeat split); try assumption; cbn; try lia;
            now apply evolve_same
      end.
Qed.

End Ids.

Section IdsOfActions.

Variable idAt : nat -> string.
Variable isoAt : nat -> string.
Hypothesis idAt_injective : forall j k, idAt j = idAt k -> j = k.

Lemma processImport_state (csv : string) (st : State) :
  stateOf (processImport idAt isoAt csv st)
  = stateOf (parseCSV idAt isoAt csv st).
Proof.
  unfold processImport, bind.
  destruct (parseCSV idAt isoAt csv st) as [st' [r|e]]; [|reflexivity].
  cbn -[updateAllDisplays]. now rewrite updateAllDisplays_result.
Qed.

Lemma perform_keeps_ids (a : Action) (st : State) :
  uniqueIds st -> idsFresh idAt st ->
  uniqueIds (stateOf (perform idAt isoAt a st))
  /\ idsFresh idAt (stateOf (perform idAt isoAt a st)).
Proof.
  intros Hu Hf.
  pose proof Hu as (UA & UL & US).
  destruct (Hf (queries st) (le_n _)) as (FA & FL & FS).
  destruct a as [form|form|x|x|  |x c|x c|answer| | |csv|c r];
    cbn [perform].
  - destruct (handleAssetSubmit_cases idAt isoAt form st)
      as [(e & before & old & after & Hst & Hold & ->)|[->|[_ ->]]];
      [| |now split];
      apply (step_keeps_ids idAt idAt_injective st); try assumption;
      rewrite ?refreshed_assets, ?refreshed_liabilities, ?refreshed_snapshots, ?refreshed_queries;
      cbn; try lia; try (now apply evolve_same).
    + subst e. rewrite Hst in *. rewrite !map_app in *.
      cbn [map assetData Asset.id] in *. now apply evolve_same.
    + rewrite map_app. apply evolve_push; try assumption. lia.
  - destruct (handleLiabilitySubmit_cases idAt isoAt form st)
      as [(e & before & old & after & Hst & Hold & ->)|[->|[_ ->]]];
      [| |now split];
      apply (step_keeps_ids idAt idAt_injective st); try assumption;
      rewrite ?refreshed_assets, ?refreshed_liabilities, ?refreshed_snapshots, ?refreshed_queries;
      cbn; try lia; try (now apply evolve_same).
    + subst e. rewrite Hst in *. rewrite !map_app in *.
      cbn [map liabilityData Liability.id] in *. now apply evolve_same.
    + rewrite map_app. apply evolve_push; try assumption. lia.
  - apply (step_keeps_ids idAt idAt_injective st); try assumption;
      cbn; try lia; now apply evolve_same.
  - apply (step_keeps_ids idAt idAt_injective st); try assumption;
      cbn; try lia; now apply evolve_same.
  - apply (step_keeps_ids idAt idAt_injective st); try assumption;
      cbn; try lia; now apply evolve_same.
  - destruct c; [|now split]. rewrite deleteAsset_result.
    apply (step_keeps_ids idAt idAt_injective st); try assumption;
      cbn; try lia; try (now apply evolve_same). now apply evolve_filter.
  - destruct c; [|now split]. rewrite deleteLiability_result.
    apply (step_keeps_ids idAt idAt_injective st); try assumption;
      cbn; try lia; try (now apply evolve_same). now apply evolve_filter.
  - rewrite takeSnapshot_result. cbn [stateOf fst].
    apply (step_keeps_ids idAt idAt_injective st); try assumption;
      cbn; try lia; try (now apply evolve_same).
    rewrite map_app. apply evolve_push; try assumption. lia.
  - now split.
  - now split.
  - rewrite processImport_state. unfold parseCSV.
    now apply parseCSV_loop_keeps_ids.
  - destruct c, r; try now split.
    apply (step_keeps_ids idAt idAt_injective st); try assumption;
      cbn; try lia; apply evolve_nil.
Qed.

(** X18. When [generateId] never returns the same id twice, the ids of the
    assets, of the liabilities and of the snapshots stay pairwise
    different whatever the user does: every action keeps them so, in a
    state where no id still to come is in use, and so they are after every
    sequence of actions from the empty store. *)
Theorem ids_stay_unique (actions : list Action) :
  (forall st,
      uniqueIds st -> idsFresh idAt st ->
      uniqueIds (run idAt isoAt actions st)
      /\ idsFresh idAt (run idAt isoAt actions st))
  /\ uniqueIds (run idAt isoAt actions initialState).
Proof.
  assert (H : forall st,
             uniqueIds st -> idsFresh idAt st ->
             uniqueIds (run idAt isoAt actions st)
             /\ idsFresh idAt (run idAt isoAt actions st)).
  { induction actions as [|a r IH]; intros st Hu Hf; [now split|].
    cbn [run fold_left].
    destruct (perform_keeps_ids a st Hu Hf) as [Hu' Hf'].
    now apply IH. }
  split; [exact H|].
  apply H.
  - repeat split; constructor.
  - intros k _. repeat split; intros [].
Qed.

End IdsOfActions.

Lemma repeat0_injective (j k : nat) : Str.repeat0 j = Str.repeat0 k -> j = k.
Proof.
  revert k. induction j as [|j IH]; intros [|k] H; try discriminate;
    [reflexivity|].
  cbn in H. injection H as H. now rewrite (IH k H).
Qed.

Lemma ids_stay_unique_sample :
  uniqueIds
    (run Str.repeat0 Sample.isoAt
         [SubmitAsset Sample.homeForm; ProcessImport Sample.templateCSV;
          TakeSnapshot None; SubmitLiability Sample.mortgageForm;
          TakeSnapshot (Some "again")]
         initialState).
Proof.
  apply (ids_stay_unique Str.repeat0 Sample.isoAt repeat0_injective).
Defined.

(** ** Links and interest rates of the records *)

Lemma linkOk_orNull (value : string) : linkOk (orNull value).
Proof. unfold linkOk, orNull. now destruct value. Qed.

Lemma orElse_zero_not_NaN (x : Num.number) :
  Num.isNaN (Num.orElse x Num.zero) = false.
Proof. now destruct x. Qed.

Lemma Forall_replace {A} (P : A -> Prop) (before after : list A) (old new : A) :
  Forall P (before ++ old :: after) -> P new ->
  Forall P (before ++ new :: after).
Proof.
  intros H Hnew. apply Forall_app in H as [Hb Ha].
  apply Forall_app. split; [assumption|].
  inversion Ha; subst. now constructor.
Qed.

Lemma Forall_filter {A} (P : A -> Prop) (p : A -> bool) (xs : list A) :
  Forall P xs -> Forall P (filter p xs).
Proof.
  intro H. apply Forall_forall. intros x Hx.
  apply filter_In in Hx as [Hx _]. revert x Hx. now apply Forall_forall.
Qed.

Lemma madeOf_all {R} (idAt isoAt : nat -> string)
      (make : list string -> string -> string -> string -> R) (P : R -> Prop) :
  (forall row id createdAt updatedAt, P (make row id createdAt updatedAt)) ->
  forall records rows, madeOf idAt isoAt make records rows -> Forall P records.
Proof.
  intros HP records rows H. unfold madeOf in H.
  induction H as [|record row records rows' (k & ->) _ IH]; constructor;
    [apply HP|exact IH].
Qed.

Section WellMade.

Variable idAt : nat -> string.
Variable isoAt : nat -> string.

Lemma perform_keeps_wellMade (a : Action) (st : State) :
  wellMade st -> wellMade (stateOf (perform idAt isoAt a st)).
Proof.
  intros [HA HL].
  destruct a as [form|form|x|x|  |x c|x c|answer| | |csv|c r];
    cbn [perform].
  - destruct (handleAssetSubmit_cases idAt isoAt form st)
      as [(e & before & old & after & Hst & Hold & ->)|[->|[_ ->]]];
      [| |now split]; split;
      rewrite ?refreshed_assets, ?refreshed_liabilities, ?refreshed_snapshots, ?refreshed_queries;
      cbn; try assumption.
    + rewrite Hst in HA. apply (Forall_replace _ _ _ old); [assumption|].
      apply linkOk_orNull.
    + apply Forall_app. split; [assumption|].
      constructor; [apply linkOk_orNull|constructor].
  - destruct (handleLiabilitySubmit_cases idAt isoAt form st)
      as [(e & before & old & after & Hst & Hold & ->)|[->|[_ ->]]];
      [| |now split]; split;
      rewrite ?refreshed_assets, ?refreshed_liabilities, ?refreshed_snapshots, ?refreshed_queries;
      cbn; try assumption.
    + rewrite Hst in HL. apply (Forall_replace _ _ _ old); [assumption|].
      split; [apply linkOk_orNull|apply orElse_zero_not_NaN].
    + apply Forall_app. split; [assumption|].
      constructor; [|constructor].
      split; [apply linkOk_orNull|apply orElse_zero_not_NaN].
  - now split.
  - now split.
  - now split.
  - destruct c; [|now split]. rewrite deleteAsset_result.
    split; cbn; [now apply Forall_filter|assumption].
  - destruct c; [|now split]. rewrite deleteLiability_result.
    split; cbn; [assumption|now apply Forall_filter].
  - rewrite takeSnapshot_result. now split.
  - now split.
  - now split.
  - rewrite processImport_state. unfold parseCSV.
    destruct (parseCSV_loop_adds idAt isoAt (tl (csvLines csv)) 0 0 st)
      as (newA & newL & q & -> & HnewA & HnewL).
    split; cbn; apply Forall_app; split; try assumption.
    + apply (madeOf_all idAt isoAt importedAsset) with (2 := HnewA).
      intros row id c u. cbn. discriminate.
    + apply (madeOf_all idAt isoAt importedLiability) with (2 := HnewL).
      intros row id c u. cbn.
      split; [discriminate|apply orElse_zero_not_NaN].
  - destruct c, r; now split.
Qed.

(** X19. Whatever the user does from the empty store, no record ends up with
    an empty link, and no liability with an interest rate that is NaN: a
    link is null or an id that is not empty, an interest rate that does
    not parse is 0. Every action keeps a state so. *)
Theorem records_stay_well_made (actions : list Action) :
  (forall st, wellMade st -> wellMade (run idAt isoAt actions st))
  /\ wellMade (run idAt isoAt actions initialState).
Proof.
  assert (H : forall st, wellMade st -> wellMade (run idAt isoAt actions st)).
  { induction actions as [|a r IH]; intros st Hst; [assumption|].
    cbn [run fold_left]. apply IH. now apply perform_keeps_wellMade. }
  split; [exact H|]. apply H. split; constructor.
Qed.

End WellMade.

Lemma records_stay_well_made_sample :
  wellMade (run Sample.idAt Sample.isoAt
                [SubmitLiability Sample.mortgageForm] Sample.store).
Proof.
  apply (records_stay_well_made Sample.idAt Sample.isoAt).
  split; repeat constructor; discriminate.
Defined.

(** ** The numbers of the records *)

Lemma isNumber_orElse_zero (x : Num.number) :
  Num.isNumber x = true -> Num.isNumber (Num.orElse x Num.zero) = true.
Proof.
  intro H. unfold Num.orElse. now destruct (Num.truthy x).
Qed.

Lemma assetData_numbers (form : AssetForm) (id createdAt updatedAt : string) :
  Num.isNumber (Asset.purchasePrice (assetData form id createdAt updatedAt))
  = true
  /\ Num.isNumber (Asset.currentValue (assetData form id createdAt updatedAt))
     = true.
Proof. split; apply parseFloat_isNumber. Qed.

Lemma liabilityData_numbers (form : LiabilityForm)
      (id createdAt updatedAt : string) :
  Num.isNumber
    (Liability.originalAmount (liabilityData form id createdAt updatedAt))
  = true
  /\ Num.isNumber
       (Liability.currentBalance (liabilityData form id createdAt updatedAt))
     = true
  /\ Num.isNumber
       (Liability.interestRate (liabilityData form id createdAt updatedAt))
     = true.
Proof.
  repeat split; try apply parseFloat_isNumber.
  apply isNumber_orElse_zero, parseFloat_isNumber.
Qed.

Section NumbersStored.

Variable idAt : nat -> string.
Variable isoAt : nat -> string.

Lemma perform_keeps_numbers (a : Action) (st : State) :
  numbersStored st -> numbersStored (stateOf (perform idAt isoAt a st)).
Proof.
  intros [HA HL].
  destruct a as [form|form|x|x|  |x c|x c|answer| | |csv|c r];
    cbn [perform].
  - destruct (handleAssetSubmit_cases idAt isoAt form st)
      as [(e & before & old & after & Hst & Hold & ->)|[->|[_ ->]]];
      [| |now split]; split;
      rewrite ?refreshed_assets, ?refreshed_liabilities;
      cbn [stored assets liabilities]; try assumption.
    + rewrite Hst in HA. apply (Forall_replace _ _ _ old); [assumption|].
      apply assetData_numbers.
    + apply Forall_app. split; [assumption|].
      constructor; [apply assetData_numbers|constructor].
  - destruct (handleLiabilitySubmit_cases idAt isoAt form st)
      as [(e & before & old & after & Hst & Hold & ->)|[->|[_ ->]]];
      [| |now split]; split;
      rewrite ?refreshed_assets, ?refreshed_liabilities;
      cbn [stored assets liabilities]; try assumption.
    + rewrite Hst in HL. apply (Forall_replace _ _ _ old); [assumption|].
      apply liabilityData_numbers.
    + apply Forall_app. split; [assumption|].
      constructor; [apply liabilityData_numbers|constructor].
  - now split.
  - now split.
  - now split.
  - destruct c; [|now split]. rewrite deleteAsset_result.
    split; cbn [stateOf fst set_assets assets liabilities];
      [now apply Forall_filter|assumption].
  - destruct c; [|now split]. rewrite deleteLiability_result.
    split; cbn [stateOf fst set_liabilities assets liabilities];
      [assumption|now apply Forall_filter].
  - rewrite takeSnapshot_result. now split.
  - now split.
  - now split.
  - rewrite processImport_state. unfold parseCSV.
    destruct (parseCSV_loop_adds idAt isoAt (tl (csvLines csv)) 0 0 st)
      as (newA & newL & q & -> & HnewA & HnewL).
    split; cbn [stateOf fst imported assets liabilities];
      apply Forall_app; split; try assumption.
    + apply (madeOf_all idAt isoAt importedAsset) with (2 := HnewA).
      intros row id c u. split; apply parseFloat_isNumber.
    + apply (madeOf_all idAt isoAt importedLiability) with (2 := HnewL).
      intros row id c u. repeat split; try apply parseFloat_isNumber.
      apply isNumber_orElse_zero, parseFloat_isNumber.
  - destruct c, r; now split.
Qed.

(** Whatever the user does from the empty store, the numbers of the
    records are Numbers: each of them is what [parseFloat] returned, or
    the 0 that replaces an interest rate. *)
Lemma numbers_stay_stored (actions : list Action) :
  (forall st, numbersStored st -> numbersStored (run idAt isoAt actions st))
  /\ numbersStored (run idAt isoAt actions initialState).
Proof.
  assert (H : forall st,
             numbersStored st -> numbersStored (run idAt isoAt actions st)).
  { induction actions as [|a r IH]; intros st Hst; [assumption|].
    cbn [run fold_left]. apply IH. now apply perform_keeps_numbers. }
  split; [exact H|]. apply H. split; constructor.
Qed.

End NumbersStored.

Lemma numbersStored_values (st : State) :
  numbersStored st ->
  Forall (fun a => Num.isNumber (Asset.currentValue a) = true) (assets st)
  /\ Forall (fun l => Num.isNumber (Liability.currentBalance l) = true)
            (liabilities st).
Proof.
  intros [HA HL]. split.
  - revert HA. apply Forall_impl. now intros a [_ H].
  - revert HL. apply Forall_impl. now intros l (_ & H & _).
Qed.

(** C3. In every state [calculateNetWorth] is [calculateTotalAssets] minus
    [calculateTotalLiabilities], and the two totals are 0 for an empty
    collection. [calculateTotalAssets] is the sum of the [currentValue]s
    of the assets, added from left to right from 0 in binary64 arithmetic,
    and likewise [calculateTotalLiabilities] for the [currentBalance]s:
    [parseFloat], which the code applies to each value, converts the
    Number to its decimal form and reads it back. This holds where the
    values are Numbers, and so in every state that the actions of the user
    reach from the empty store. *)
Theorem calculateNetWorth_is_assets_minus_liabilities (st : State) :
  calculateNetWorth st
  = Num.sub (calculateTotalAssets st) (calculateTotalLiabilities st)
  /\ (assets st = [] -> calculateTotalAssets st = Num.zero)
  /\ (liabilities st = [] -> calculateTotalLiabilities st = Num.zero)
  /\ (Forall (fun a => Num.isNumber (Asset.currentValue a) = true) (assets st) ->
      calculateTotalAssets st = Num.sum (map Asset.currentValue (assets st)))
  /\ (Forall (fun l => Num.isNumber (Liability.currentBalance l) = true)
             (liabilities st) ->
      calculateTotalLiabilities st
      = Num.sum (map Liability.currentBalance (liabilities st)))
  /\ (Forall (fun a => Num.isNumber (Asset.currentValue a) = true) (assets st) ->
      Forall (fun l => Num.isNumber (Liability.currentBalance l) = true)
             (liabilities st) ->
      calculateNetWorth st
      = Num.sub (Num.sum (map Asset.currentValue (assets st)))
                (Num.sum (map Liability.currentBalance (liabilities st))))
  /\ (forall idAt isoAt actions,
         st = run idAt isoAt actions initialState ->
         calculateTotalAssets st = Num.sum (map Asset.currentValue (assets st))
         /\ calculateTotalLiabilities st
            = Num.sum (map Liability.currentBalance (liabilities st))
         /\ calculateNetWorth st
            = Num.sub (Num.sum (map Asset.currentValue (assets st)))
                      (Num.sum (map Liability.currentBalance (liabilities st)))).
Proof.
  unfold calculateNetWorth, calculateTotalAssets, calculateTotalLiabilities.
  split; [reflexivity|].
  split; [now intros ->|].
  split; [now intros ->|].
  split; [apply total_is_sum|].
  split; [apply total_is_sum|].
  split; [intros HA HL; now rewrite !total_is_sum|].
  intros idAt isoAt actions ->.
  destruct (numbers_stay_stored idAt isoAt actions) as [_ H].
  apply numbersStored_values in H as [HA HL].
  now rewrite !total_is_sum.
Qed.

(** Three assets worth 0.1, 0.2 and 350000.75 and two liabilities of
    240000.5 and -0: the totals are the binary64 sums. So they are after
    a form, an import and again a form. *)
Lemma calculateNetWorth_sample :
  calculateTotalAssets Sample.ledger
  = Num.sum [Num.parseFloat "0.1"; Num.parseFloat "0.2";
             Num.parseFloat "350000.75"]
  /\ calculateTotalLiabilities Sample.ledger
     = Num.sum [Num.parseFloat "240000.5"; Num.parseFloat "-0"]
  /\ calculateNetWorth Sample.ledger
     = Num.sub (Num.sum [Num.parseFloat "0.1"; Num.parseFloat "0.2";
                         Num.parseFloat "350000.75"])
               (Num.sum [Num.parseFloat "240000.5"; Num.parseFloat "-0"])
  /\ calculateTotalAssets Sample.ledger = Num.parseFloat "350001.05"
  /\ calculateNetWorth Sample.ledger = Num.parseFloat "110000.54999999999"
  /\ calculateNetWorth Sample.store = Num.ofZ 110000
  /\ calculateTotalAssets
       (run Sample.idAt Sample.isoAt
            [SubmitAsset Sample.homeForm; ProcessImport Sample.templateCSV;
             SubmitLiability Sample.mortgageForm] initialState)
     = Num.sum (map Num.parseFloat ["360000"; "350000"; "18000"; "15000"])
  /\ calculateTotalAssets initialState = Num.zero
  /\ calculateTotalLiabilities initialState = Num.zero.
Proof.
  pose proof (calculateNetWorth_is_assets_minus_liabilities Sample.ledger)
    as (_ & _ & _ & HA & HL & HN & _).
  pose proof (calculateNetWorth_is_assets_minus_liabilities initialState)
    as (_ & HA0 & HL0 & _).
  pose proof (calculateNetWorth_is_assets_minus_liabilities
                (run Sample.idAt Sample.isoAt
                     [SubmitAsset Sample.homeForm;
                      ProcessImport Sample.templateCSV;
                      SubmitLiability Sample.mortgageForm] initialState))
    as (_ & _ & _ & _ & _ & _ & HR).
  assert (NA : Forall (fun a => Num.isNumber (Asset.currentValue a) = true)
                      (assets Sample.ledger))
    by (repeat constructor).
  assert (NL : Forall (fun l => Num.isNumber (Liability.currentBalance l) = true)
                      (liabilities Sample.ledger))
    by (repeat constructor).
  split; [exact (HA NA)|].
  split; [exact (HL NL)|].
  split; [exact (HN NA NL)|].
  split; [vm_compute; reflexivity|].
  split; [vm_compute; reflexivity|].
  split; [vm_compute; reflexivity|].
  split; [destruct (HR Sample.idAt Sample.isoAt _ eq_refl) as (-> & _);
          vm_compute; reflexivity|].
  split; [apply HA0; reflexivity|apply HL0; reflexivity].
Defined.

(** ** Totals after a submission, lines of the export *)

(** X20. Submitting the asset form while nothing is being edited raises the
    total of the assets by the current value that was typed, as
    [parseFloat] reads it, and leaves the total of the liabilities; the
    liability form does the same to the total of the liabilities with the
    current balance. *)
Theorem totals_follow_submissions (idAt isoAt : nat -> string) (st : State) :
  (forall form,
      truthyId (editingAssetId st) = false ->
      calculateTotalAssets (stateOf (handleAssetSubmit idAt isoAt form st))
      = Num.add (calculateTotalAssets st)
                (Num.parseFloatNumber
                   (Num.parseFloat (asset_current_value form)))
      /\ calculateTotalLiabilities
           (stateOf (handleAssetSubmit idAt isoAt form st))
         = calculateTotalLiabilities st)
  /\ (forall form,
         truthyId (editingLiabilityId st) = false ->
         calculateTotalLiabilities
           (stateOf (handleLiabilitySubmit idAt isoAt form st))
         = Num.add (calculateTotalLiabilities st)
                   (Num.parseFloatNumber
                      (Num.parseFloat (liability_current_balance form)))
         /\ calculateTotalAssets
              (stateOf (handleLiabilitySubmit idAt isoAt form st))
            = calculateTotalAssets st).
Proof.
  split; intros form H.
  - rewrite (handleAssetSubmit_appends idAt isoAt form st H).
    unfold calculateTotalAssets, calculateTotalLiabilities.
    rewrite refreshed_assets, refreshed_liabilities.
    cbn [stored assets liabilities].
    rewrite fold_left_app. split; reflexivity.
  - rewrite (handleLiabilitySubmit_appends idAt isoAt form st H).
    unfold calculateTotalAssets, calculateTotalLiabilities.
    rewrite refreshed_assets, refreshed_liabilities.
    cbn [stored assets liabilities].
    rewrite fold_left_app. split; reflexivity.
Qed.

Lemma totals_follow_submissions_sample :
  calculateTotalAssets
    (stateOf (handleAssetSubmit Sample.idAt Sample.isoAt Sample.homeForm
                                initialState)) = Num.ofZ 360000
  /\ calculateNetWorth
       (stateOf (handleAssetSubmit Sample.idAt Sample.isoAt Sample.homeForm
                                   initialState)) = Num.ofZ 360000.
Proof.
  destruct (totals_follow_submissions Sample.idAt Sample.isoAt initialState)
    as (H & _).
  destruct (H Sample.homeForm eq_refl) as (HA & HL).
  unfold calculateNetWorth. rewrite HA, HL.
  split; vm_compute; reflexivity.
Defined.

(** X7. The text that [exportData] writes has, for records whose texts have no
    line break, one line that is not blank for the header and one for
    each record: the header first, then the assets in their order, then
    the liabilities in theirs. For the empty store it is the header alone,
    and importing it adds nothing. *)
Theorem exportData_has_one_line_per_record
        (idAt isoAt : nat -> string) (st : State) :
  (Forall (fun a => oneLineAsset a = true) (assets st) ->
   Forall (fun l => oneLineLiability l = true) (liabilities st) ->
   csvLines (exportData st)
   = header :: map assetLine (assets st)
            ++ map liabilityLine (liabilities st)
   /\ List.length (csvLines (exportData st))
      = 1 + List.length (assets st) + List.length (liabilities st))
  /\ csvLines (exportData initialState) = [header]
  /\ parseCSV idAt isoAt (exportData initialState) st = (st, Normal (0, 0)).
Proof.
  split; [|split; reflexivity].
  intros HA HL. rewrite (csvLines_exportData_lines st HA HL).
  split; [reflexivity|].
  cbn [List.length]. rewrite length_app, !length_map. lia.
Qed.

Lemma exportData_sample :
  List.length (csvLines (exportData Sample.store)) = 3.
Proof.
  apply (exportData_has_one_line_per_record
           Sample.idAt Sample.isoAt Sample.store).
  - constructor; [vm_compute; reflexivity|constructor].
  - constructor; [vm_compute; reflexivity|constructor].
Defined.
